(** * PyHammer: the classification pipeline of [pyhammer.main]

    A shallow embedding of the orchestrating function [main] of
    pyhammer.py, together with the Python string operations its manifest
    parser relies on.  The Spectrum object and the Eyecheck GUI live in
    other modules of the project; they appear here as an interface whose
    calls are recorded in an event log. *)

From Stdlib Require Import List Bool Arith ZArith Lia Ascii.
From Stdlib Require String.
Import String.StringSyntax.
Delimit Scope string_scope with string.
From Stdlib Require Import Numbers.DecimalString.
Import ListNotations.

(** ** Python strings

    A [str] is the list of its characters; code points below 256 are
    enough for every literal of the program. *)

Module PyStr.

Definition str := list ascii.

Definition lit (s : String.string) : str := String.list_ascii_of_string s.

Arguments lit s%_string.

Definition chr (n : nat) : ascii := ascii_of_nat n.

Definition newline : ascii := chr 10.
Definition space : ascii := chr 32.
Definition comma : ascii := chr 44.
Definition slash : ascii := chr 47.

(** [c.isspace()]: the characters [str.split()] and [str.strip()] treat as
    whitespace (tab to carriage return, the four separators, the blank,
    NEL and the no-break space). *)
Definition isspace (c : ascii) : bool :=
  let n := nat_of_ascii c in
  ((9 <=? n) && (n <=? 13)) || ((28 <=? n) && (n <=? 32))
  || (n =? 133) || (n =? 160).

(** [s.lstrip()], [s.rstrip()], [s.strip()] *)
Fixpoint lstrip (s : str) : str :=
  match s with
  | [] => []
  | c :: r => if isspace c then lstrip r else s
  end.

Definition rstrip (s : str) : str := rev (lstrip (rev s)).

Definition strip (s : str) : str := rstrip (lstrip s).

(** [s.find(c)] for a one-character needle: the least index, or -1. *)
Fixpoint find (c : ascii) (s : str) : Z :=
  match s with
  | [] => (-1)%Z
  | x :: r =>
      if Ascii.eqb x c then 0%Z
      else let k := find c r in
           if (k <? 0)%Z then (-1)%Z else (k + 1)%Z
  end.

(** [s.replace(a, b)] for one-character [a] and [b]. *)
Definition replace (a b : ascii) (s : str) : str :=
  map (fun x => if Ascii.eqb x a then b else x) s.

(** [s.replace(a, '')] *)
Definition remove_all (a : ascii) (s : str) : str :=
  filter (fun x => negb (Ascii.eqb x a)) s.

(** [s.count(a)] *)
Definition count (a : ascii) (s : str) : nat :=
  length (filter (fun x => Ascii.eqb x a) s).

(** [s.split()]: maximal runs of non-whitespace characters.  [cur] holds
    the run being read, most recent character first. *)
Definition flush (cur : str) (k : list str) : list str :=
  match cur with
  | [] => k
  | _ :: _ => rev cur :: k
  end.

Fixpoint split_from (cur : str) (s : str) : list str :=
  match s with
  | [] => flush cur []
  | c :: r =>
      if isspace c then flush cur (split_from [] r)
      else split_from (c :: cur) r
  end.

Definition split (s : str) : list str := split_from [] s.

(** [sep.join(parts)] *)
Fixpoint join (sep : str) (parts : list str) : str :=
  match parts with
  | [] => []
  | p :: ps =>
      match ps with
      | [] => p
      | _ :: _ => p ++ sep ++ join sep ps
      end
  end.

(** The cut at the last occurrence of [c], when there is one. *)
Fixpoint rpartition (c : ascii) (s : str) : option (str * str) :=
  match s with
  | [] => None
  | x :: r =>
      match rpartition c r with
      | Some (a, b) => Some (x :: a, b)
      | None => if Ascii.eqb x c then Some ([], r) else None
      end
  end.

(** [s.rsplit(c, 1)] *)
Definition rsplit1 (c : ascii) (s : str) : list str :=
  match rpartition c s with
  | Some (a, b) => [a; b]
  | None => [s]
  end.

(** [os.path.basename(p)], with [/] as the separator *)
Definition basename (p : str) : str :=
  match rpartition slash p with
  | Some (_, b) => b
  | None => p
  end.

(** [str(n)] for an [int] *)
Definition str_of_Z (z : Z) : str :=
  String.list_ascii_of_string (NilEmpty.string_of_int (Z.to_int z)).

Definition str_eqb (a b : str) : bool :=
  if list_eq_dec ascii_dec a b then true else false.

End PyStr.

Import PyStr.

(** ** Numbers

    The signal-to-noise value, the floor, the velocity shift, the sub-type
    and the metallicity are Python numbers.  The pipeline compares them
    with [<] and prints them; nothing else of their arithmetic is used, so
    they are kept behind an interface: [x < y], [x == y], [str(x)] and
    ['{:+2.1f}'.format(x)]. *)

Class Numeric := {
  num : Type;
  num_ltb : num -> num -> bool;
  num_eqb : num -> num -> bool;
  num_str : num -> str;
  num_format : num -> str
}.

(** Two facts about Python's [float] and [int] that some results below
    depend on: equal numbers are not strictly ordered, and the text of a
    number holds no line break. *)
Definition eq_not_lt `{Numeric} : Prop :=
  forall x y, num_eqb x y = true -> num_ltb x y = false.

Definition str_one_line `{Numeric} : Prop :=
  forall x, ~ In newline (num_str x).

(** ** The Spectrum object *)

(** Modelled from the spec: the type index stored under [guess['specType']]
    by the Spectrum class of spectrum.py, one of the eight classes
    O, B, A, F, G, K, M, L. *)
Inductive SpecType := TypeO | TypeB | TypeA | TypeF | TypeG | TypeK | TypeM | TypeL.

Definition type_index (t : SpecType) : nat :=
  match t with
  | TypeO => 0 | TypeB => 1 | TypeA => 2 | TypeF => 3
  | TypeG => 4 | TypeK => 5 | TypeM => 6 | TypeL => 7
  end.

(** Modelled from the spec: the [guess] dict of the Spectrum class, with the
    three entries [main] reads. *)
Record Guess `{Numeric} := {
  specType : SpecType;
  subType : num;
  metal : num
}.

(** Modelled from the spec: the Spectrum class of spectrum.py, through the
    methods [main] calls.  Every method may change the object, so each
    takes the object's state and gives it back. *)
Class Spectrum `{Numeric} := {
  St : Type;
  readFile : str -> str -> St -> (bool * str) * St;
  calcSN : St -> num * St;
  normalizeFlux : St -> St;
  guessSpecType : St -> St;
  findRadialVelocity : St -> num * St;
  shiftToRest : num -> St -> St;
  guess : St -> Guess
}.

(** ** Options and environment *)

(** The options dict, as the settings window hands it to [main]: the
    S/N cut is [None] or a number.  (The questions on the command line
    can pass on a cut that is still the text typed after [-s]; see the
    part on [startCmd].  [main] is followed here on a dict whose cut is
    a number or [None].) *)
Record Options `{Numeric} := {
  infile : str;
  outfile : str;
  rejectfile : str;
  spectraPath : str;
  eyecheck : bool;
  sncut : option num;
  useGUI : bool
}.

(** What [open(path, 'r')] gives: the text of the [IOError], or the lines
    the file object yields when iterated; and whether [os.remove(path)]
    succeeds on a path that cannot be opened.  The files do not change
    during a run but by what the run does, so a file that was opened can
    be removed. *)
Record Env := {
  open_r : str -> str + list str;
  removable : str -> bool
}.

Definition can_remove (env : Env) (path : str) : bool :=
  match open_r env path with
  | inr _ => true
  | inl _ => removable env path
  end.

(** ** Effects *)

Inductive handle := Infile | Outfile | Rejectfile.

Definition handle_eqb (a b : handle) : bool :=
  match a, b with
  | Infile, Infile | Outfile, Outfile | Rejectfile, Rejectfile => true
  | _, _ => false
  end.

(** An uncaught exception leaves the function it was raised in: the
    ValueError of the unpacking, the NameError of an unbound variable
    and the OSError of [os.remove] (FileNotFoundError is one). *)
Inductive exn := ValueError | NameError | OSError.

Inductive result (A : Type) :=
| Ok (a : A)
| Raise (e : exn).

Arguments Ok {A} a.
Arguments Raise {A} e.

(** ** The manifest parser (the first three statements of the loop body) *)

(** [fname, ftype = <list>] *)
Definition unpack2 (l : list str) : result (str * str) :=
  match l with
  | [a; b] => Ok (a, b)
  | _ => Raise ValueError
  end.

(** [if line.find(',') > 0: line = line.replace(',',' ')] *)
Definition normalize_commas (line : str) : str :=
  if (find comma line >? 0)%Z then replace comma space line else line.

(** [line = line.strip()], the comma test, and
    [fname, ftype = ' '.join(line.split()).rsplit(' ',1)] *)
Definition parse_line (line : str) : result (str * str) :=
  let line := strip line in
  let line := normalize_commas line in
  unpack2 (rsplit1 space (join [space] (split line))).

(** Strings without whitespace, and strings of whitespace only. *)
Definition no_space (t : str) : Prop := Forall (fun c => isspace c = false) t.

Definition blank (ws : str) : Prop := Forall (fun c => isspace c = true) ws.

(** The tokens of a manifest line, as the parser sees them. *)
Definition tokens (line : str) : list str :=
  split (normalize_commas (strip line)).

Section Pipeline.

Context {N : Numeric} {S : Spectrum}.

Inductive Call :=
| ReadFile (path ftype : str)
| CalcSN
| NormalizeFlux
| GuessSpecType
| FindRadialVelocity
| ShiftToRest (shift : num).

Inductive Event :=
| EvOpen (h : handle) (path : str)
| EvWrite (h : handle) (data : str)
| EvClose (h : handle)
| EvPrint (text : str)
| EvNotify (gui : bool) (message : str)
| EvCall (c : Call)
| EvEyecheck
| EvRemove (path : str).

(** A computation runs on the state of the Spectrum object and yields a
    value or an exception, the new state, and the events it caused, oldest
    first. *)
Definition M (A : Type) : Type := St -> result A * St * list Event.

Definition ret {A} (a : A) : M A := fun s => (Ok a, s, []).

Definition bind {A B} (m : M A) (k : A -> M B) : M B :=
  fun s =>
    match m s with
    | (Ok a, s1, l1) =>
        match k a s1 with
        | (r, s2, l2) => (r, s2, l1 ++ l2)
        end
    | (Raise e, s1, l1) => (Raise e, s1, l1)
    end.

Definition raise {A} (e : exn) : M A := fun s => (Raise e, s, []).

Definition emit (e : Event) : M unit := fun s => (Ok tt, s, [e]).

Definition lift {A} (r : result A) : M A :=
  match r with
  | Ok a => ret a
  | Raise e => raise e
  end.

Notation "x <- c ;; k" := (bind c (fun x => k))
  (at level 61, c at next level, right associativity).
Notation "c ;; k" := (bind c (fun _ => k))
  (at level 61, right associativity).

(** Method calls on [spec], each recorded in the log. *)
Definition call_readFile (path ftype : str) : M (bool * str) :=
  fun s => let '(r, s1) := readFile path ftype s in
           (Ok r, s1, [EvCall (ReadFile path ftype)]).

Definition call_calcSN : M num :=
  fun s => let '(v, s1) := calcSN s in (Ok v, s1, [EvCall CalcSN]).

Definition call_normalizeFlux : M unit :=
  fun s => (Ok tt, normalizeFlux s, [EvCall NormalizeFlux]).

Definition call_guessSpecType : M unit :=
  fun s => (Ok tt, guessSpecType s, [EvCall GuessSpecType]).

Definition call_findRadialVelocity : M num :=
  fun s => let '(v, s1) := findRadialVelocity s in
           (Ok v, s1, [EvCall FindRadialVelocity]).

Definition call_shiftToRest (shift : num) : M unit :=
  fun s => (Ok tt, shiftToRest shift s, [EvCall (ShiftToRest shift)]).

(** Reading the attribute [spec.guess]. *)
Definition get_guess : M Guess := fun s => (Ok (guess s), s, []).

Definition write (h : handle) (data : str) : M unit := emit (EvWrite h data).

Definition close (h : handle) : M unit := emit (EvClose h).

Definition print (text : str) : M unit := emit (EvPrint text).

(** [notifyUser(useGUI, message)]: the message goes to the terminal or to a
    notification window. *)
Definition notifyUser (gui : bool) (message : str) : M unit :=
  emit (EvNotify gui message).

(** ** The loop body *)

Definition header_out : str :=
  lit "#Filename,Radial Velocity (km/s),Guessed Spectral Type,Guessed Metallicity,User Spectral Type,User Metallicity"
  ++ [newline].

Definition header_reject : str := lit "#Filename,File Type,Spectra S/N" ++ [newline].

Definition letters : list ascii := lit "OBAFGKML".

Definition letterSpt (g : Guess) : str :=
  [nth (type_index (specType g)) letters space].

Definition reject_row (fname ftype value : str) : str :=
  fname ++ [comma] ++ ftype ++ [comma] ++ value ++ [newline].

Definition load_reason (fname message : str) : str :=
  lit "FILE: " ++ fname ++ lit "  REASON: " ++ remove_all newline message ++ [newline].

Definition sn_reason (fname : str) (snVal cut : num) : str :=
  lit "FILE: " ++ fname ++ lit "  REASON: S/N = " ++ num_str snVal
  ++ lit " < " ++ num_str cut ++ [newline].

Definition out_row (fname : str) (shift : num) (g : Guess) : str :=
  fname ++ [comma] ++ num_str shift ++ [comma] ++ letterSpt g ++ num_str (subType g)
  ++ [comma] ++ num_format (metal g) ++ lit ",nan,nan" ++ [newline].

(** Steps 2 to 7 of the body: what happens to a spectrum that was loaded
    and not rejected. *)
Definition classify (fname : str) : M unit :=
  call_normalizeFlux ;;
  call_guessSpecType ;;
  shift <- call_findRadialVelocity ;;
  call_shiftToRest shift ;;
  call_guessSpecType ;;
  g <- get_guess ;;
  write Outfile (out_row fname shift g).

(** One turn of the loop.  It takes the reject message as it stands and
    gives back the message the next turn starts from; [continue] is the
    early return. *)
Definition process_line (opts : Options) (i : nat) (line : str)
    (rejectMessage : str) : M str :=
  p <- lift (parse_line line) ;;
  let '(fname, ftype) := p in
  print (str_of_Z (Z.of_nat i + 1) ++ lit ") Processing " ++ basename fname) ;;
  r <- call_readFile (spectraPath opts ++ fname) ftype ;;
  let '(success, message) := r in
  if negb success then
    write Rejectfile (reject_row fname ftype (lit "N/A")) ;;
    ret (rejectMessage ++ load_reason fname message)
  else
    match sncut opts with
    | Some cut =>
        snVal <- call_calcSN ;;
        if num_ltb snVal cut then
          write Rejectfile (reject_row fname ftype (num_str snVal)) ;;
          ret (rejectMessage ++ sn_reason fname snVal cut)
        else
          classify fname ;; ret rejectMessage
    | None => classify fname ;; ret rejectMessage
    end.

(** [for i, line in enumerate(infile)]: the loop variables are the reject
    message and [i], which is unbound until the first turn. *)
Fixpoint loop (opts : Options) (i : nat) (lines : list str)
    (rejectMessage : str) (last : option nat) : M (str * option nat) :=
  match lines with
  | [] => ret (rejectMessage, last)
  | line :: rest =>
      m <- process_line opts i line rejectMessage ;;
      loop opts (Datatypes.S i) rest m (Some i)
  end.

(** ** After the loop *)

Definition preamble : str :=
  lit "The following is a list of rejected spectra" ++ [newline]
  ++ lit "along with the reason for its rejection." ++ [newline; newline].

Definition all_bad : str := lit "All spectra were bad. Exiting PyHammer.".

(** [os.remove(path)] *)
Definition remove (env : Env) (path : str) : M unit :=
  if can_remove env path then emit (EvRemove path) else raise OSError.

Definition temp_named (opts : Options) : bool :=
  str_eqb (firstn 11 (basename (infile opts))) (lit "temp_input_").

(** [if os.path.basename(options['infile'])[:11] == 'temp_input_': os.remove(...)] *)
Definition cleanup (opts : Options) (env : Env) : M unit :=
  if temp_named opts then remove env (infile opts) else ret tt.

(** The last two statements of [main]. *)
Definition review (opts : Options) (env : Env) : M unit :=
  emit EvEyecheck ;; cleanup opts env.

(** Reading the loop variable [i] after the loop. *)
Definition read_i (last : option nat) : M nat :=
  match last with
  | Some i => ret i
  | None => raise NameError
  end.

(** [main].  The two output files are taken to open: their paths are
    the caller's to make valid. *)
Definition main (opts : Options) (env : Env) : M unit :=
  if negb (eyecheck opts) then
    match open_r env (infile opts) with
    | inl e => notifyUser (useGUI opts) e
    | inr lines =>
        emit (EvOpen Infile (infile opts)) ;;
        emit (EvOpen Outfile (outfile opts)) ;;
        emit (EvOpen Rejectfile (rejectfile opts)) ;;
        write Outfile header_out ;;
        write Rejectfile header_reject ;;
        v <- loop opts 0 lines [] None ;;
        let '(rejectMessage, last) := v in
        close Infile ;;
        close Outfile ;;
        close Rejectfile ;;
        if negb (str_eqb rejectMessage []) then
          let rejectMessage := preamble ++ rejectMessage in
          notifyUser (useGUI opts) rejectMessage ;;
          i <- read_i last ;;
          if count newline rejectMessage =? i + 4 then
            notifyUser (useGUI opts) all_bad ;;
            cleanup opts env
          else review opts env
        else review opts env
    end
  else review opts env.

(** ** Reading a log *)

(** The strings written to [h], in order. *)
Fixpoint written (h : handle) (l : list Event) : list str :=
  match l with
  | [] => []
  | EvWrite h' d :: r => if handle_eqb h h' then d :: written h r else written h r
  | _ :: r => written h r
  end.

(** The data rows of a file: what was written after its header. *)
Definition rows (h : handle) (l : list Event) : list str := tl (written h l).

(** The method calls made on the Spectrum object, in order. *)
Fixpoint calls (l : list Event) : list Call :=
  match l with
  | [] => []
  | EvCall c :: r => c :: calls r
  | _ :: r => calls r
  end.

(** Whether [h] is open once the events of [l] have happened, given
    whether it was open before. *)
Fixpoint is_open (h : handle) (before : bool) (l : list Event) : bool :=
  match l with
  | [] => before
  | EvOpen h' _ :: r => is_open h (if handle_eqb h h' then true else before) r
  | EvClose h' :: r => is_open h (if handle_eqb h h' then false else before) r
  | _ :: r => is_open h before r
  end.

Definition is_eyecheck (e : Event) : bool :=
  match e with EvEyecheck => true | _ => false end.

Definition is_calcSN (c : Call) : bool :=
  match c with CalcSN => true | _ => false end.

Definition is_findRadialVelocity (c : Call) : bool :=
  match c with FindRadialVelocity => true | _ => false end.

(** The lines the loop gets through: the ones before the first line that
    does not parse. *)
Definition parses (line : str) : bool :=
  match parse_line line with Ok _ => true | Raise _ => false end.

Fixpoint parsed_prefix (lines : list str) : list str :=
  match lines with
  | [] => []
  | line :: rest => if parses line then line :: parsed_prefix rest else []
  end.

(** ** One turn of the loop, case by case *)

(** The events every turn starts with once its line is parsed. *)
Definition preface (opts : Options) (i : nat) (fname ftype : str) : list Event :=
  [EvPrint (str_of_Z (Z.of_nat i + 1) ++ lit ") Processing " ++ basename fname);
   EvCall (ReadFile (spectraPath opts ++ fname) ftype)].

(** The shift found for a loaded spectrum, the state the object is left
    in, and the calls of the two passes. *)
Definition pass_shift (s : St) : num :=
  fst (findRadialVelocity (guessSpecType (normalizeFlux s))).

Definition pass_state (s : St) : St :=
  guessSpecType
    (shiftToRest (pass_shift s)
       (snd (findRadialVelocity (guessSpecType (normalizeFlux s))))).

Definition two_pass (shift : num) : list Call :=
  [NormalizeFlux; GuessSpecType; FindRadialVelocity; ShiftToRest shift; GuessSpecType].

Definition pass_log (fname : str) (s : St) : list Event :=
  map EvCall (two_pass (pass_shift s))
  ++ [EvWrite Outfile (out_row fname (pass_shift s) (guess (pass_state s)))].

(** [turn opts i line msg s x]: [x] is what a turn on [line] gives. *)
Inductive turn (opts : Options) (i : nat) (line : str) (msg : str) (s : St) :
    result str * St * list Event -> Prop :=
| turn_unparsed e :
    parse_line line = Raise e ->
    turn opts i line msg s (Raise e, s, [])
| turn_load_failure fname ftype message s1 :
    parse_line line = Ok (fname, ftype) ->
    readFile (spectraPath opts ++ fname) ftype s = ((false, message), s1) ->
    turn opts i line msg s
      (Ok (msg ++ load_reason fname message), s1,
       preface opts i fname ftype
       ++ [EvWrite Rejectfile (reject_row fname ftype (lit "N/A"))])
| turn_below_floor fname ftype message s1 cut snVal s2 :
    parse_line line = Ok (fname, ftype) ->
    readFile (spectraPath opts ++ fname) ftype s = ((true, message), s1) ->
    sncut opts = Some cut ->
    calcSN s1 = (snVal, s2) ->
    num_ltb snVal cut = true ->
    turn opts i line msg s
      (Ok (msg ++ sn_reason fname snVal cut), s2,
       preface opts i fname ftype
       ++ [EvCall CalcSN; EvWrite Rejectfile (reject_row fname ftype (num_str snVal))])
| turn_accept_floor fname ftype message s1 cut snVal s2 :
    parse_line line = Ok (fname, ftype) ->
    readFile (spectraPath opts ++ fname) ftype s = ((true, message), s1) ->
    sncut opts = Some cut ->
    calcSN s1 = (snVal, s2) ->
    num_ltb snVal cut = false ->
    turn opts i line msg s
      (Ok msg, pass_state s2,
       preface opts i fname ftype ++ [EvCall CalcSN] ++ pass_log fname s2)
| turn_accept_no_floor fname ftype message s1 :
    parse_line line = Ok (fname, ftype) ->
    readFile (spectraPath opts ++ fname) ftype s = ((true, message), s1) ->
    sncut opts = None ->
    turn opts i line msg s
      (Ok msg, pass_state s1, preface opts i fname ftype ++ pass_log fname s1).

(** Events that leave the three files as open or closed as they were and
    do not start the review. *)
Definition quiet (e : Event) : bool :=
  match e with
  | EvOpen _ _ | EvClose _ | EvEyecheck | EvNotify _ _ | EvRemove _ => false
  | EvWrite _ _ | EvPrint _ | EvCall _ => true
  end.

(** A reject row that reports no measurement. *)
Definition na_row (row : str) : Prop :=
  exists fname ftype, row = fname ++ [comma] ++ ftype ++ [comma] ++ lit "N/A" ++ [newline].

(** ** A run of [main], case by case *)

Definition opening (opts : Options) : list Event :=
  [EvOpen Infile (infile opts); EvOpen Outfile (outfile opts);
   EvOpen Rejectfile (rejectfile opts);
   EvWrite Outfile header_out; EvWrite Rejectfile header_reject].

Definition closing : list Event :=
  [EvClose Infile; EvClose Outfile; EvClose Rejectfile].

Definition cleanup_log (opts : Options) : list Event :=
  if str_eqb (firstn 11 (basename (infile opts))) (lit "temp_input_")
  then [EvRemove (infile opts)]
  else [].

(** [finish opts env s x]: [x] is what [main] gives. *)
Inductive finish (opts : Options) (env : Env) (s : St) :
    result unit * St * list Event -> Prop :=
| finish_skip :
    eyecheck opts = true ->
    (temp_named opts = true -> can_remove env (infile opts) = true) ->
    finish opts env s (Ok tt, s, EvEyecheck :: cleanup_log opts)
| finish_skip_missing :
    eyecheck opts = true ->
    temp_named opts = true ->
    can_remove env (infile opts) = false ->
    finish opts env s (Raise OSError, s, [EvEyecheck])
| finish_no_manifest e :
    eyecheck opts = false ->
    open_r env (infile opts) = inl e ->
    finish opts env s (Ok tt, s, [EvNotify (useGUI opts) e])
| finish_raised lines e s1 ll :
    eyecheck opts = false ->
    open_r env (infile opts) = inr lines ->
    loop opts 0 lines [] None s = (Raise e, s1, ll) ->
    finish opts env s (Raise e, s1, opening opts ++ ll)
| finish_none_rejected lines last s1 ll :
    eyecheck opts = false ->
    open_r env (infile opts) = inr lines ->
    loop opts 0 lines [] None s = (Ok ([], last), s1, ll) ->
    finish opts env s
      (Ok tt, s1, opening opts ++ ll ++ closing ++ EvEyecheck :: cleanup_log opts)
| finish_unbound lines m s1 ll :
    eyecheck opts = false ->
    open_r env (infile opts) = inr lines ->
    loop opts 0 lines [] None s = (Ok (m, None), s1, ll) ->
    m <> [] ->
    finish opts env s
      (Raise NameError, s1,
       opening opts ++ ll ++ closing ++ [EvNotify (useGUI opts) (preamble ++ m)])
| finish_all_rejected lines m i s1 ll :
    eyecheck opts = false ->
    open_r env (infile opts) = inr lines ->
    loop opts 0 lines [] None s = (Ok (m, Some i), s1, ll) ->
    m <> [] ->
    count newline (preamble ++ m) = i + 4 ->
    finish opts env s
      (Ok tt, s1,
       opening opts ++ ll ++ closing
       ++ EvNotify (useGUI opts) (preamble ++ m)
          :: EvNotify (useGUI opts) all_bad :: cleanup_log opts)
| finish_review lines m i s1 ll :
    eyecheck opts = false ->
    open_r env (infile opts) = inr lines ->
    loop opts 0 lines [] None s = (Ok (m, Some i), s1, ll) ->
    m <> [] ->
    count newline (preamble ++ m) <> i + 4 ->
    finish opts env s
      (Ok tt, s1,
       opening opts ++ ll ++ closing
       ++ EvNotify (useGUI opts) (preamble ++ m)
          :: EvEyecheck :: cleanup_log opts).

End Pipeline.

(** ** More ways to read a string and a log *)

(** A path as the parser hands it on: it does not begin or end with
    whitespace, is not empty, and its only whitespace is single blanks.
    [after_blank] tells whether the character before was a blank (or the
    string starts here). *)
Fixpoint well_spaced (after_blank : bool) (s : str) : bool :=
  match s with
  | [] => negb after_blank
  | c :: r =>
      if isspace c
      then negb after_blank && Ascii.eqb c space && well_spaced true r
      else well_spaced false r
  end.

Section Observers.

Context {N : Numeric} {S : Spectrum}.

(** The text of ['{:+2.1f}'.format(x)] holds no line break. *)
Definition format_one_line : Prop :=
  forall x, ~ In newline (num_format x).

Definition is_readFile (c : Call) : bool :=
  match c with ReadFile _ _ => true | _ => false end.

(** The [readFile] call a manifest line stands for. *)
Definition descriptor (opts : Options) (line : str) : list Call :=
  match parse_line line with
  | Ok (fname, ftype) => [ReadFile (spectraPath opts ++ fname) ftype]
  | Raise _ => []
  end.

(** Events of the end of a run: a notice to the user, the review, the
    removal of the manifest. *)
Definition is_late (e : Event) : bool :=
  match e with
  | EvNotify _ _ | EvEyecheck | EvRemove _ => true
  | _ => false
  end.

End Observers.

(** ** The options dict before [main]

    Until [goToMain] or [startCmd] has filled it in, an entry of the
    options dict may be [None]; the S/N cut is a string when it comes from
    the command line and a number once [startCmd] has read it. *)

Record RawOptions `{Numeric} := {
  raw_infile : option str;
  raw_outfile : str;
  raw_rejectfile : str;
  raw_fullPath : option bool;
  raw_spectraPath : option str;
  raw_eyecheck : option bool;
  raw_sncut : option (str + num);
  raw_useGUI : option bool
}.

(** [float(s)], where [None] stands for the ValueError, and the number
    [0] that [goToMain] compares with. *)
Class FloatReader `{Numeric} := {
  float_of_str : str -> option num;
  num_zero : num
}.

(** What the front ends ask the system: [os.path.isfile], [os.path.isdir]
    and [int(time())]. *)
Record Sys := {
  isfile : str -> bool;
  isdir : str -> bool;
  now : Z
}.

(** [s[-4:]], [s[1:]], [s[-1]] (on a non-empty string), and [t * b] for a
    boolean [b]. *)
Definition last4 (s : str) : str := skipn (length s - 4) s.

Definition from1 (s : str) : str := tl s.

Definition times (t : str) (b : bool) : str := if b then t else [].

Definition ends_with (suffix s : str) : bool :=
  str_eqb (skipn (length s - length suffix) s) suffix && (length suffix <=? length s).

Definition backslash : ascii := chr 92.

Definition dot : ascii := chr 46.

(** ** The settings window ([StartGUI])

    The state of the window that bears on what it does: the variables
    behind the entries and radio buttons, the lines of the text box, the
    position in the sequence of settings, the state of the buttons and
    the widgets laid out in the frame.  Sizes, paddings and colours are
    left out. *)

Module Gui.

Inductive Widget :=
| InfileEntry | BrowseButton | CreateButton | HelpButton | CreateFrame
| OutfileEntry | RejectfileEntry | FullPathYes | FullPathNo
| SpectraPathEntry | EyecheckYes | EyecheckNo | SncutEntry.

Definition widget_eqb (a b : Widget) : bool :=
  match a, b with
  | InfileEntry, InfileEntry | BrowseButton, BrowseButton
  | CreateButton, CreateButton | HelpButton, HelpButton
  | CreateFrame, CreateFrame | OutfileEntry, OutfileEntry
  | RejectfileEntry, RejectfileEntry | FullPathYes, FullPathYes
  | FullPathNo, FullPathNo | SpectraPathEntry, SpectraPathEntry
  | EyecheckYes, EyecheckYes | EyecheckNo, EyecheckNo
  | SncutEntry, SncutEntry => true
  | _, _ => false
  end.

Definition is_shown (w : Widget) (l : list Widget) : bool := existsb (widget_eqb w) l.

Record State := {
  createPressed : bool;
  infile : str;
  outfile : str;
  rejectfile : str;
  fullPath : Z;
  spectraPath : str;
  eyecheck : Z;
  sncut : str;
  createWindow : list str;
  dataType : str;
  firstSetting : Z;
  curSetting : Z;
  lastSetting : Z;
  prevEnabled : bool;
  nextEnabled : bool;
  browseEnabled : bool;
  label : str;
  shown : list Widget
}.

Definition set_nav (g : State) (cur last : Z) : State :=
  {| createPressed := createPressed g; infile := infile g; outfile := outfile g;
     rejectfile := rejectfile g; fullPath := fullPath g; spectraPath := spectraPath g;
     eyecheck := eyecheck g; sncut := sncut g; createWindow := createWindow g;
     dataType := dataType g; firstSetting := firstSetting g;
     curSetting := cur; lastSetting := last;
     prevEnabled := prevEnabled g; nextEnabled := nextEnabled g;
     browseEnabled := browseEnabled g; label := label g; shown := shown g |}.

Definition set_view (g : State) (prev next browse : bool) (text : str)
    (widgets : list Widget) : State :=
  {| createPressed := createPressed g; infile := infile g; outfile := outfile g;
     rejectfile := rejectfile g; fullPath := fullPath g; spectraPath := spectraPath g;
     eyecheck := eyecheck g; sncut := sncut g; createWindow := createWindow g;
     dataType := dataType g; firstSetting := firstSetting g;
     curSetting := curSetting g; lastSetting := lastSetting g;
     prevEnabled := prev; nextEnabled := next;
     browseEnabled := browse; label := text; shown := widgets |}.

Definition set_vars (g : State) (pressed : bool) (fp ey : Z) : State :=
  {| createPressed := pressed; infile := infile g; outfile := outfile g;
     rejectfile := rejectfile g; fullPath := fp; spectraPath := spectraPath g;
     eyecheck := ey; sncut := sncut g; createWindow := createWindow g;
     dataType := dataType g; firstSetting := firstSetting g;
     curSetting := curSetting g; lastSetting := lastSetting g;
     prevEnabled := prevEnabled g; nextEnabled := nextEnabled g;
     browseEnabled := browseEnabled g; label := label g; shown := shown g |}.

Inductive Field := FInfile | FOutfile | FRejectfile | FSpectraPath | FSncut | FDataType.

Definition set_text (g : State) (f : Field) (text : str) : State :=
  {| createPressed := createPressed g;
     infile := match f with FInfile => text | _ => infile g end;
     outfile := match f with FOutfile => text | _ => outfile g end;
     rejectfile := match f with FRejectfile => text | _ => rejectfile g end;
     fullPath := fullPath g;
     spectraPath := match f with FSpectraPath => text | _ => spectraPath g end;
     eyecheck := eyecheck g;
     sncut := match f with FSncut => text | _ => sncut g end;
     createWindow := createWindow g;
     dataType := match f with FDataType => text | _ => dataType g end;
     firstSetting := firstSetting g;
     curSetting := curSetting g; lastSetting := lastSetting g;
     prevEnabled := prevEnabled g; nextEnabled := nextEnabled g;
     browseEnabled := browseEnabled g; label := label g; shown := shown g |}.

Definition set_lines (g : State) (lines : list str) : State :=
  {| createPressed := createPressed g; infile := infile g; outfile := outfile g;
     rejectfile := rejectfile g; fullPath := fullPath g; spectraPath := spectraPath g;
     eyecheck := eyecheck g; sncut := sncut g; createWindow := lines;
     dataType := dataType g; firstSetting := firstSetting g;
     curSetting := curSetting g; lastSetting := lastSetting g;
     prevEnabled := prevEnabled g; nextEnabled := nextEnabled g;
     browseEnabled := browseEnabled g; label := label g; shown := shown g |}.

(** The label and the widgets of each setting, as [updateGUI] lays them
    out. *)
Definition panel_label (cur : Z) (old : str) : str :=
  if (cur =? 0)%Z then lit "Provide an input file"
  else if (cur =? 1)%Z then lit "Provide an output file"
  else if (cur =? 2)%Z then lit "Provide a reject file"
  else if (cur =? 3)%Z then lit "Do the spectra in the input file contain full paths?"
  else if (cur =? 4)%Z then lit "Provide the path to the spectra files"
  else if (cur =? 5)%Z then lit "Do you want to skip to classifying by eye?"
  else if (cur =? 6)%Z then lit "Enter a signal to noise cutoff"
  else old.

Definition panel (cur : Z) (pressed : bool) : list Widget :=
  if (cur =? 0)%Z then
    [InfileEntry; BrowseButton; CreateButton; HelpButton]
    ++ (if pressed then [CreateFrame] else [])
  else if (cur =? 1)%Z then [OutfileEntry; BrowseButton; HelpButton]
  else if (cur =? 2)%Z then [RejectfileEntry; BrowseButton; HelpButton]
  else if (cur =? 3)%Z then [FullPathYes; FullPathNo; HelpButton]
  else if (cur =? 4)%Z then [SpectraPathEntry; BrowseButton; HelpButton]
  else if (cur =? 5)%Z then [EyecheckYes; EyecheckNo; HelpButton]
  else if (cur =? 6)%Z then [SncutEntry; HelpButton]
  else [].

Definition panel_browse (cur : Z) (pressed old : bool) : bool :=
  if (cur =? 0)%Z then negb pressed
  else if ((cur =? 1) || (cur =? 2) || (cur =? 4))%Z then true
  else old.

Definition updateGUI (g : State) : State :=
  let cur := Z.min (lastSetting g) (Z.max (firstSetting g) (curSetting g)) in
  let g := set_nav g cur (lastSetting g) in
  set_view g
    (negb (cur =? firstSetting g)%Z)
    (negb (cur =? lastSetting g)%Z)
    (panel_browse cur (createPressed g) (browseEnabled g))
    (panel_label cur (label g))
    (panel cur (createPressed g)).

Definition prevOption (g : State) : State :=
  let cur := (curSetting g - 1)%Z in
  let cur := if ((cur =? 4) && (fullPath g =? 1))%Z then (cur - 1)%Z else cur in
  updateGUI (set_nav g cur (lastSetting g)).

Definition nextOption (g : State) : State :=
  let cur := (curSetting g + 1)%Z in
  let cur := if ((cur =? 4) && (fullPath g =? 1))%Z then (cur + 1)%Z else cur in
  let last := if ((cur >=? 5) && (eyecheck g =? 1))%Z then 5%Z else 6%Z in
  updateGUI (set_nav g cur last).

Definition createInputFile (g : State) : State :=
  updateGUI (set_vars g (negb (createPressed g)) (fullPath g) (eyecheck g)).

(** The radio buttons: each sets its variable; the two of the eyecheck
    setting also set the state of the Next button. *)
Definition pickFullPath (yes : bool) (g : State) : State :=
  set_vars g (createPressed g) (if yes then 1%Z else 0%Z) (eyecheck g).

Definition pickEyecheck (yes : bool) (g : State) : State :=
  let g := set_vars g (createPressed g) (fullPath g) (if yes then 1%Z else 0%Z) in
  set_view g (prevEnabled g) (negb yes) (browseEnabled g) (label g) (shown g).

(** The text box is kept as the list of its lines.  A text that is put
    into it becomes as many lines as it has line breaks, and one more. *)
Fixpoint split_lines_from (cur : str) (text : str) : list str :=
  match text with
  | [] => [rev cur]
  | c :: r =>
      if Ascii.eqb c newline then rev cur :: split_lines_from [] r
      else split_lines_from (c :: cur) r
  end.

Definition split_lines (text : str) : list str := split_lines_from [] text.

(** [applyType]: the lines are counted once, before the loop; then for
    each line number up to that count, the line that now has this number
    is cut at its first comma and gets [', ' + datatype] at its end.  A
    data type that holds a line break makes the line two lines, and the
    next turn works on the second of them.  Nothing happens for an empty
    data type. *)
Definition cut_at_comma (curLine : str) : str :=
  let k := find comma curLine in
  if (k >=? 0)%Z then firstn (Z.to_nat k) curLine else curLine.

Fixpoint apply_lines (datatype : str) (turns line : nat) (lines : list str)
  : list str :=
  match turns with
  | 0 => lines
  | Datatypes.S turns' =>
      let curLine := nth line lines [] in
      apply_lines datatype turns' (Datatypes.S line)
        (firstn line lines
         ++ split_lines (cut_at_comma curLine ++ lit ", " ++ datatype)
         ++ skipn (Datatypes.S line) lines)
  end.

Definition applyType (g : State) : State :=
  let datatype := dataType g in
  if str_eqb datatype [] then g
  else
    let lineCount := length (createWindow g) in
    set_lines g (apply_lines datatype lineCount 0 (createWindow g)).

(** [createInputFromDirectory]: each chosen file is put at the end of
    the text box, followed by a line break unless it is the last one. *)
Fixpoint insert_files (lines : list str) (files : list str) : list str :=
  match files with
  | [] => lines
  | f :: rest =>
      let text := f ++ match rest with [] => [] | _ :: _ => [newline] end in
      insert_files (removelast lines ++ split_lines (last lines [] ++ text)) rest
  end.

Definition createInputFromDirectory (files : list str) (g : State) : State :=
  set_lines g (insert_files (createWindow g) files).

(** [self.createWindow.get('0.0', tk.END)]: the lines, each followed by a
    line break. *)
Definition text_of (lines : list str) : str :=
  flat_map (fun l => l ++ [newline]) lines.

(** What the user can do, and when: Tab and Shift-Tab are bound to
    [nextOption] and [prevOption] whatever the buttons show; a widget
    of the frame can be used only while it is laid out, and the entry of
    the input file only while it is not disabled by the Create button. *)
Inductive Action :=
| Next
| Prev
| PressCreate
| PickFullPath (yes : bool)
| PickEyecheck (yes : bool)
| Fill (f : Field) (text : str)
| EditText (lines : list str)
| ApplyType
| Generate (files : list str).

Definition field_widget (f : Field) : Widget :=
  match f with
  | FInfile => InfileEntry
  | FOutfile => OutfileEntry
  | FRejectfile => RejectfileEntry
  | FSpectraPath => SpectraPathEntry
  | FSncut => SncutEntry
  | FDataType => CreateFrame
  end.

Definition enabled (g : State) (a : Action) : bool :=
  match a with
  | Next | Prev => true
  | PressCreate => is_shown CreateButton (shown g)
  | PickFullPath yes => is_shown (if yes then FullPathYes else FullPathNo) (shown g)
  | PickEyecheck yes => is_shown (if yes then EyecheckYes else EyecheckNo) (shown g)
  | Fill f _ =>
      is_shown (field_widget f) (shown g)
      && match f with FInfile => negb (createPressed g) | _ => true end
  | EditText _ | ApplyType | Generate _ => is_shown CreateFrame (shown g)
  end.

Definition act (g : State) (a : Action) : State :=
  match a with
  | Next => nextOption g
  | Prev => prevOption g
  | PressCreate => createInputFile g
  | PickFullPath yes => pickFullPath yes g
  | PickEyecheck yes => pickEyecheck yes g
  | Fill f text => set_text g f text
  | EditText lines => set_lines g (flat_map split_lines lines)
  | ApplyType => applyType g
  | Generate files => createInputFromDirectory files g
  end.

Fixpoint run (g : State) (acts : list Action) : option State :=
  match acts with
  | [] => Some g
  | a :: rest => if enabled g a then run (act g a) rest else None
  end.

End Gui.

Section GuiStart.

Context {N : Numeric}.

(** [StartGUI.__init__]: the variables take their values from the options
    dict, the window opens on the first setting. *)
Definition gui_init (options : RawOptions) : Gui.State :=
  Gui.updateGUI
    {| Gui.createPressed := false;
       Gui.infile := match raw_infile options with None => [] | Some f => f end;
       Gui.outfile := raw_outfile options;
       Gui.rejectfile := raw_rejectfile options;
       Gui.fullPath := match raw_fullPath options with
                       | None => 0 | Some b => if b then 1 else 0 end%Z;
       Gui.spectraPath := match raw_spectraPath options with None => [] | Some f => f end;
       Gui.eyecheck := match raw_eyecheck options with
                       | None => 0 | Some b => if b then 1 else 0 end%Z;
       Gui.sncut := match raw_sncut options with
                    | None => []
                    | Some (inl text) => text
                    | Some (inr x) => num_str x
                    end;
       Gui.createWindow := [[]];
       Gui.dataType := [];
       Gui.firstSetting := 0;
       Gui.curSetting := 0;
       Gui.lastSetting := 6;
       Gui.prevEnabled := true;
       Gui.nextEnabled := true;
       Gui.browseEnabled := true;
       Gui.label := lit "Provide an input file";
       Gui.shown := [] |}.

(** A state of the window the user can bring about. *)
Definition gui_reachable (options : RawOptions) (g : Gui.State) : Prop :=
  exists acts, Gui.run (gui_init options) acts = Some g.

End GuiStart.

(** ** Starting [main] from the settings window ([goToMain]) *)

(** The exceptions of the front ends. *)
Inductive front_exn :=
| IndexError
| UnboundName (name : str)
| BadFloat
| EOFError
| SystemExit (message : str)
| SystemExitCode (code : Z).

Inductive outcome (A : Type) :=
| Done (a : A)
| Fails (e : front_exn).

Arguments Done {A} a.
Arguments Fails {A} e.

(** [s[0]] and [s[-1]] *)
Definition first_char (s : str) : outcome ascii :=
  match s with
  | [] => Fails IndexError
  | c :: _ => Done c
  end.

Definition last_char (s : str) : outcome ascii :=
  match rev s with
  | [] => Fails IndexError
  | c :: _ => Done c
  end.

Definition and_then {A B} (x : outcome A) (k : A -> outcome B) : outcome B :=
  match x with
  | Done a => k a
  | Fails e => Fails e
  end.

(** [ext[0] == '.' and ext[1:] != suffix] for [ext = name[-4:]] *)
Definition wrong_extension (name suffix : str) : outcome bool :=
  let ext := last4 name in
  and_then (first_char ext) (fun c =>
    Done (Ascii.eqb c dot && negb (str_eqb (from1 ext) suffix))).

(** [name + ext * (name[-4:] != ext)] *)
Definition with_extension (name ext : str) : str :=
  name ++ times ext (negb (str_eqb (last4 name) ext)).

(** [if path[-1] not in ['\\', '/']: path += '\\'] *)
Definition with_slash (path : str) : outcome str :=
  and_then (last_char path) (fun c =>
    Done (if Ascii.eqb c backslash || Ascii.eqb c slash
          then path else path ++ [backslash])).

Section GoToMain.

Context {N : Numeric} {F : FloatReader}.

(** What [goToMain] ends in: the notice of what is wrong with the input,
    or the start of [main], after writing the manifest typed in the text
    box when there is one. *)
Inductive Launch :=
| Complain (message : str)
| Start (created : option (str * str)) (opts : Options).

Definition msg_line (text : String.string) : str := lit text ++ [newline].

Arguments msg_line text%_string.

Definition check_infile (sys : Sys) (g : Gui.State) : str :=
  if negb (Gui.createPressed g) then
    if str_eqb (Gui.infile g) [] then msg_line "- A spectra list filename was not provided."
    else if negb (isfile sys (Gui.infile g)) then msg_line "- The input file cannot be found."
    else []
  else
    if str_eqb (Gui.text_of (Gui.createWindow g)) [newline]
    then msg_line "- The text field for creating an input file is empty"
    else [].

Definition check_csv (name : str) (empty wrong : str) : outcome str :=
  if str_eqb name [] then Done empty
  else and_then (wrong_extension name (lit "csv")) (fun bad =>
         Done (if bad then wrong else [])).

Definition check_spectraPath (sys : Sys) (g : Gui.State) : str :=
  if (Gui.fullPath g =? 0)%Z then
    if str_eqb (Gui.spectraPath g) [] then msg_line "- A path for the spectra was not provided."
    else if negb (isdir sys (Gui.spectraPath g))
         then msg_line "- The spectra path is not a valid directory."
         else []
  else [].

Definition check_eyecheck (sys : Sys) (g : Gui.State) : str :=
  if (Gui.eyecheck g =? 1)%Z && negb (isfile sys (Gui.outfile g))
  then msg_line "- You cannot skip to eyecheck without an existing output file."
  else [].

Definition check_sncut (g : Gui.State) : str :=
  if (Gui.eyecheck g =? 0)%Z && negb (str_eqb (Gui.sncut g) []) then
    match float_of_str (Gui.sncut g) with
    | Some v => if num_ltb v num_zero
                then msg_line "- The entered S/N cut must be greater than zero."
                else []
    | None => msg_line "- The entered S/N cut is not a valid number."
    end
  else [].

Definition issues_header : str :=
  msg_line "The following issues were found with your input."
  ++ msg_line "Please correct them and try again." ++ [newline].

Definition temp_name (sys : Sys) : str :=
  lit "temp_input_" ++ str_of_Z (now sys) ++ lit ".txt".

Definition goToMain (sys : Sys) (useGUI : option bool) (g : Gui.State) : outcome Launch :=
  let message := check_infile sys g in
  and_then (check_csv (Gui.outfile g)
              (msg_line "- An output filename was not provided.")
              (msg_line "- The output file must be a csv file.")) (fun m_out =>
  let message := message ++ m_out in
  and_then (check_csv (Gui.rejectfile g)
              (msg_line "- A reject filename was not provided.")
              (msg_line "- The reject file must be a csv file.")) (fun m_rej =>
  let message := message ++ m_rej in
  let message := message ++ check_spectraPath sys g in
  let message := message ++ check_eyecheck sys g in
  let message := message ++ check_sncut g in
  if negb (str_eqb message []) then
    Done (Complain (issues_header ++ message))
  else
    let created :=
      if negb (Gui.createPressed g) then None
      else Some (temp_name sys, Gui.text_of (Gui.createWindow g)) in
    let o_infile := match created with
                    | None => Gui.infile g
                    | Some (fname, _) => fname
                    end in
    let o_outfile := with_extension (Gui.outfile g) (lit ".csv") in
    let o_rejectfile := with_extension (Gui.rejectfile g) (lit ".csv") in
    let o_fullPath := (Gui.fullPath g =? 1)%Z in
    let path := times (Gui.spectraPath g) (negb o_fullPath) in
    and_then (if negb (str_eqb path []) then with_slash path else Done path)
      (fun o_spectraPath =>
    let o_eyecheck := (Gui.eyecheck g =? 1)%Z in
    and_then (if o_eyecheck || str_eqb (Gui.sncut g) [] then Done None
              else match float_of_str (Gui.sncut g) with
                   | Some v => Done (Some v)
                   | None => Fails BadFloat
                   end) (fun o_sncut =>
    Done (Start created
            {| infile := o_infile; outfile := o_outfile; rejectfile := o_rejectfile;
               spectraPath := o_spectraPath; eyecheck := o_eyecheck;
               sncut := o_sncut;
               useGUI := match useGUI with Some b => b | None => false end |}))))).

End GoToMain.

Arguments msg_line text%_string.

(** The lines a text file yields when iterated: each up to and with its
    line break, the last one possibly without. *)
Fixpoint file_lines_from (cur : str) (text : str) : list str :=
  match text with
  | [] => match cur with [] => [] | _ :: _ => [rev cur] end
  | c :: r =>
      if Ascii.eqb c newline then rev (c :: cur) :: file_lines_from [] r
      else file_lines_from (c :: cur) r
  end.

Definition file_lines (text : str) : list str := file_lines_from [] text.

(** The environment once the file [name] has been written with [text]. *)
Definition with_file (env : Env) (name text : str) : Env :=
  {| open_r := fun p => if str_eqb p name then inr (file_lines text) else open_r env p;
     removable := removable env |}.

(** ** The command line ([__main__])

    [getopt] gives the options in the order typed, each with its
    argument.  The short and the long name of an option take the same
    branch of the loop, so one constructor stands for both.  The long
    name [sncut] is declared without [=]: [--sncut] comes with the empty
    argument. *)
Inductive Opt :=
| OptHelp
| OptInfile (arg : str)
| OptOutfile (arg : str)
| OptRejectfile (arg : str)
| OptFull
| OptPath (arg : str)
| OptEyecheck
| OptSncut (arg : str)
| OptCmd
| OptGui.

Definition conflict_full_path : str :=
  lit "Cannot supply -f and -p at the same time. Use -h for more info.".

Definition conflict_eyecheck_sncut : str :=
  lit "Flag -s is unnecessary when -e is provided. Use -h for more info.".

Definition conflict_cmd_gui : str :=
  lit "Cannot supply -c and -g at the same time. Use -h for more info.".

Definition is_some {A : Type} (x : option A) : bool :=
  match x with Some _ => true | None => false end.

(** The front end the command line ends in, with the options dict. *)
Inductive Front `{Numeric} :=
| FrontGUI (options : RawOptions)
| FrontCmd (options : RawOptions).

Section CommandLine.

Context {N : Numeric}.

Definition default_options : RawOptions :=
  {| raw_infile := None;
     raw_outfile := lit "PyHammerResults.csv";
     raw_rejectfile := lit "RejectSpectra.csv";
     raw_fullPath := None;
     raw_spectraPath := None;
     raw_eyecheck := None;
     raw_sncut := None;
     raw_useGUI := None |}.

Definition set_path (options : RawOptions) (full : bool) (path : str) : RawOptions :=
  {| raw_infile := raw_infile options;
     raw_outfile := raw_outfile options;
     raw_rejectfile := raw_rejectfile options;
     raw_fullPath := Some full;
     raw_spectraPath := Some path;
     raw_eyecheck := raw_eyecheck options;
     raw_sncut := raw_sncut options;
     raw_useGUI := raw_useGUI options |}.

Definition set_cut (options : RawOptions) (skip : bool) (cut : option (str + num))
  : RawOptions :=
  {| raw_infile := raw_infile options;
     raw_outfile := raw_outfile options;
     raw_rejectfile := raw_rejectfile options;
     raw_fullPath := raw_fullPath options;
     raw_spectraPath := raw_spectraPath options;
     raw_eyecheck := Some skip;
     raw_sncut := cut;
     raw_useGUI := raw_useGUI options |}.

Definition set_useGUI (options : RawOptions) (gui : bool) : RawOptions :=
  {| raw_infile := raw_infile options;
     raw_outfile := raw_outfile options;
     raw_rejectfile := raw_rejectfile options;
     raw_fullPath := raw_fullPath options;
     raw_spectraPath := raw_spectraPath options;
     raw_eyecheck := raw_eyecheck options;
     raw_sncut := raw_sncut options;
     raw_useGUI := Some gui |}.

Definition set_files (options : RawOptions) (inf : option str) (outf rejf : str)
  : RawOptions :=
  {| raw_infile := inf;
     raw_outfile := outf;
     raw_rejectfile := rejf;
     raw_fullPath := raw_fullPath options;
     raw_spectraPath := raw_spectraPath options;
     raw_eyecheck := raw_eyecheck options;
     raw_sncut := raw_sncut options;
     raw_useGUI := raw_useGUI options |}.

(** One turn of the loop over the options: the help ends the program
    with status 0, a conflict ends it with its message. *)
Definition read_option (options : RawOptions) (o : Opt) : outcome RawOptions :=
  match o with
  | OptHelp => Fails (SystemExitCode 0)
  | OptInfile arg =>
      Done (set_files options (Some arg) (raw_outfile options) (raw_rejectfile options))
  | OptOutfile arg =>
      Done (set_files options (raw_infile options) arg (raw_rejectfile options))
  | OptRejectfile arg =>
      Done (set_files options (raw_infile options) (raw_outfile options) arg)
  | OptFull =>
      if is_some (raw_fullPath options) then Fails (SystemExit conflict_full_path)
      else Done (set_path options true [])
  | OptPath arg =>
      if is_some (raw_fullPath options) then Fails (SystemExit conflict_full_path)
      else and_then (with_slash arg) (fun path => Done (set_path options false path))
  | OptEyecheck =>
      if is_some (raw_sncut options) then Fails (SystemExit conflict_eyecheck_sncut)
      else Done (set_cut options true (raw_sncut options))
  | OptSncut arg =>
      match raw_eyecheck options with
      | Some true => Fails (SystemExit conflict_eyecheck_sncut)
      | _ => Done (set_cut options false (Some (inl arg)))
      end
  | OptCmd =>
      if is_some (raw_useGUI options) then Fails (SystemExit conflict_cmd_gui)
      else Done (set_useGUI options false)
  | OptGui =>
      if is_some (raw_useGUI options) then Fails (SystemExit conflict_cmd_gui)
      else Done (set_useGUI options true)
  end.

Fixpoint read_options (options : RawOptions) (opts : list Opt) : outcome RawOptions :=
  match opts with
  | [] => Done options
  | o :: rest => and_then (read_option options o) (fun options => read_options options rest)
  end.

(** The choice of the front end: the settings window unless [-c] was
    given. *)
Definition choose_front (options : RawOptions) : Front :=
  match raw_useGUI options with
  | Some true => FrontGUI options
  | Some false => FrontCmd options
  | None => FrontGUI (set_useGUI options true)
  end.

Definition command_line (opts : list Opt) : outcome Front :=
  and_then (read_options default_options opts) (fun options =>
    Done (choose_front options)).

(** The kinds of option that exclude one another. *)
Definition is_help (o : Opt) : bool :=
  match o with OptHelp => true | _ => false end.

Definition is_path_option (o : Opt) : bool :=
  match o with OptFull | OptPath _ => true | _ => false end.

Definition is_front_option (o : Opt) : bool :=
  match o with OptCmd | OptGui => true | _ => false end.

Definition is_eyecheck_option (o : Opt) : bool :=
  match o with OptEyecheck => true | _ => false end.

Definition is_sncut_option (o : Opt) : bool :=
  match o with OptSncut _ => true | _ => false end.

Definition is_empty_path (o : Opt) : bool :=
  match o with OptPath [] => true | _ => false end.

End CommandLine.

(** ** The questions on the command line ([startCmd])

    The answers the user will type are a list, [input] takes the next
    one and raises EOFError when none is left; what is shown, prompts
    and printed lines, is kept in order. *)
Inductive Said :=
| Asked (prompt : str)
| Printed (text : str).

Module Console.

Definition t (A : Type) : Type := list str -> outcome A * list str * list Said.

Definition say {A : Type} (a : A) : t A := fun answers => (Done a, answers, []).

Definition throw {A : Type} (e : front_exn) : t A := fun answers => (Fails e, answers, []).

Definition next {A B : Type} (c : t A) (k : A -> t B) : t B :=
  fun answers =>
    match c answers with
    | (Done a, rest, said) =>
        let '(r, rest', said') := k a rest in (r, rest', said ++ said')
    | (Fails e, rest, said) => (Fails e, rest, said)
    end.

Definition input (prompt : str) : t str :=
  fun answers =>
    match answers with
    | [] => (Fails EOFError, [], [Asked prompt])
    | a :: rest => (Done a, rest, [Asked prompt])
    end.

Definition of_outcome {A : Type} (x : outcome A) : t A :=
  match x with
  | Done a => say a
  | Fails e => throw e
  end.

(** One round of a [while True] loop that begins with [input]: [break]
    with what was read, [continue] after a printed line, or an
    exception. *)
Inductive round (A : Type) :=
| Break (a : A)
| Continue (text : str)
| Abort (e : front_exn).

Arguments Break {A} a.
Arguments Continue {A} text.
Arguments Abort {A} e.

Fixpoint ask {A : Type} (prompt : str) (body : str -> round A) (answers : list str)
  : outcome A * list str * list Said :=
  match answers with
  | [] => (Fails EOFError, [], [Asked prompt])
  | a :: rest =>
      match body a with
      | Break x => (Done x, rest, [Asked prompt])
      | Continue text =>
          let '(r, rest', said) := ask prompt body rest in
          (r, rest', Asked prompt :: Printed text :: said)
      | Abort e => (Fails e, rest, [Asked prompt])
      end
  end.

End Console.

(** [s.lower()]: only the letters A to Z are changed here; no other
    character becomes [y]. *)
Definition lower_char (c : ascii) : ascii :=
  let n := nat_of_ascii c in
  if (65 <=? n) && (n <=? 90) then chr (n + 32) else c.

Definition lower (s : str) : str := map lower_char s.

Definition is_yes (ans : str) : bool := str_eqb (lower ans) (lit "y").

Definition prompt_infile : str :=
  lit "Please enter the filename which contains the spectra list: ".

Definition prompt_change_outfile : str :=
  lit "The results file is set to PyHammerResults.csv. Do you want to change it? (y/n): ".

Definition prompt_outfile : str := lit "Please enter the filename for the results file: ".

Definition prompt_change_rejectfile : str :=
  lit "The reject file is set to RejectSpectra.csv. Do you want to change it? (y/n): ".

Definition prompt_rejectfile : str := lit "Please enter the filename for the reject file: ".

Definition prompt_fullPath : str :=
  lit "Does your input list give the full path to each spectrum? (y/n): ".

Definition prompt_spectraPath : str := lit "Enter the necessary path for each file: ".

Definition prompt_eyecheck : str :=
  lit "Do you want to skip straight to eye-checking? (y/n): ".

Definition prompt_use_sncut : str :=
  lit "Do you want to supply a S/N cut when auto-classifying? (y/n): ".

Definition prompt_sncut : str := lit "Choose a S/N cutoff (~3-5 recommended): ".

Section StartCmd.

Context {N : Numeric} {F : FloatReader}.

Variable sys : Sys.

(** The body of the loop that asks for the manifest. *)
Definition infile_round (a : str) : Console.round str :=
  match wrong_extension a (lit "txt") with
  | Fails e => Console.Abort e
  | Done true => Console.Continue (lit "The input file must be a text file.")
  | Done false =>
      if negb (isfile sys (with_extension a (lit ".txt")))
      then Console.Continue (lit "The input file cannot be found.")
      else Console.Break a
  end.

(** The bodies of the loops that ask for the results file and the reject
    file: after [input], the assignment to [outfileExt[0]], or
    [rejectExt[0]], looks up a name that was never bound; the lines after
    it are not reached. *)
Definition outfile_round (a : str) : Console.round str :=
  Console.Abort (UnboundName (lit "outfileExt")).

Definition rejectfile_round (a : str) : Console.round str :=
  Console.Abort (UnboundName (lit "rejectExt")).

Definition spectraPath_round (a : str) : Console.round str :=
  if negb (isdir sys a)
  then Console.Continue (lit "The path provided is not a valid directory.")
  else Console.Break a.

(** The body of the loop that asks for the S/N cut: when [float] raises
    its ValueError, the [except] clause looks up the name [Error], which
    is not bound. *)
Definition sncut_round (a : str) : Console.round num :=
  match float_of_str a with
  | Some v => Console.Break v
  | None => Console.Abort (UnboundName (lit "Error"))
  end.

Definition ask_infile (options : RawOptions) : Console.t str :=
  Console.next
    (match raw_infile options with
     | None => Console.ask prompt_infile infile_round
     | Some f => Console.say f
     end)
    (fun f => Console.say (with_extension f (lit ".txt"))).

Definition ask_outfile (options : RawOptions) : Console.t str :=
  Console.next
    (if str_eqb (raw_outfile options) (lit "PyHammerResults.csv") then
       Console.next (Console.input prompt_change_outfile) (fun ans =>
         if is_yes ans then Console.ask prompt_outfile outfile_round
         else Console.say (raw_outfile options))
     else Console.say (raw_outfile options))
    (fun f => Console.say (with_extension f (lit ".csv"))).

Definition ask_rejectfile (options : RawOptions) : Console.t str :=
  Console.next
    (if str_eqb (raw_rejectfile options) (lit "RejectSpectra.csv") then
       Console.next (Console.input prompt_change_rejectfile) (fun ans =>
         if is_yes ans then Console.ask prompt_rejectfile rejectfile_round
         else Console.say (raw_rejectfile options))
     else Console.say (raw_rejectfile options))
    (fun f => Console.say (with_extension f (lit ".csv"))).

Definition ask_path (options : RawOptions) : Console.t (option bool * option str) :=
  match raw_fullPath options with
  | None =>
      Console.next (Console.input prompt_fullPath) (fun ans =>
        if is_yes ans then Console.say (Some true, Some [])
        else
          Console.next (Console.ask prompt_spectraPath spectraPath_round) (fun p =>
          Console.next (Console.of_outcome (with_slash p)) (fun p =>
          Console.say (Some false, Some p))))
  | Some full => Console.say (Some full, raw_spectraPath options)
  end.

Definition ask_eyecheck (options : RawOptions) : Console.t (option bool) :=
  match raw_eyecheck options with
  | None =>
      Console.next (Console.input prompt_eyecheck) (fun ans =>
        Console.say (Some (is_yes ans)))
  | Some skip => Console.say (Some skip)
  end.

Definition ask_sncut (options : RawOptions) (skip : option bool)
  : Console.t (option (str + num)) :=
  match skip, raw_sncut options with
  | Some false, None =>
      Console.next (Console.input prompt_use_sncut) (fun ans =>
        if is_yes ans then
          Console.next (Console.ask prompt_sncut sncut_round) (fun v =>
            Console.say (Some (inr v)))
        else Console.say None)
  | _, cut => Console.say cut
  end.

(** [startCmd], up to its last line: the options dict that [main] is
    called with. *)
Definition startCmd (options : RawOptions) : Console.t RawOptions :=
  Console.next (ask_infile options) (fun inf =>
  Console.next (ask_outfile options) (fun outf =>
  Console.next (ask_rejectfile options) (fun rejf =>
  Console.next (ask_path options) (fun path =>
  Console.next (ask_eyecheck options) (fun skip =>
  Console.next (ask_sncut options skip) (fun cut =>
  Console.say
    {| raw_infile := Some inf;
       raw_outfile := outf;
       raw_rejectfile := rejf;
       raw_fullPath := fst path;
       raw_spectraPath := snd path;
       raw_eyecheck := skip;
       raw_sncut := cut;
       raw_useGUI := raw_useGUI options |})))))).

End StartCmd.

(** A file name the dialog gives that the manifest can carry as it is,
    and a data type that is one word. *)
Definition plain_name (f : str) : Prop :=
  well_spaced true f = true /\ ~ In comma f.

Definition plain_word (t : str) : Prop :=
  no_space t /\ t <> [] /\ ~ In comma t.

(** ** What the theorems are about: invariants and observations *)

(** What every step of the window keeps. *)
Definition gui_inv (g : Gui.State) : Prop :=
  Gui.firstSetting g = 0%Z /\
  (0 <= Gui.curSetting g <= Gui.lastSetting g)%Z /\
  (Gui.lastSetting g = 5 \/ Gui.lastSetting g = 6)%Z /\
  (Gui.fullPath g = 1%Z -> Gui.curSetting g <> 4%Z) /\
  (Gui.eyecheck g = 1%Z -> Gui.curSetting g <> 6%Z) /\
  Gui.prevEnabled g = negb (Gui.curSetting g =? 0)%Z /\
  Gui.shown g = Gui.panel (Gui.curSetting g) (Gui.createPressed g).

(** The flags behind the radio buttons are 0 or 1. *)
Definition gui_flags (g : Gui.State) : Prop :=
  (Gui.fullPath g = 0 \/ Gui.fullPath g = 1)%Z /\
  (Gui.eyecheck g = 0 \/ Gui.eyecheck g = 1)%Z.

Definition is_done {A : Type} (x : outcome A) : bool :=
  match x with Done _ => true | Fails _ => false end.

Section Accepted.

Context {N : Numeric}.

(** The command lines the loop reads to its end when it starts from the
    dict [options]. *)
Definition accepted_from (options : RawOptions) (opts : list Opt) : bool :=
  negb (existsb is_help opts)
  && (length (filter is_path_option opts)
      + (if is_some (raw_fullPath options) then 1 else 0) <=? 1)
  && (length (filter is_front_option opts)
      + (if is_some (raw_useGUI options) then 1 else 0) <=? 1)
  && implb (is_some (raw_sncut options)) (negb (existsb is_eyecheck_option opts))
  && implb (match raw_eyecheck options with Some true => true | _ => false end)
           (negb (existsb is_sncut_option opts))
  && negb (existsb is_eyecheck_option opts && existsb is_sncut_option opts)
  && negb (existsb is_empty_path opts).

(** What the loop over the options keeps true of the dict. *)
Definition path_settled (options : RawOptions) : Prop :=
  match raw_fullPath options, raw_spectraPath options with
  | None, None => True
  | Some true, Some p => p = []
  | Some false, Some p => ends_with [backslash] p = true \/ ends_with [slash] p = true
  | _, _ => False
  end.

Definition cut_settled (options : RawOptions) : Prop :=
  match raw_sncut options with
  | None => True
  | Some (inl _) => raw_eyecheck options = Some false
  | Some (inr _) => False
  end.

End Accepted.

(** The prompts of a run are among [ps]. *)
Definition prompts_within (ps : list str) (said : list Said) : Prop :=
  forall p, In (Asked p) said -> In p ps.

Definition within {A : Type} (ps : list str) (c : Console.t A) : Prop :=
  forall answers, prompts_within ps (snd (c answers)).

(** The answers left after a run are among the answers it began with. *)
Definition forwards {A : Type} (c : Console.t A) : Prop :=
  forall answers y, In y (snd (fst (c answers))) -> In y answers.

(** What a file holds once the strings written to it are on disk, and
    its data rows: the lines of the file after the header line. *)
Section OnDisk.

Context {N : Numeric} {S : Spectrum}.

Definition file_content (h : handle) (l : list Event) : str := concat (written h l).

Definition file_rows (h : handle) (l : list Event) : list str :=
  tl (file_lines (file_content h l)).

End OnDisk.

(** A string that ends with a line break. *)
Definition ends_line (d : str) : Prop := exists b, d = b ++ [newline].

(** A line of the text box with its data type put after it. *)
Definition tagged (datatype curLine : str) : str :=
  Gui.cut_at_comma curLine ++ lit ", " ++ datatype.

(** How many times a prompt was shown. *)
Definition is_prompt (p : str) (e : Said) : bool :=
  match e with
  | Asked q => str_eqb q p
  | Printed _ => false
  end.

Definition times_asked (p : str) (said : list Said) : nat :=
  length (filter (is_prompt p) said).

(** ** Sample instances

    Integers as numbers, and a small Spectrum whose answers are fixed by a
    catalogue; the general results below are tried on them. *)

Definition Z_format (z : Z) : str :=
  (if (z <? 0)%Z then lit "-" else lit "+") ++ str_of_Z (Z.abs z) ++ lit ".0".

Definition Z_numeric : Numeric :=
  {| num := Z; num_ltb := Z.ltb; num_eqb := Z.eqb;
     num_str := str_of_Z; num_format := Z_format |}.

Record Toy := {
  toy_sn : Z;
  toy_rest : bool;
  toy_guess : @Guess Z_numeric
}.

(** The catalogue: the files that load, with their signal-to-noise. *)
Definition catalogue : list (str * Z) :=
  [(lit "star001.fits", 8%Z); (lit "star002.fits", 2%Z); (lit "star003.fits", 5%Z)].

Fixpoint lookup (path : str) (c : list (str * Z)) : option Z :=
  match c with
  | [] => None
  | (p, v) :: r => if str_eqb p path then Some v else lookup path r
  end.

Definition blank_guess : @Guess Z_numeric :=
  @Build_Guess Z_numeric TypeO 0%Z 0%Z.

Definition toy_readFile (path ftype : str) (s : Toy) : (bool * str) * Toy :=
  match lookup path catalogue with
  | Some v => ((true, []), {| toy_sn := v; toy_rest := false; toy_guess := blank_guess |})
  | None => ((false, lit "No such file:" ++ [newline] ++ path ++ [newline]), s)
  end.

Definition toy_guessSpecType (s : Toy) : Toy :=
  {| toy_sn := toy_sn s; toy_rest := toy_rest s;
     toy_guess := if toy_rest s
                  then @Build_Guess Z_numeric TypeM 3%Z (-5)%Z
                  else @Build_Guess Z_numeric TypeK 7%Z 0%Z |}.

Definition toy_findRadialVelocity (s : Toy) : Z * Toy :=
  (match specType (toy_guess s) with TypeK => 42%Z | _ => 0%Z end, s).

Definition toy_shiftToRest (shift : Z) (s : Toy) : Toy :=
  {| toy_sn := toy_sn s; toy_rest := true; toy_guess := toy_guess s |}.

Definition toy_spectrum : @Spectrum Z_numeric :=
  @Build_Spectrum Z_numeric Toy
    toy_readFile
    (fun s => (toy_sn s, s))
    (fun s => s)
    toy_guessSpecType
    toy_findRadialVelocity
    toy_shiftToRest
    toy_guess.

Definition toy_start : Toy :=
  {| toy_sn := 0%Z; toy_rest := false; toy_guess := blank_guess |}.

Definition toy_options (floor : option Z) (manifest : str) : @Options Z_numeric :=
  @Build_Options Z_numeric manifest (lit "PyHammerResults.csv")
    (lit "RejectSpectra.csv") [] false floor false.

(** An environment in which the manifest has the given lines and no other
    file can be opened. *)
Definition toy_env (manifest : str) (lines : list str) : Env :=
  {| open_r := fun p => if str_eqb p manifest then inr lines
                        else inl (lit "[Errno 2] No such file or directory");
     removable := fun _ => false |}.

Definition toy_main (floor : option Z) (manifest : str) (lines : list str) :=
  @main Z_numeric toy_spectrum (toy_options floor manifest)
        (toy_env manifest lines) toy_start.

Definition run_result {A St' E} (x : result A * St' * list E) : result A := fst (fst x).
Definition run_state {A St' E} (x : result A * St' * list E) : St' := snd (fst x).
Definition run_log {A St' E} (x : result A * St' * list E) : list E := snd x.

(** Sample manifests: a mixed one, one whose lines are all rejected, and
    one with a line of a single token. *)
Definition sample_lines : list str :=
  [lit "star001.fits,obs" ++ [newline];
   lit "star002.fits obs" ++ [newline];
   lit "nowhere.fits obs" ++ [newline];
   lit "star003.fits  obs"].

Definition bad_lines : list str :=
  [lit "star002.fits,obs" ++ [newline]; lit "nowhere.fits obs" ++ [newline]].

Definition broken_lines : list str :=
  [lit "star001.fits obs" ++ [newline];
   lit "star002.fits" ++ [newline];
   lit "star003.fits obs" ++ [newline]].

Definition loaded (sn : Z) : Toy :=
  {| toy_sn := sn; toy_rest := false; toy_guess := blank_guess |}.

Definition classified (sn : Z) : Toy :=
  {| toy_sn := sn; toy_rest := true;
     toy_guess := @Build_Guess Z_numeric TypeM 3%Z (-5)%Z |}.

Definition skip_options : @Options Z_numeric :=
  @Build_Options Z_numeric (lit "temp_input_9.txt") (lit "PyHammerResults.csv")
    (lit "RejectSpectra.csv") [] true None true.

(** A reader of whole numbers, for the sample runs of the front ends. *)
Fixpoint digits_value (acc : Z) (s : str) : option Z :=
  match s with
  | [] => Some acc
  | c :: r =>
      let n := nat_of_ascii c in
      if (48 <=? n) && (n <=? 57)
      then digits_value (10 * acc + Z.of_nat (n - 48)) r
      else None
  end.

Definition Z_float (s : str) : option Z :=
  match s with
  | [] => None
  | c :: r =>
      if Ascii.eqb c (chr 45)
      then match r with [] => None | _ :: _ => option_map Z.opp (digits_value 0 r) end
      else digits_value 0 s
  end.

Definition Z_reader : @FloatReader Z_numeric :=
  @Build_FloatReader Z_numeric Z_float 0%Z.

Definition sample_raw : @RawOptions Z_numeric :=
  @Build_RawOptions Z_numeric None (lit "PyHammerResults.csv")
    (lit "RejectSpectra.csv") None None None None (Some true).

(** A system with one directory and no file, at a fixed time. *)
Definition sample_sys : Sys :=
  {| isfile := fun _ => false;
     isdir := fun p => str_eqb p (lit "C:/spectra");
     now := 1700000000%Z |}.

Definition after (acts : list Gui.Action) : Gui.State :=
  match Gui.run (@gui_init Z_numeric sample_raw) acts with
  | Some g => g
  | None => @gui_init Z_numeric sample_raw
  end.

(** The user says the manifest gives full paths and walks on. *)
Definition walk_full_paths : list Gui.Action :=
  [Gui.Next; Gui.Next; Gui.Next; Gui.PickFullPath true; Gui.Next].

(** The user types a manifest, gives the spectra path and an S/N cut. *)
Definition typed_run (lines : list str) : list Gui.Action :=
  [Gui.PressCreate; Gui.EditText lines;
   Gui.Next; Gui.Next; Gui.Next; Gui.Next;
   Gui.Fill Gui.FSpectraPath (lit "C:/spectra");
   Gui.Next; Gui.Next; Gui.Fill Gui.FSncut (lit "5")].

Definition typed_lines : list str := [lit "star001.fits obs"; lit "star002.fits,obs"].

Definition typed_options (name : str) : @Options Z_numeric :=
  @Build_Options Z_numeric name (lit "PyHammerResults.csv") (lit "RejectSpectra.csv")
    (lit "C:/spectra" ++ [backslash]) false (Some 5%Z) true.

Definition nowhere : Env := toy_env (lit "nowhere.txt") [].

(** A command line for the questions, the dict it gives, and a system
    with the manifest [list.txt] and the directory [C:/spectra]. *)
Definition cmd_opts : list Opt :=
  [OptCmd; OptInfile (lit "list.txt"); OptPath (lit "C:/spectra"); OptSncut (lit "3")].

Definition cmd_options : @RawOptions Z_numeric :=
  @Build_RawOptions Z_numeric (Some (lit "list.txt")) (lit "PyHammerResults.csv")
    (lit "RejectSpectra.csv") (Some false) (Some (lit "C:/spectra" ++ [backslash]))
    (Some false) (Some (inl (lit "3"))) (Some false).

Definition cmd_sys : Sys :=
  {| isfile := fun p => str_eqb p (lit "list.txt");
     isdir := fun p => str_eqb p (lit "C:/spectra");
     now := 1700000000%Z |}.

(** The answers of a user who is asked everything, and the dict they
    end in. *)
Definition all_answers : list str :=
  [lit "list"; lit "n"; lit "n"; lit "n"; lit "C:/spectra"; lit "N"; lit "Y"; lit "5"].

Definition asked_options : @RawOptions Z_numeric :=
  @Build_RawOptions Z_numeric (Some (lit "list.txt")) (lit "PyHammerResults.csv")
    (lit "RejectSpectra.csv") (Some false) (Some (lit "C:/spectra" ++ [backslash]))
    (Some false) (Some (inr 5%Z)) None.

(** A dict that leaves only the S/N cut to ask for. *)
Definition cut_options : @RawOptions Z_numeric :=
  @Build_RawOptions Z_numeric (Some (lit "list.txt")) (lit "out.csv")
    (lit "rej.csv") (Some true) (Some []) (Some false) None (Some false).

(** ** The string operations at work *)

Example strip_ex : strip (lit "  a b ,c  ") = lit "a b ,c".
Proof. reflexivity. Qed.

Example split_ex : split (lit " ab   c d ") = [lit "ab"; lit "c"; lit "d"].
Proof. reflexivity. Qed.

Example rsplit1_ex :
  rsplit1 space (lit "my file.fits obs") = [lit "my file.fits"; lit "obs"].
Proof. reflexivity. Qed.

Example rsplit1_single : rsplit1 space (lit "obs") = [lit "obs"].
Proof. reflexivity. Qed.

Example find_ex : find comma (lit "ab,c,") = 2%Z /\ find comma (lit "abc") = (-1)%Z.
Proof. split; reflexivity. Qed.

Example basename_ex :
  basename (lit "/data/run/temp_input_17.txt") = lit "temp_input_17.txt".
Proof. reflexivity. Qed.

Example str_of_Z_ex : str_of_Z 120 = lit "120" /\ str_of_Z (-7) = lit "-7".
Proof. split; reflexivity. Qed.

Example parse_ex :
  parse_line (lit "star001.fits,obs" ++ [newline]) = Ok (lit "star001.fits", lit "obs")
  /\ parse_line (lit "  my  dir/star 1.fits   sdss") = Ok (lit "my dir/star 1.fits", lit "sdss")
  /\ parse_line [newline] = Raise ValueError.
Proof. repeat split; reflexivity. Qed.

(** ** Facts about the string operations *)

Lemma flush_tokens cur k :
  no_space cur ->
  Forall (fun t => no_space t /\ t <> []) k ->
  Forall (fun t => no_space t /\ t <> []) (flush cur k).
Proof.
  intros Hc Hk. destruct cur as [|c cur]; simpl; [exact Hk|].
  constructor; [|exact Hk]. split.
  - change (rev cur ++ [c]) with (rev (c :: cur)). apply Forall_rev. exact Hc.
  - intro E. apply app_eq_nil in E. destruct E as [_ E]. discriminate E.
Qed.

Lemma split_from_tokens s : forall cur,
  no_space cur ->
  Forall (fun t => no_space t /\ t <> []) (split_from cur s).
Proof.
  induction s as [|c r IH]; intros cur Hc; simpl.
  - apply flush_tokens; [exact Hc | constructor].
  - destruct (isspace c) eqn:E.
    + apply flush_tokens; [exact Hc|]. apply IH. constructor.
    + apply IH. constructor; assumption.
Qed.

Lemma split_tokens s : Forall (fun t => no_space t /\ t <> []) (split s).
Proof. apply split_from_tokens. constructor. Qed.

Lemma no_space_not_in t c : isspace c = true -> no_space t -> ~ In c t.
Proof.
  intros Hc Ht Hin. unfold no_space in Ht. rewrite Forall_forall in Ht.
  specialize (Ht c Hin). congruence.
Qed.

Lemma rpartition_none c s : ~ In c s -> rpartition c s = None.
Proof.
  induction s as [|x r IH]; intros H; simpl; [reflexivity|].
  rewrite IH by (intro; apply H; right; assumption).
  destruct (Ascii.eqb x c) eqn:E; [|reflexivity].
  apply Ascii.eqb_eq in E. exfalso. apply H. left. exact E.
Qed.

Lemma rpartition_last c a b :
  ~ In c b -> rpartition c (a ++ c :: b) = Some (a, b).
Proof.
  intros H. induction a as [|x a IH]; simpl.
  - rewrite rpartition_none by exact H. rewrite Ascii.eqb_refl. reflexivity.
  - rewrite IH. reflexivity.
Qed.

Lemma join_snoc sep ts t :
  ts <> [] -> join sep (ts ++ [t]) = join sep ts ++ sep ++ t.
Proof.
  induction ts as [|a ts IH]; intros H; [congruence|].
  destruct ts as [|b ts].
  - reflexivity.
  - change (join sep ((a :: b :: ts) ++ [t]))
      with (a ++ sep ++ join sep ((b :: ts) ++ [t])).
    rewrite IH by discriminate.
    change (join sep (a :: b :: ts)) with (a ++ sep ++ join sep (b :: ts)).
    rewrite <- !app_assoc. reflexivity.
Qed.

Lemma join_not_in c sep ts :
  ~ In c sep -> Forall (fun t => ~ In c t) ts -> ~ In c (join sep ts).
Proof.
  intros Hs. induction 1 as [|t ts Ht Hts IH]; simpl; [tauto|].
  destruct ts as [|b ts]; [exact Ht|].
  rewrite !in_app_iff. tauto.
Qed.

(** What [parse_line] returns, in terms of the tokens of the line. *)
Lemma parse_line_ok line ts t :
  tokens line = ts ++ [t] -> ts <> [] ->
  parse_line line = Ok (join [space] ts, t).
Proof.
  intros E Hts. unfold parse_line. fold (tokens line). rewrite E.
  rewrite join_snoc by exact Hts.
  unfold rsplit1. simpl app. rewrite rpartition_last; [reflexivity|].
  apply no_space_not_in; [reflexivity|].
  pose proof (split_tokens (normalize_commas (strip line))) as F.
  fold (tokens line) in F. rewrite E in F.
  apply Forall_app in F. destruct F as [_ F]. inversion F as [|? ? [H _] _]. exact H.
Qed.

Lemma parse_line_short line :
  length (tokens line) < 2 -> parse_line line = Raise ValueError.
Proof.
  intros H. unfold parse_line. fold (tokens line).
  pose proof (split_tokens (normalize_commas (strip line))) as F.
  fold (tokens line) in F.
  destruct (tokens line) as [|t [|u r]]; simpl in H; [reflexivity| |lia].
  simpl. unfold rsplit1. rewrite rpartition_none; [reflexivity|].
  apply no_space_not_in; [reflexivity|].
  inversion F as [|? ? [Ht _] _]. exact Ht.
Qed.

Lemma parse_line_inv line fname ftype :
  parse_line line = Ok (fname, ftype) ->
  exists ts, ts <> [] /\ tokens line = ts ++ [ftype] /\ fname = join [space] ts.
Proof.
  intros H.
  destruct (le_lt_dec 2 (length (tokens line))) as [L|L].
  - destruct (exists_last (l := tokens line)) as [ts [t E]].
    { intro E. rewrite E in L. simpl in L. lia. }
    assert (Hts : ts <> []).
    { intro E'. rewrite E, E' in L. simpl in L. lia. }
    rewrite (parse_line_ok _ _ _ E Hts) in H. inversion H; subst.
    exists ts. auto.
  - rewrite parse_line_short in H by exact L. discriminate H.
Qed.

Lemma parses_iff line : parses line = true <-> 2 <= length (tokens line).
Proof.
  unfold parses. split.
  - intros H. destruct (le_lt_dec 2 (length (tokens line))) as [L|L]; [exact L|].
    rewrite parse_line_short in H by exact L. discriminate H.
  - intros L. destruct (parse_line line) as [p|e] eqn:E; [reflexivity|].
    destruct (exists_last (l := tokens line)) as [ts [t Et]].
    { intro E'. rewrite E' in L. simpl in L. lia. }
    rewrite (parse_line_ok line ts t) in E; [discriminate E|exact Et|].
    intro E'. rewrite Et, E' in L. simpl in L. lia.
Qed.

(** The path of a parsed line holds no line break. *)
Lemma parse_line_fname_one_line line fname ftype :
  parse_line line = Ok (fname, ftype) -> ~ In newline fname.
Proof.
  intros H. apply parse_line_inv in H. destruct H as [ts [_ [E ->]]].
  apply join_not_in.
  - simpl. intros [H|[]]. discriminate H.
  - pose proof (split_tokens (normalize_commas (strip line))) as F.
    fold (tokens line) in F. rewrite E in F.
    apply Forall_app in F. destruct F as [F _].
    eapply Forall_impl; [|exact F]. intros t [Ht _].
    apply no_space_not_in; [reflexivity|exact Ht].
Qed.

Lemma count_app c a b : count c (a ++ b) = count c a + count c b.
Proof. unfold count. rewrite filter_app, length_app. reflexivity. Qed.

Lemma count_not_in c s : ~ In c s -> count c s = 0.
Proof.
  unfold count. induction s as [|x r IH]; intros H; simpl; [reflexivity|].
  destruct (Ascii.eqb x c) eqn:E.
  - apply Ascii.eqb_eq in E. exfalso. apply H. left. exact E.
  - apply IH. intro. apply H. right. assumption.
Qed.

Lemma remove_all_not_in c s : ~ In c (remove_all c s).
Proof.
  unfold remove_all. intros H. apply filter_In in H. destruct H as [_ H].
  rewrite Ascii.eqb_refl in H. discriminate H.
Qed.

Lemma str_eqb_eq a b : str_eqb a b = true <-> a = b.
Proof.
  unfold str_eqb. destruct (list_eq_dec ascii_dec a b); split; congruence.
Qed.

(** *** Commas and blanks

    Stripping a line and turning its commas into blanks does not change
    its tokens; this is what makes [<path>,<formatTag>] and
    [<path> <formatTag>] parse alike when the comma test succeeds. *)

Lemma split_from_blank ws : blank ws -> forall cur, split_from cur ws = flush cur [].
Proof.
  induction 1 as [|c ws Hc _ IH]; intros cur; simpl; [reflexivity|].
  rewrite Hc, (IH []). reflexivity.
Qed.

Lemma split_blank_prefix ws s : blank ws -> split (ws ++ s) = split s.
Proof.
  unfold split. induction 1 as [|c ws Hc _ IH]; simpl; [reflexivity|].
  rewrite Hc. exact IH.
Qed.

Lemma split_from_blank_suffix ws s : blank ws ->
  forall cur, split_from cur (s ++ ws) = split_from cur s.
Proof.
  intros Hw. induction s as [|c s IH]; intros cur; simpl.
  - apply split_from_blank. exact Hw.
  - destruct (isspace c); rewrite IH; reflexivity.
Qed.

Lemma lstrip_blank s : exists ws, blank ws /\ s = ws ++ lstrip s.
Proof.
  induction s as [|c s [ws [Hw E]]]; simpl.
  - exists []. split; [constructor|reflexivity].
  - destruct (isspace c) eqn:Hc.
    + exists (c :: ws). split; [constructor; assumption|]. simpl. congruence.
    + exists []. split; [constructor|reflexivity].
Qed.

Lemma rstrip_blank s : exists ws, blank ws /\ s = rstrip s ++ ws.
Proof.
  unfold rstrip. destruct (lstrip_blank (rev s)) as [ws [Hw E]].
  exists (rev ws). split; [apply Forall_rev; exact Hw|].
  rewrite <- rev_app_distr, <- E, rev_involutive. reflexivity.
Qed.

Lemma strip_blank s :
  exists a b, blank a /\ blank b /\ s = a ++ strip s ++ b.
Proof.
  destruct (lstrip_blank s) as [a [Ha Ea]].
  destruct (rstrip_blank (lstrip s)) as [b [Hb Eb]].
  exists a, b. split; [exact Ha|]. split; [exact Hb|].
  unfold strip. rewrite <- Eb. exact Ea.
Qed.

Lemma replace_blank ws : blank ws -> replace comma space ws = ws.
Proof.
  unfold replace. induction 1 as [|c ws Hc _ IH]; simpl; [reflexivity|].
  rewrite IH. destruct (Ascii.eqb c comma) eqn:E; [|reflexivity].
  apply Ascii.eqb_eq in E. subst c. discriminate Hc.
Qed.

Lemma replace_app a b (x y : str) :
  replace a b (x ++ y) = replace a b x ++ replace a b y.
Proof. unfold replace. apply map_app. Qed.

Lemma split_replace_strip s :
  split (replace comma space (strip s)) = split (replace comma space s).
Proof.
  destruct (strip_blank s) as [a [b [Ha [Hb E]]]].
  rewrite E at 2. rewrite !replace_app, (replace_blank _ Ha), (replace_blank _ Hb).
  rewrite (split_blank_prefix _ _ Ha). unfold split.
  rewrite (split_from_blank_suffix _ _ Hb). reflexivity.
Qed.

Lemma find_range c s : (find c s = -1 \/ 0 <= find c s)%Z.
Proof.
  induction s as [|x s IH]; simpl; [left; reflexivity|].
  destruct (Ascii.eqb x c); [right; lia|].
  destruct (Z.ltb_spec (find c s) 0); [left; reflexivity|right; lia].
Qed.

Lemma find_none c s : find c s = (-1)%Z -> replace c space s = s.
Proof.
  unfold replace. induction s as [|x s IH]; simpl; [reflexivity|].
  destruct (Ascii.eqb x c); [discriminate|].
  destruct (Z.ltb_spec (find c s) 0) as [L|L]; intros H; [|lia].
  rewrite IH; [reflexivity|]. destruct (find_range c s); lia.
Qed.

Lemma find_zero c s : find c s = 0%Z <-> hd_error s = Some c.
Proof.
  destruct s as [|x s]; simpl; [split; discriminate|].
  destruct (Ascii.eqb x c) eqn:E.
  - apply Ascii.eqb_eq in E. subst x. split; reflexivity.
  - apply Ascii.eqb_neq in E. split.
    + destruct (Z.ltb_spec (find c s) 0); [discriminate|].
      destruct (find_range c s); lia.
    + intros H. inversion H. congruence.
Qed.

(** The tokens of a line whose first non-blank character is not a comma
    are those of the line with every comma turned into a blank. *)
Lemma tokens_replace line :
  find comma (strip line) <> 0%Z ->
  tokens line = split (replace comma space line).
Proof.
  intros H. unfold tokens, normalize_commas.
  destruct (Z.gtb_spec (find comma (strip line)) 0) as [G|G].
  - apply split_replace_strip.
  - rewrite <- split_replace_strip. rewrite find_none; [reflexivity|].
    destruct (find_range comma (strip line)); lia.
Qed.

Lemma lstrip_snoc l c : isspace c = false -> lstrip (l ++ [c]) = lstrip l ++ [c].
Proof.
  intros Hc. induction l as [|x l IH]; simpl.
  - rewrite Hc. reflexivity.
  - destruct (isspace x); [exact IH|reflexivity].
Qed.

Lemma strip_head s : hd_error (strip s) = hd_error (lstrip s).
Proof.
  unfold strip. destruct (lstrip_blank s) as [ws [_ E]].
  assert (H : lstrip s = [] \/ exists c r, lstrip s = c :: r /\ isspace c = false).
  { clear. induction s as [|c s IH]; simpl; [left; reflexivity|].
    destruct (isspace c) eqn:Hc; [exact IH|]. right. exists c, s. auto. }
  destruct H as [-> | [c [r [-> Hc]]]]; [reflexivity|].
  unfold rstrip. simpl rev. rewrite lstrip_snoc by exact Hc.
  rewrite rev_app_distr. reflexivity.
Qed.

Lemma lstrip_head_comma p t :
  hd_error (lstrip (p ++ space :: t)) = Some comma ->
  hd_error (lstrip (p ++ comma :: t)) = Some comma.
Proof.
  induction p as [|c p IH]; simpl; [reflexivity|].
  destruct (isspace c); [exact IH|auto].
Qed.

(** A line [<path>,<formatTag>] parses as [<path> <formatTag>] does,
    provided the comma test of the parser succeeds on it, that is, its
    first non-blank character is not a comma. *)
Lemma comma_line_as_blank_line p t :
  (find comma (strip (p ++ comma :: t)) > 0)%Z ->
  parse_line (p ++ comma :: t) = parse_line (p ++ space :: t).
Proof.
  intros H.
  assert (E : tokens (p ++ comma :: t) = tokens (p ++ space :: t)).
  { rewrite !tokens_replace.
    - rewrite !replace_app. reflexivity.
    - intros Z. apply find_zero in Z. rewrite strip_head in Z.
      apply lstrip_head_comma in Z. rewrite <- strip_head in Z.
      apply find_zero in Z. lia.
    - lia. }
  unfold parse_line. fold (tokens (p ++ comma :: t)). fold (tokens (p ++ space :: t)).
  rewrite E. reflexivity.
Qed.

(** ** The pipeline, turn by turn *)

Section Results.

Context {N : Numeric} {S : Spectrum}.

Ltac run := unfold bind, ret, raise, lift, write, close, print, notifyUser,
  call_readFile, call_calcSN, call_normalizeFlux, call_guessSpecType,
  call_findRadialVelocity, call_shiftToRest, get_guess, emit.

Lemma classify_run fname s :
  classify fname s = (Ok tt, pass_state s, pass_log fname s).
Proof.
  unfold classify, pass_log, two_pass, pass_state, pass_shift. run.
  destruct (findRadialVelocity (guessSpecType (normalizeFlux s))) as [shift s3].
  reflexivity.
Qed.

Lemma process_line_turn opts i line msg s :
  turn opts i line msg s (process_line opts i line msg s).
Proof.
  destruct (parse_line line) as [[fname ftype]|e] eqn:P.
  - destruct (readFile (spectraPath opts ++ fname) ftype s) as [[success message] s1] eqn:R.
    destruct success.
    + destruct (sncut opts) as [cut|] eqn:C.
      * destruct (calcSN s1) as [snVal s2] eqn:V.
        destruct (num_ltb snVal cut) eqn:B.
        -- replace (process_line opts i line msg s) with
             (Ok (msg ++ sn_reason fname snVal cut), s2,
              preface opts i fname ftype
              ++ [EvCall CalcSN; EvWrite Rejectfile (reject_row fname ftype (num_str snVal))]).
           ++ eapply turn_below_floor; eassumption.
           ++ unfold process_line. run. rewrite P. cbn -[classify]. rewrite R, C.
              cbn -[classify]. rewrite V, B. reflexivity.
        -- replace (process_line opts i line msg s) with
             (Ok msg, pass_state s2,
              preface opts i fname ftype ++ [EvCall CalcSN] ++ pass_log fname s2).
           ++ eapply turn_accept_floor; eassumption.
           ++ unfold process_line. run. rewrite P. cbn -[classify]. rewrite R, C.
              cbn -[classify]. rewrite V, B. rewrite classify_run. reflexivity.
      * replace (process_line opts i line msg s) with
          (Ok msg, pass_state s1, preface opts i fname ftype ++ pass_log fname s1).
        -- eapply turn_accept_no_floor; eassumption.
        -- unfold process_line. run. rewrite P. cbn -[classify]. rewrite R, C.
           cbn -[classify]. rewrite classify_run. reflexivity.
    + replace (process_line opts i line msg s) with
        (Ok (msg ++ load_reason fname message), s1,
         preface opts i fname ftype
         ++ [EvWrite Rejectfile (reject_row fname ftype (lit "N/A"))]).
      * eapply turn_load_failure; eassumption.
      * unfold process_line. run. rewrite P. cbn -[classify]. rewrite R. reflexivity.
  - replace (process_line opts i line msg s) with (@Raise str e, s, @nil Event).
    + apply turn_unparsed. exact P.
    + unfold process_line. run. rewrite P. reflexivity.
Qed.

(** *** Reading logs piece by piece *)

Lemma written_app h (a b : list Event) :
  written h (a ++ b) = written h a ++ written h b.
Proof.
  induction a as [|e a IH]; [reflexivity|].
  destruct e; simpl; try exact IH.
  destruct (handle_eqb h h0); simpl; rewrite IH; reflexivity.
Qed.

Lemma calls_app (a b : list Event) : calls (a ++ b) = calls a ++ calls b.
Proof.
  induction a as [|e a IH]; [reflexivity|].
  destruct e; simpl; rewrite ?IH; reflexivity.
Qed.

Lemma is_open_app h (a b : list Event) : forall before,
  is_open h before (a ++ b) = is_open h (is_open h before a) b.
Proof.
  induction a as [|e a IH]; intros before; [reflexivity|].
  destruct e; simpl; apply IH.
Qed.

Lemma is_open_quiet h (l : list Event) : forall before,
  forallb quiet l = true -> is_open h before l = before.
Proof.
  induction l as [|e l IH]; intros before H; [reflexivity|].
  simpl in H. apply andb_true_iff in H. destruct H as [He Hl].
  destruct e; simpl in *; try discriminate He; apply IH; exact Hl.
Qed.

Lemma parse_line_raise line e : parse_line line = Raise e -> e = ValueError.
Proof.
  unfold parse_line, unpack2. intros H.
  destruct (rsplit1 _ _) as [|a [|b [|c r]]]; congruence.
Qed.

Lemma count_load_reason fname message :
  ~ In newline fname -> count newline (load_reason fname message) = 1.
Proof.
  intros H. unfold load_reason. rewrite !count_app.
  rewrite (count_not_in _ _ H).
  rewrite (count_not_in _ _ (remove_all_not_in newline message)).
  reflexivity.
Qed.

Lemma count_sn_reason fname snVal cut :
  str_one_line -> ~ In newline fname ->
  count newline (sn_reason fname snVal cut) = 1.
Proof.
  intros L H. unfold sn_reason. rewrite !count_app.
  rewrite (count_not_in _ _ H), !(count_not_in _ _ (L _)).
  reflexivity.
Qed.

(** *** What one turn leaves behind *)

Lemma turn_quiet opts i line msg s r s' l :
  turn opts i line msg s (r, s', l) -> forallb quiet l = true.
Proof. intros T. inversion T; subst; reflexivity. Qed.

Lemma turn_raise opts i line msg s e s' l :
  turn opts i line msg s (Raise e, s', l) ->
  e = ValueError /\ parses line = false /\ l = [].
Proof.
  intros T. inversion T; subst. unfold parses.
  match goal with H : parse_line _ = Raise _ |- _ =>
    rewrite H; apply parse_line_raise in H; auto end.
Qed.

(** A turn that ends writes one row: to the reject file, adding one entry
    to the message, or to the result file, leaving the message alone. *)
Lemma turn_ok opts i line msg s m s' l :
  turn opts i line msg s (Ok m, s', l) ->
  parses line = true /\
  ((written Outfile l = [] /\ (exists row, written Rejectfile l = [row]) /\
    exists entry, m = msg ++ entry /\ entry <> [] /\
                  (str_one_line -> count newline entry = 1))
   \/ (written Rejectfile l = [] /\ (exists row, written Outfile l = [row]) /\ m = msg)).
Proof.
  intros T. inversion T; subst;
    match goal with H : parse_line _ = Ok _ |- _ =>
      pose proof (parse_line_fname_one_line _ _ _ H) as Hf;
      unfold parses; rewrite H end;
    (split; [reflexivity|]).
  - left. split; [reflexivity|]. split; [eexists; reflexivity|].
    eexists. split; [reflexivity|]. split; [discriminate|].
    intros _. apply count_load_reason. exact Hf.
  - left. split; [reflexivity|]. split; [eexists; reflexivity|].
    eexists. split; [reflexivity|]. split; [discriminate|].
    intros L. apply count_sn_reason; assumption.
  - right. split; [reflexivity|]. split; [eexists; reflexivity|]. reflexivity.
  - right. split; [reflexivity|]. split; [eexists; reflexivity|]. reflexivity.
Qed.

(** *** The loop *)

Lemma loop_cons opts i line rest msg last s :
  loop opts i (line :: rest) msg last s =
  match process_line opts i line msg s with
  | (Ok m, s1, l1) =>
      match loop opts (Datatypes.S i) rest m (Some i) s1 with
      | (r, s2, l2) => (r, s2, l1 ++ l2)
      end
  | (Raise e, s1, l1) => (Raise e, s1, l1)
  end.
Proof. reflexivity. Qed.

Lemma loop_quiet opts lines : forall i msg last s r s' l,
  loop opts i lines msg last s = (r, s', l) -> forallb quiet l = true.
Proof.
  induction lines as [|line rest IH]; intros i msg last s r s' l H.
  - inversion H. reflexivity.
  - rewrite loop_cons in H.
    pose proof (process_line_turn opts i line msg s) as T.
    destruct (process_line opts i line msg s) as [[[m|e] s1] l1].
    + destruct (loop opts (Datatypes.S i) rest m (Some i) s1) as [[r2 s2] l2] eqn:E.
      inversion H; subst. rewrite forallb_app.
      rewrite (turn_quiet _ _ _ _ _ _ _ _ T), (IH _ _ _ _ _ _ _ E). reflexivity.
    + inversion H; subst. exact (turn_quiet _ _ _ _ _ _ _ _ T).
Qed.

(** Every line the loop gets through leaves exactly one row. *)
Lemma loop_rows opts lines : forall i msg last s r s' l,
  loop opts i lines msg last s = (r, s', l) ->
  length (written Outfile l) + length (written Rejectfile l)
  = length (parsed_prefix lines).
Proof.
  induction lines as [|line rest IH]; intros i msg last s r s' l H.
  - inversion H. reflexivity.
  - rewrite loop_cons in H.
    pose proof (process_line_turn opts i line msg s) as T.
    destruct (process_line opts i line msg s) as [[[m|e] s1] l1].
    + destruct (loop opts (Datatypes.S i) rest m (Some i) s1) as [[r2 s2] l2] eqn:E.
      inversion H; subst. apply IH in E.
      apply turn_ok in T. destruct T as [P T]. simpl. rewrite P. simpl.
      rewrite !written_app, !length_app.
      destruct T as [[O [[row R] _]]|[R [[row O] _]]]; rewrite O, R; simpl; lia.
    + inversion H; subst. apply turn_raise in T. destruct T as [_ [P ->]].
      simpl. rewrite P. reflexivity.
Qed.

(** The loop ends normally exactly when every line parses; [i] is then
    the index of the last line, and the message has grown by one entry
    for each reject row. *)
Lemma loop_ok opts lines : forall i msg last m last' s s' l,
  loop opts i lines msg last s = (Ok (m, last'), s', l) ->
  parsed_prefix lines = lines /\
  last' = match lines with
          | [] => last
          | _ :: _ => Some (i + length lines - 1)
          end /\
  exists tail, m = msg ++ tail /\
               (written Rejectfile l = [] -> tail = []) /\
               (written Rejectfile l <> [] -> tail <> []) /\
               (str_one_line -> count newline tail = length (written Rejectfile l)).
Proof.
  induction lines as [|line rest IH]; intros i msg last m last' s s' l H.
  - inversion H; subst. split; [reflexivity|]. split; [reflexivity|].
    exists []. rewrite app_nil_r. repeat split; auto.
  - rewrite loop_cons in H.
    pose proof (process_line_turn opts i line msg s) as T.
    destruct (process_line opts i line msg s) as [[[m1|e] s1] l1]; [|discriminate H].
    destruct (loop opts (Datatypes.S i) rest m1 (Some i) s1) as [[r2 s2] l2] eqn:E.
    inversion H; subst. apply IH in E.
    destruct E as [PP [L [tail [-> [Z [NZ C]]]]]].
    apply turn_ok in T. destruct T as [P T].
    split; [simpl; rewrite P, PP; reflexivity|].
    split.
    { rewrite L. destruct rest; simpl; f_equal; lia. }
    rewrite written_app.
    destruct T as [[_ [[row R] [entry [-> [NE C1]]]]]|[R [_ ->]]]; rewrite R.
    + exists (entry ++ tail). rewrite app_assoc. split; [reflexivity|].
      split; [discriminate|]. split.
      * intros _ E. apply app_eq_nil in E. destruct E as [E _]. exact (NE E).
      * intros SL. rewrite count_app, (C1 SL), (C SL). reflexivity.
    + exists tail. simpl. auto.
Qed.

Lemma loop_raise opts lines : forall i msg last e s s' l,
  loop opts i lines msg last s = (Raise e, s', l) ->
  e = ValueError /\ length (parsed_prefix lines) < length lines.
Proof.
  induction lines as [|line rest IH]; intros i msg last e s s' l H.
  - discriminate H.
  - rewrite loop_cons in H.
    pose proof (process_line_turn opts i line msg s) as T.
    destruct (process_line opts i line msg s) as [[[m1|e1] s1] l1].
    + destruct (loop opts (Datatypes.S i) rest m1 (Some i) s1) as [[r2 s2] l2] eqn:E.
      inversion H; subst. apply IH in E. destruct E as [-> L].
      apply turn_ok in T. destruct T as [P _].
      split; [reflexivity|]. simpl. rewrite P. simpl. lia.
    + inversion H; subst. apply turn_raise in T. destruct T as [-> [P _]].
      split; [reflexivity|]. simpl. rewrite P. simpl. lia.
Qed.

Lemma parsed_prefix_all lines :
  forallb parses lines = true -> parsed_prefix lines = lines.
Proof.
  induction lines as [|line rest IH]; intros H; [reflexivity|].
  simpl in *. apply andb_true_iff in H. destruct H as [P H].
  rewrite P, (IH H). reflexivity.
Qed.

(** A line that parses never makes its turn raise. *)
Lemma parsed_line_completes opts i line msg s :
  parses line = true ->
  exists m s' l, process_line opts i line msg s = (Ok m, s', l).
Proof.
  intros P. pose proof (process_line_turn opts i line msg s) as T.
  destruct (process_line opts i line msg s) as [[[m|e] s'] l]; [eauto|].
  apply turn_raise in T. destruct T as [_ [Q _]]. congruence.
Qed.

(** When every line parses the loop does end normally. *)
Lemma loop_total opts lines i msg last s :
  forallb parses lines = true ->
  exists m last' s' l, loop opts i lines msg last s = (Ok (m, last'), s', l).
Proof.
  intros H.
  destruct (loop opts i lines msg last s) as [[[[m last']|e] s'] l] eqn:E.
  - eauto.
  - apply loop_raise in E. destruct E as [_ L].
    rewrite (parsed_prefix_all _ H) in L. lia.
Qed.

(** *** The whole of [main] *)

Lemma cleanup_run opts env s :
  (temp_named opts = true -> can_remove env (infile opts) = true) ->
  cleanup opts env s = (Ok tt, s, cleanup_log opts).
Proof.
  unfold cleanup, cleanup_log, remove. fold (temp_named opts). intros H.
  destruct (temp_named opts); [|reflexivity].
  rewrite (H eq_refl). reflexivity.
Qed.

Lemma can_remove_opened opts env lines :
  open_r env (infile opts) = inr lines ->
  temp_named opts = true -> can_remove env (infile opts) = true.
Proof. intros Op _. unfold can_remove. rewrite Op. reflexivity. Qed.

Lemma review_run opts env s :
  (temp_named opts = true -> can_remove env (infile opts) = true) ->
  review opts env s = (Ok tt, s, EvEyecheck :: cleanup_log opts).
Proof. intros H. unfold review. run. rewrite (cleanup_run _ _ _ H). reflexivity. Qed.

Lemma main_finish opts env s : finish opts env s (main opts env s).
Proof.
  destruct (eyecheck opts) eqn:Ey.
  - destruct (temp_named opts) eqn:Tn; [destruct (can_remove env (infile opts)) eqn:Cr|].
    + replace (main opts env s) with (@Ok unit tt, s, EvEyecheck :: cleanup_log opts).
      * apply finish_skip; [exact Ey|intros _; exact Cr].
      * unfold main. rewrite Ey. simpl. rewrite review_run; [reflexivity|intros _; exact Cr].
    + replace (main opts env s) with (@Raise unit OSError, s, [EvEyecheck]).
      * apply finish_skip_missing; assumption.
      * unfold main. rewrite Ey. simpl. unfold review, cleanup, remove. run.
        rewrite Tn, Cr. reflexivity.
    + replace (main opts env s) with (@Ok unit tt, s, EvEyecheck :: cleanup_log opts).
      * apply finish_skip; [exact Ey|congruence].
      * unfold main. rewrite Ey. simpl. rewrite review_run; [reflexivity|congruence].
  - destruct (open_r env (infile opts)) as [e|lines] eqn:Op.
    + replace (main opts env s) with (@Ok unit tt, s, [EvNotify (useGUI opts) e]).
      * apply finish_no_manifest; assumption.
      * unfold main. rewrite Ey, Op. reflexivity.
    + destruct (loop opts 0 lines [] None s) as [[[[m last]|e] s1] ll] eqn:Lp.
      * destruct (str_eqb m []) eqn:Em.
        -- apply str_eqb_eq in Em. subst m.
           replace (main opts env s) with
             (@Ok unit tt, s1,
              opening opts ++ ll ++ closing ++ EvEyecheck :: cleanup_log opts).
           ++ eapply finish_none_rejected; eassumption.
           ++ unfold main. rewrite Ey, Op. run. cbn -[loop review]. rewrite Lp.
              cbn -[review]. rewrite (review_run _ _ _ (can_remove_opened _ _ _ Op)).
              reflexivity.
        -- assert (Hm : m <> []).
           { intro E. subst m. discriminate Em. }
           destruct last as [i|].
           ++ destruct (Nat.eq_dec (count newline (preamble ++ m)) (i + 4)) as [C|C].
              ** replace (main opts env s) with
                   (@Ok unit tt, s1,
                    opening opts ++ ll ++ closing
                    ++ EvNotify (useGUI opts) (preamble ++ m)
                       :: EvNotify (useGUI opts) all_bad :: cleanup_log opts).
                 --- eapply finish_all_rejected; eassumption.
                 --- unfold main. rewrite Ey, Op. run. cbn -[loop review cleanup preamble count newline].
                     rewrite Lp. cbn -[review cleanup preamble count newline]. rewrite Em.
                     cbn -[review cleanup preamble count newline].
                     apply Nat.eqb_eq in C. rewrite C.
                     rewrite (cleanup_run _ _ _ (can_remove_opened _ _ _ Op)). reflexivity.
              ** replace (main opts env s) with
                   (@Ok unit tt, s1,
                    opening opts ++ ll ++ closing
                    ++ EvNotify (useGUI opts) (preamble ++ m)
                       :: EvEyecheck :: cleanup_log opts).
                 --- eapply finish_review; eassumption.
                 --- unfold main. rewrite Ey, Op. run. cbn -[loop review cleanup preamble count newline].
                     rewrite Lp. cbn -[review cleanup preamble count newline]. rewrite Em.
                     cbn -[review cleanup preamble count newline].
                     apply Nat.eqb_neq in C. rewrite C.
                     rewrite (review_run _ _ _ (can_remove_opened _ _ _ Op)). reflexivity.
           ++ replace (main opts env s) with
                (@Raise unit NameError, s1,
                 opening opts ++ ll ++ closing ++ [EvNotify (useGUI opts) (preamble ++ m)]).
              ** eapply finish_unbound; eassumption.
              ** unfold main. rewrite Ey, Op. run. cbn -[loop review cleanup preamble count newline].
                 rewrite Lp. cbn -[review cleanup preamble count newline]. rewrite Em.
                 reflexivity.
      * replace (main opts env s) with (@Raise unit e, s1, opening opts ++ ll).
        -- eapply finish_raised; eassumption.
        -- unfold main. rewrite Ey, Op. run. cbn -[loop review]. rewrite Lp.
           reflexivity.
Qed.

(** *** Small facts used for the results below *)

Ltac same :=
  repeat match goal with
  | H1 : ?x = _, H2 : ?x = _ |- _ => rewrite H1 in H2; inversion H2; subst; clear H2
  end.

Lemma written_cleanup h opts : written h (cleanup_log opts) = [].
Proof. unfold cleanup_log. destruct (str_eqb _ _); reflexivity. Qed.

Lemma calls_cleanup opts : calls (cleanup_log opts) = [].
Proof. unfold cleanup_log. destruct (str_eqb _ _); reflexivity. Qed.

Lemma is_open_cleanup h opts before : is_open h before (cleanup_log opts) = before.
Proof. unfold cleanup_log. destruct (str_eqb _ _); reflexivity. Qed.

Lemma eyecheck_cleanup opts : existsb is_eyecheck (cleanup_log opts) = false.
Proof. unfold cleanup_log. destruct (str_eqb _ _); reflexivity. Qed.

Lemma eyecheck_quiet (l : list Event) :
  forallb quiet l = true -> existsb is_eyecheck l = false.
Proof.
  induction l as [|e l IH]; intros H; [reflexivity|].
  simpl in H. apply andb_true_iff in H. destruct H as [He Hl].
  simpl. rewrite (IH Hl). destruct e; try reflexivity; discriminate He.
Qed.

Lemma eyecheck_in (l : list Event) :
  In EvEyecheck l <-> existsb is_eyecheck l = true.
Proof.
  rewrite existsb_exists. split.
  - intros H. exists EvEyecheck. auto.
  - intros [e [H E]]. destruct e; try discriminate E. exact H.
Qed.

(** The place of an event that occurs once. *)
Lemma split_at_unique (x : Event) : forall a b l1 l2,
  a ++ x :: b = l1 ++ x :: l2 -> ~ In x a -> ~ In x b -> l1 = a.
Proof.
  induction a as [|y a IH]; intros b l1 l2 E Ha Hb.
  - destruct l1 as [|z l1]; [reflexivity|].
    simpl in E. inversion E; subst. exfalso. apply Hb.
    apply in_or_app. right. left. reflexivity.
  - destruct l1 as [|z l1]; simpl in E; inversion E; subst.
    + exfalso. apply Ha. left. reflexivity.
    + f_equal. eapply IH; [eassumption| |exact Hb].
      intro. apply Ha. right. assumption.
Qed.

Lemma loop_no_floor opts lines : sncut opts = None ->
  forall i msg last s r s' l,
  loop opts i lines msg last s = (r, s', l) ->
  filter is_calcSN (calls l) = [] /\ Forall na_row (written Rejectfile l).
Proof.
  intros NF. induction lines as [|line rest IH]; intros i msg last s r s' l H.
  - inversion H. split; [reflexivity|constructor].
  - rewrite loop_cons in H.
    pose proof (process_line_turn opts i line msg s) as T.
    assert (T1 : forall r1 s1 l1, process_line opts i line msg s = (r1, s1, l1) ->
                 filter is_calcSN (calls l1) = [] /\ Forall na_row (written Rejectfile l1)).
    { intros r1 s1 l1 E. rewrite E in T. inversion T; subst; try congruence.
      - split; [reflexivity|constructor].
      - split; [reflexivity|]. simpl. constructor; [|constructor].
        exists fname, ftype. reflexivity.
      - split; [reflexivity|constructor]. }
    destruct (process_line opts i line msg s) as [[[m|e] s1] l1].
    + destruct (loop opts (Datatypes.S i) rest m (Some i) s1) as [[r2 s2] l2] eqn:E.
      inversion H; subst. apply IH in E. destruct E as [C2 R2].
      destruct (T1 _ _ _ eq_refl) as [C1 R1].
      rewrite calls_app, filter_app, written_app, C1, C2.
      split; [reflexivity|]. apply Forall_app. split; assumption.
    + inversion H; subst. exact (T1 _ _ _ eq_refl).
Qed.

(** ** Results *)

(** C9.  When the manifest cannot be opened, [main] tells the user and
    returns: the log holds the notification and nothing else, so neither
    output file was opened, truncated or written, no method of the
    Spectrum object was called and the review was not started; the object
    is as it was. *)
Theorem manifest_open_failure opts env s e :
  eyecheck opts = false ->
  open_r env (infile opts) = inl e ->
  main opts env s = (Ok tt, s, [EvNotify (useGUI opts) e]).
Proof.
  intros Ey Op. pose proof (main_finish opts env s) as F.
  inversion F; subst; congruence.
Qed.

(** C7.  A spectrum that loads and whose signal-to-noise is below the
    configured floor gets the reject row [fname,ftype,<measured value>],
    one entry in the reject message that cites the comparison, and
    nothing else: after [calcSN] no further method is called and the
    result file is not written. *)
Theorem below_floor_rejected opts i line msg s fname ftype message s1 cut snVal s2 :
  parse_line line = Ok (fname, ftype) ->
  readFile (spectraPath opts ++ fname) ftype s = ((true, message), s1) ->
  sncut opts = Some cut ->
  calcSN s1 = (snVal, s2) ->
  num_ltb snVal cut = true ->
  process_line opts i line msg s =
    (Ok (msg ++ lit "FILE: " ++ fname ++ lit "  REASON: S/N = " ++ num_str snVal
         ++ lit " < " ++ num_str cut ++ [newline]),
     s2,
     [EvPrint (str_of_Z (Z.of_nat i + 1) ++ lit ") Processing " ++ basename fname);
      EvCall (ReadFile (spectraPath opts ++ fname) ftype);
      EvCall CalcSN;
      EvWrite Rejectfile (fname ++ [comma] ++ ftype ++ [comma] ++ num_str snVal ++ [newline])]).
Proof.
  intros P R C V B. pose proof (process_line_turn opts i line msg s) as T.
  inversion T; subst; same; try congruence.
  reflexivity.
Qed.

(** C10.  The comparison with the floor is strict: a spectrum whose
    signal-to-noise equals the floor is not rejected; it goes through
    normalization and both classification passes and gets a row in the
    result file. *)
Theorem at_floor_accepted (E : eq_not_lt)
    opts i line msg s fname ftype message s1 cut snVal s2 :
  parse_line line = Ok (fname, ftype) ->
  readFile (spectraPath opts ++ fname) ftype s = ((true, message), s1) ->
  sncut opts = Some cut ->
  calcSN s1 = (snVal, s2) ->
  num_eqb snVal cut = true ->
  let s3 := guessSpecType (normalizeFlux s2) in
  let shift := fst (findRadialVelocity s3) in
  let s5 := guessSpecType (shiftToRest shift (snd (findRadialVelocity s3))) in
  process_line opts i line msg s =
    (Ok msg, s5,
     [EvPrint (str_of_Z (Z.of_nat i + 1) ++ lit ") Processing " ++ basename fname);
      EvCall (ReadFile (spectraPath opts ++ fname) ftype);
      EvCall CalcSN;
      EvCall NormalizeFlux; EvCall GuessSpecType; EvCall FindRadialVelocity;
      EvCall (ShiftToRest shift); EvCall GuessSpecType;
      EvWrite Outfile (out_row fname shift (guess s5))]).
Proof.
  intros P R C V Q. pose proof (process_line_turn opts i line msg s) as T.
  apply E in Q.
  inversion T; subst; same; try congruence.
  reflexivity.
Qed.

(** C3.  For a spectrum that loads and is not rejected for its
    signal-to-noise, the methods are called in the order normalizeFlux,
    guessSpecType, findRadialVelocity, shiftToRest, guessSpecType, with
    findRadialVelocity called once.  The shift written to the result row
    is the one found after the first guess, and the type, sub-type and
    metallicity of the row are read from the guess left by the second
    call of guessSpecType. *)
Theorem two_pass_order opts i line msg s fname ftype message s1 :
  parse_line line = Ok (fname, ftype) ->
  readFile (spectraPath opts ++ fname) ftype s = ((true, message), s1) ->
  match sncut opts with
  | Some cut => num_ltb (fst (calcSN s1)) cut = false
  | None => True
  end ->
  let s2 := match sncut opts with Some _ => snd (calcSN s1) | None => s1 end in
  let s3 := guessSpecType (normalizeFlux s2) in
  let shift := fst (findRadialVelocity s3) in
  let s5 := guessSpecType (shiftToRest shift (snd (findRadialVelocity s3))) in
  let g := guess s5 in
  match process_line opts i line msg s with
  | (r, s', l) =>
      r = Ok msg /\ s' = s5 /\
      calls l = ReadFile (spectraPath opts ++ fname) ftype
                :: match sncut opts with Some _ => [CalcSN] | None => [] end
                ++ [NormalizeFlux; GuessSpecType; FindRadialVelocity;
                    ShiftToRest shift; GuessSpecType] /\
      length (filter is_findRadialVelocity (calls l)) = 1 /\
      written Rejectfile l = [] /\
      written Outfile l =
        [fname ++ [comma] ++ num_str shift ++ [comma]
         ++ [nth (type_index (specType g)) (lit "OBAFGKML") space] ++ num_str (subType g)
         ++ [comma] ++ num_format (metal g) ++ lit ",nan,nan" ++ [newline]]
  end.
Proof.
  intros P R G. pose proof (process_line_turn opts i line msg s) as T.
  inversion T; subst; same.
  - match goal with H : sncut opts = _ |- _ => rewrite H in * end.
    match goal with H : calcSN _ = _ |- _ => rewrite H in G end.
    simpl in G. congruence.
  - match goal with H : sncut opts = _ |- _ => rewrite H in * end.
    match goal with H : calcSN _ = _ |- _ => rewrite H in * end.
    repeat split; reflexivity.
  - match goal with H : sncut opts = _ |- _ => rewrite H in * end.
    repeat split; reflexivity.
Qed.

(** C8.  With no signal-to-noise floor, [calcSN] is never called in a
    run of [main]; every row of the reject file is a load-failure row
    ending in [N/A]; and every spectrum that loads goes on to
    normalization and the two classification passes and gets a row in the
    result file. *)
Theorem no_floor_no_quality_reject opts env s r s' l :
  sncut opts = None ->
  main opts env s = (r, s', l) ->
  filter is_calcSN (calls l) = [] /\
  Forall na_row (rows Rejectfile l) /\
  forall i line msg s0 fname ftype message s1,
    parse_line line = Ok (fname, ftype) ->
    readFile (spectraPath opts ++ fname) ftype s0 = ((true, message), s1) ->
    process_line opts i line msg s0 =
      (Ok msg, pass_state s1,
       [EvPrint (str_of_Z (Z.of_nat i + 1) ++ lit ") Processing " ++ basename fname);
        EvCall (ReadFile (spectraPath opts ++ fname) ftype);
        EvCall NormalizeFlux; EvCall GuessSpecType; EvCall FindRadialVelocity;
        EvCall (ShiftToRest (pass_shift s1)); EvCall GuessSpecType;
        EvWrite Outfile (out_row fname (pass_shift s1) (guess (pass_state s1)))]).
Proof.
  intros NF H. split; [|split].
  - pose proof (main_finish opts env s) as F. rewrite H in F.
    inversion F; subst;
      cbn -[cleanup_log]; rewrite ?calls_app, ?filter_app; cbn -[cleanup_log];
      rewrite ?calls_cleanup; try reflexivity;
      match goal with L : loop _ _ _ _ _ _ = _ |- _ =>
        destruct (loop_no_floor opts _ NF _ _ _ _ _ _ _ L) as [C _]; rewrite C end;
      reflexivity.
  - pose proof (main_finish opts env s) as F. rewrite H in F. unfold rows.
    inversion F; subst;
      cbn -[cleanup_log]; rewrite ?written_app; cbn -[cleanup_log];
      rewrite ?written_cleanup, ?app_nil_r; try (constructor; fail);
      match goal with L : loop _ _ _ _ _ _ = _ |- _ =>
        destruct (loop_no_floor opts _ NF _ _ _ _ _ _ _ L) as [_ W] end;
      exact W.
  - intros i line msg s0 fname ftype message s1 P R.
    pose proof (process_line_turn opts i line msg s0) as T.
    inversion T; subst; same; try congruence.
    reflexivity.
Qed.

(** In a run that is not a skip to the review: once the manifest is
    open, the result file and the reject file are opened, and the first
    thing written to each is its header; whenever the review is started
    both files are closed; and when [main] returns both files are
    closed. *)
Lemma files_closed_on_return opts env s r s' l :
  eyecheck opts = false ->
  main opts env s = (r, s', l) ->
  (forall lines, open_r env (infile opts) = inr lines ->
     exists rest,
       l = [EvOpen Infile (infile opts);
            EvOpen Outfile (outfile opts);
            EvOpen Rejectfile (rejectfile opts);
            EvWrite Outfile
              (lit "#Filename,Radial Velocity (km/s),Guessed Spectral Type,Guessed Metallicity,User Spectral Type,User Metallicity"
               ++ [newline]);
            EvWrite Rejectfile (lit "#Filename,File Type,Spectra S/N" ++ [newline])]
           ++ rest) /\
  (forall l1 l2, l = l1 ++ EvEyecheck :: l2 ->
     is_open Outfile false l1 = false /\ is_open Rejectfile false l1 = false) /\
  (r = Ok tt ->
     is_open Outfile false l = false /\ is_open Rejectfile false l = false).
Proof.
  intros Ey H. pose proof (main_finish opts env s) as F. rewrite H in F.
  assert (Q : forall h ll, forallb quiet ll = true -> forall tail,
            is_open h false (opening opts ++ ll ++ closing ++ tail)
            = is_open h false tail).
  { intros h ll Hq tail. rewrite !is_open_app, (is_open_quiet _ _ _ Hq).
    destruct h; reflexivity. }
  assert (NE : forall ll, forallb quiet ll = true -> forall mid,
            existsb is_eyecheck mid = false ->
            ~ In EvEyecheck (opening opts ++ ll ++ closing ++ mid)).
  { intros ll Hq mid Hm. rewrite eyecheck_in, !existsb_app, (eyecheck_quiet _ Hq), Hm.
    discriminate. }
  assert (NC : ~ In EvEyecheck (cleanup_log opts)).
  { rewrite eyecheck_in, eyecheck_cleanup. discriminate. }
  assert (IN : forall (l0 l1 l2 : list Event), l0 = l1 ++ EvEyecheck :: l2 -> In EvEyecheck l0).
  { intros l0 l1 l2 ->. apply in_or_app. right. left. reflexivity. }
  assert (RV : forall ll mid l1 l2, forallb quiet ll = true ->
            existsb is_eyecheck mid = false -> (forall h b, is_open h b mid = b) ->
            opening opts ++ ll ++ closing ++ mid ++ EvEyecheck :: cleanup_log opts
            = l1 ++ EvEyecheck :: l2 ->
            is_open Outfile false l1 = false /\ is_open Rejectfile false l1 = false).
  { intros ll mid l1 l2 Hq Hm Ho E.
    replace (opening opts ++ ll ++ closing ++ mid ++ EvEyecheck :: cleanup_log opts)
      with ((opening opts ++ ll ++ closing ++ mid) ++ EvEyecheck :: cleanup_log opts) in E
      by (rewrite <- !app_assoc; reflexivity).
    apply split_at_unique in E; [|apply NE; assumption|exact NC].
    subst l1. rewrite !Q, !Ho by exact Hq. split; reflexivity. }
  assert (CL : forall ll tail, forallb quiet ll = true ->
            (forall h b, is_open h b tail = b) ->
            is_open Outfile false (opening opts ++ ll ++ closing ++ tail) = false /\
            is_open Rejectfile false (opening opts ++ ll ++ closing ++ tail) = false).
  { intros ll tail Hq Ho. rewrite !Q, !Ho by exact Hq. split; reflexivity. }
  inversion F; subst; try congruence;
    try match goal with L : loop _ _ _ _ _ _ = _ |- _ =>
      pose proof (loop_quiet _ _ _ _ _ _ _ _ _ L) as Hq end.
  - (* the manifest does not open *)
    split; [intros lines Op; congruence|]. split; [|intros _; split; reflexivity].
    intros l1 l2 E. apply IN in E. destruct E as [E|[]]. discriminate E.
  - (* an exception in the loop *)
    split; [intros ? _; exists ll; reflexivity|]. split; [|discriminate].
    intros l1 l2 E. apply IN in E. exfalso.
    change (In EvEyecheck (opening opts ++ ll)) in E.
    rewrite eyecheck_in, existsb_app, (eyecheck_quiet _ Hq) in E. discriminate E.
  - (* nothing rejected *)
    split; [intros ? _; eexists; reflexivity|]. split.
    + intros l1 l2 E. apply (RV ll [] l1 l2 Hq eq_refl); [reflexivity|exact E].
    + intros _. apply (CL ll (EvEyecheck :: cleanup_log opts) Hq).
      intros h b. simpl. apply is_open_cleanup.
  - (* [i] unbound *)
    split; [intros ? _; eexists; reflexivity|]. split; [|discriminate].
    intros l1 l2 E. apply IN in E. exfalso.
    exact (NE ll Hq [EvNotify (useGUI opts) (preamble ++ m)] eq_refl E).
  - (* everything rejected *)
    split; [intros ? _; eexists; reflexivity|]. split.
    + intros l1 l2 E. apply IN in E. exfalso.
      refine (NE ll Hq (EvNotify (useGUI opts) (preamble ++ m)
                        :: EvNotify (useGUI opts) all_bad :: cleanup_log opts) _ E).
      simpl. apply eyecheck_cleanup.
    + intros _.
      apply (CL ll (EvNotify (useGUI opts) (preamble ++ m)
                    :: EvNotify (useGUI opts) all_bad :: cleanup_log opts) Hq).
      intros h b. simpl. apply is_open_cleanup.
  - (* some accepted, some rejected *)
    split; [intros ? _; eexists; reflexivity|]. split.
    + intros l1 l2 E.
      apply (RV ll [EvNotify (useGUI opts) (preamble ++ m)] l1 l2 Hq eq_refl);
        [reflexivity|exact E].
    + intros _.
      apply (CL ll (EvNotify (useGUI opts) (preamble ++ m)
                    :: EvEyecheck :: cleanup_log opts) Hq).
      intros h b. simpl. apply is_open_cleanup.
Qed.

(** The rows of the two files in a run that opened the manifest are the
    rows the loop wrote. *)
Lemma main_rows opts env s r s' l lines :
  eyecheck opts = false ->
  open_r env (infile opts) = inr lines ->
  main opts env s = (r, s', l) ->
  exists r0 ll,
    loop opts 0 lines [] None s = (r0, s', ll) /\
    rows Outfile l = written Outfile ll /\
    rows Rejectfile l = written Rejectfile ll.
Proof.
  intros Ey Op H. pose proof (main_finish opts env s) as F. rewrite H in F.
  inversion F; subst; try congruence; same;
    eexists; exists ll; (split; [eassumption|]); unfold rows;
    cbn -[cleanup_log]; rewrite ?written_app; cbn -[cleanup_log];
    rewrite ?written_cleanup, ?app_nil_r; split; reflexivity.
Qed.

(** A parsed line leaves one row, which begins with the file name and a
    comma: in the reject file when the spectrum does not load or its
    signal-to-noise is below the floor, in the result file otherwise. *)
Lemma turn_row opts i line msg s0 fname ftype success message s1 :
  parse_line line = Ok (fname, ftype) ->
  readFile (spectraPath opts ++ fname) ftype s0 = ((success, message), s1) ->
  let below := match sncut opts with
               | Some cut => num_ltb (fst (calcSN s1)) cut
               | None => false
               end in
  match process_line opts i line msg s0 with
  | (_, _, l0) =>
      if negb success || below
      then (exists rest, written Rejectfile l0 = [fname ++ comma :: rest]) /\
           written Outfile l0 = []
      else (exists rest, written Outfile l0 = [fname ++ comma :: rest]) /\
           written Rejectfile l0 = []
  end.
Proof.
  intros P R below.
  pose proof (process_line_turn opts i line msg s0) as T. subst below.
  inversion T; subst; same.
  + split; [eexists|]; reflexivity.
  + match goal with X : sncut opts = _ |- _ => rewrite X end.
    match goal with X : calcSN _ = _ |- _ => rewrite X end.
    simpl fst. match goal with X : num_ltb _ _ = _ |- _ => rewrite X end.
    split; [eexists|]; reflexivity.
  + match goal with X : sncut opts = _ |- _ => rewrite X end.
    match goal with X : calcSN _ = _ |- _ => rewrite X end.
    simpl fst. match goal with X : num_ltb _ _ = _ |- _ => rewrite X end.
    split; [eexists|]; reflexivity.
  + match goal with X : sncut opts = _ |- _ => rewrite X end.
    split; [eexists|]; reflexivity.
Qed.

Lemma parsed_prefix_all_inv lines :
  parsed_prefix lines = lines -> forallb parses lines = true.
Proof.
  induction lines as [|line rest IH]; intros H; [reflexivity|].
  simpl in *. destruct (parses line); [|discriminate H].
  inversion H as [H']. rewrite H'. simpl. apply IH. exact H'.
Qed.

Lemma run_no_eyecheck opts ll mid :
  forallb quiet ll = true -> existsb is_eyecheck mid = false ->
  ~ In EvEyecheck (opening opts ++ ll ++ closing ++ mid).
Proof.
  intros Hq Hm. rewrite eyecheck_in, !existsb_app, (eyecheck_quiet _ Hq), Hm.
  discriminate.
Qed.

Lemma run_in_tail opts ll tail (x : Event) :
  In x tail -> In x (opening opts ++ ll ++ closing ++ tail).
Proof. intros H. rewrite !in_app_iff. auto. Qed.

Lemma count_preamble m : count newline (preamble ++ m) = 3 + count newline m.
Proof. rewrite count_app. reflexivity. Qed.

(** C2, for a manifest with at least one line.  Once the loop has gone
    through a manifest of at least one line: if every line was rejected,
    the user is told that all spectra were bad, the review is not
    started, and the manifest is removed when its base name begins with
    [temp_input_]; if some line was accepted, the review is started.
    The test on the line breaks of the reject message holds exactly when
    the reject rows are as many as the lines. *)
Theorem all_rejected_skips_review (L : str_one_line) opts env s lines r s' l :
  eyecheck opts = false ->
  open_r env (infile opts) = inr lines ->
  lines <> [] ->
  forallb parses lines = true ->
  main opts env s = (r, s', l) ->
  r = Ok tt /\
  (length (rows Rejectfile l) = length lines ->
     In (EvNotify (useGUI opts) all_bad) l /\ ~ In EvEyecheck l /\
     (firstn 11 (basename (infile opts)) = lit "temp_input_" ->
      In (EvRemove (infile opts)) l)) /\
  (rows Outfile l <> [] -> In EvEyecheck l) /\
  exists m i ll,
    loop opts 0 lines [] None s = (Ok (m, Some i), s', ll) /\
    i + 1 = length lines /\
    (count newline (preamble ++ m) = i + 4 <->
     length (rows Rejectfile l) = length lines).
Proof.
  intros Ey Op NE A H.
  destruct (main_rows _ _ _ _ _ _ _ Ey Op H) as [r0 [ll [Lp [RO RR]]]].
  rewrite RO, RR.
  destruct (loop_total opts lines 0 [] None s A) as [m [last [s1 [ll1 Lp1]]]].
  rewrite Lp in Lp1. inversion Lp1; subst r0 s1 ll1. clear Lp1.
  pose proof (loop_rows _ _ _ _ _ _ _ _ _ Lp) as C.
  rewrite (parsed_prefix_all _ A) in C.
  pose proof (loop_quiet _ _ _ _ _ _ _ _ _ Lp) as Hq.
  destruct (loop_ok _ _ _ _ _ _ _ _ _ _ Lp) as [_ [La [tail [Em [Z [NZ Ct]]]]]].
  simpl in Em. subst m. specialize (Ct L).
  assert (Hn : 0 < length lines) by (destruct lines; [congruence|simpl; lia]).
  assert (Ei : last = Some (length lines - 1)).
  { rewrite La. destruct lines; [congruence|]. reflexivity. }
  clear La. subst last.
  assert (T : count newline (preamble ++ tail) = length lines - 1 + 4 <->
              length (written Rejectfile ll) = length lines).
  { rewrite count_preamble, Ct. lia. }
  assert (W : exists m i ll0,
            loop opts 0 lines [] None s = (Ok (m, Some i), s', ll0) /\
            i + 1 = length lines /\
            (count newline (preamble ++ m) = i + 4 <->
             length (written Rejectfile ll) = length lines)).
  { exists tail, (length lines - 1), ll. split; [exact Lp|]. split; [lia|exact T]. }
  pose proof (main_finish opts env s) as F. rewrite H in F.
  inversion F; subst; try congruence; same;
    match goal with Hq' : forallb quiet ?x = true |- _ => rename x into lg end;
    try match goal with X : count newline (preamble ++ ?x) = _ |- _ => rename x into mm end;
    try match goal with X : count newline (preamble ++ ?x) <> _ |- _ => rename x into mm end.
  - (* nothing rejected *)
    split; [reflexivity|]. split; [|split; [|exact W]].
    + intros K. change (0 = length (written Rejectfile lg)) in Ct. lia.
    + intros _. apply (run_in_tail opts lg (EvEyecheck :: cleanup_log opts)).
      left. reflexivity.
  - (* everything rejected *)
    match goal with X : count _ _ = _ |- _ => apply T in X; rename X into K end.
    split; [reflexivity|]. split; [|split; [|exact W]].
    + intros _. split; [|split].
      * apply (run_in_tail opts lg (EvNotify (useGUI opts) (preamble ++ mm)
                 :: EvNotify (useGUI opts) all_bad :: cleanup_log opts)).
        right. left. reflexivity.
      * apply (run_no_eyecheck opts lg (EvNotify (useGUI opts) (preamble ++ mm)
                 :: EvNotify (useGUI opts) all_bad :: cleanup_log opts) Hq).
        simpl. apply eyecheck_cleanup.
      * intros Tm.
        apply (run_in_tail opts lg (EvNotify (useGUI opts) (preamble ++ mm)
                 :: EvNotify (useGUI opts) all_bad :: cleanup_log opts)).
        right. right. unfold cleanup_log.
        apply str_eqb_eq in Tm. rewrite Tm. left. reflexivity.
    + intros O. exfalso. destruct (written Outfile lg); [congruence|].
      simpl in C. lia.
  - (* some accepted, some rejected *)
    split; [reflexivity|]. split; [|split; [|exact W]].
    + intros K. apply T in K. congruence.
    + intros _.
      apply (run_in_tail opts lg (EvNotify (useGUI opts) (preamble ++ mm)
               :: EvEyecheck :: cleanup_log opts)).
      right. left. reflexivity.
Qed.

(** C4, as the code has it.  A manifest line with fewer than two tokens
    is not rejected: [main] leaves with a ValueError, the lines after it
    are not processed, both output files are left open and the review
    is not started. *)
Theorem short_line_aborts opts env s lines line :
  eyecheck opts = false ->
  open_r env (infile opts) = inr lines ->
  In line lines ->
  length (tokens line) < 2 ->
  exists s' l,
    main opts env s = (Raise ValueError, s', l) /\
    length (rows Outfile l) + length (rows Rejectfile l) < length lines /\
    is_open Outfile false l = true /\
    is_open Rejectfile false l = true /\
    ~ In EvEyecheck l.
Proof.
  intros Ey Op I T.
  assert (A : forallb parses lines = false).
  { destruct (forallb parses lines) eqn:E; [|reflexivity].
    rewrite forallb_forall in E. specialize (E _ I).
    apply parses_iff in E. lia. }
  destruct (main opts env s) as [[r s'] l] eqn:H.
  destruct (main_rows _ _ _ _ _ _ _ Ey Op H) as [r0 [ll [Lp [RO RR]]]].
  pose proof (loop_rows _ _ _ _ _ _ _ _ _ Lp) as C.
  pose proof (loop_quiet _ _ _ _ _ _ _ _ _ Lp) as Hq.
  destruct r0 as [[m last]|e].
  - apply loop_ok in Lp. destruct Lp as [PP _].
    apply parsed_prefix_all_inv in PP. congruence.
  - destruct (loop_raise _ _ _ _ _ _ _ _ _ Lp) as [-> Lt].
    pose proof (main_finish opts env s) as F. rewrite H in F.
    inversion F; subst; try congruence; same.
    match goal with Hq' : forallb quiet ?x = true |- _ => rename x into lg end.
    exists s', (opening opts ++ lg). split; [reflexivity|].
    change (rows Outfile (opening opts ++ lg)) with (written Outfile lg).
    change (rows Rejectfile (opening opts ++ lg)) with (written Rejectfile lg).
    split; [lia|].
    rewrite !is_open_app, !(is_open_quiet _ _ _ Hq).
    split; [reflexivity|]. split; [reflexivity|].
    rewrite eyecheck_in, existsb_app, (eyecheck_quiet _ Hq). discriminate.
Qed.

End Results.

(** ** Integers satisfy the two facts about numbers *)

Lemma string_of_uint_one_line d :
  ~ In newline (String.list_ascii_of_string (NilEmpty.string_of_uint d)).
Proof.
  induction d; simpl; try tauto;
    intros [H|H]; try discriminate H; exact (IHd H).
Qed.

Lemma Z_str_one_line : @str_one_line Z_numeric.
Proof.
  intros z. simpl. unfold str_of_Z.
  destruct (Z.to_int z) as [d|d]; simpl.
  - apply string_of_uint_one_line.
  - intros [H|H]; [discriminate H|]. exact (string_of_uint_one_line d H).
Qed.

Lemma Z_eq_not_lt : @eq_not_lt Z_numeric.
Proof.
  intros x y H. simpl in *. apply Z.eqb_eq in H. subst y. apply Z.ltb_irrefl.
Qed.

(** ** The results on sample runs *)

Lemma manifest_open_failure_witness :
  @main Z_numeric toy_spectrum (toy_options None (lit "missing.txt"))
        (toy_env (lit "in.txt") sample_lines) toy_start
  = (Ok tt, toy_start, [EvNotify false (lit "[Errno 2] No such file or directory")]).
Proof.
  exact (@manifest_open_failure Z_numeric toy_spectrum
           (toy_options None (lit "missing.txt")) (toy_env (lit "in.txt") sample_lines)
           toy_start (lit "[Errno 2] No such file or directory") eq_refl eq_refl).
Defined.

Lemma below_floor_rejected_witness :
  @process_line Z_numeric toy_spectrum (toy_options (Some 5%Z) (lit "in.txt")) 1
    (lit "star002.fits,obs" ++ [newline]) [] toy_start
  = (Ok (lit "FILE: star002.fits  REASON: S/N = 2 < 5" ++ [newline]),
     loaded 2,
     [EvPrint (lit "2) Processing star002.fits");
      EvCall (ReadFile (lit "star002.fits") (lit "obs"));
      EvCall CalcSN;
      EvWrite Rejectfile (lit "star002.fits,obs,2" ++ [newline])]).
Proof.
  exact (@below_floor_rejected Z_numeric toy_spectrum
           (toy_options (Some 5%Z) (lit "in.txt")) 1
           (lit "star002.fits,obs" ++ [newline]) [] toy_start
           (lit "star002.fits") (lit "obs") [] (loaded 2) 5%Z 2%Z (loaded 2)
           eq_refl eq_refl eq_refl eq_refl eq_refl).
Defined.

Lemma at_floor_accepted_witness :
  @process_line Z_numeric toy_spectrum (toy_options (Some 5%Z) (lit "in.txt")) 3
    (lit "star003.fits  obs") [] toy_start
  = (Ok [], classified 5,
     [EvPrint (lit "4) Processing star003.fits");
      EvCall (ReadFile (lit "star003.fits") (lit "obs"));
      EvCall CalcSN;
      EvCall NormalizeFlux; EvCall GuessSpecType; EvCall FindRadialVelocity;
      EvCall (@ShiftToRest Z_numeric 42%Z); EvCall GuessSpecType;
      EvWrite Outfile (lit "star003.fits,42,M3,-5.0,nan,nan" ++ [newline])]).
Proof.
  exact (@at_floor_accepted Z_numeric toy_spectrum Z_eq_not_lt
           (toy_options (Some 5%Z) (lit "in.txt")) 3
           (lit "star003.fits  obs") [] toy_start
           (lit "star003.fits") (lit "obs") [] (loaded 5) 5%Z 5%Z (loaded 5)
           eq_refl eq_refl eq_refl eq_refl eq_refl).
Defined.

Lemma two_pass_order_witness :
  let l := run_log (@process_line Z_numeric toy_spectrum
                      (toy_options (Some 5%Z) (lit "in.txt")) 0
                      (lit "star001.fits,obs" ++ [newline]) [] toy_start) in
  calls l = [ReadFile (lit "star001.fits") (lit "obs"); CalcSN;
             NormalizeFlux; GuessSpecType; FindRadialVelocity;
             @ShiftToRest Z_numeric 42%Z; GuessSpecType] /\
  length (filter is_findRadialVelocity (calls l)) = 1 /\
  written Rejectfile l = [] /\
  written Outfile l = [lit "star001.fits,42,M3,-5.0,nan,nan" ++ [newline]].
Proof.
  exact (proj2 (proj2
    (@two_pass_order Z_numeric toy_spectrum
       (toy_options (Some 5%Z) (lit "in.txt")) 0
       (lit "star001.fits,obs" ++ [newline]) [] toy_start
       (lit "star001.fits") (lit "obs") [] (loaded 8)
       eq_refl eq_refl eq_refl))).
Defined.

Lemma no_floor_no_quality_reject_witness :
  let l := run_log (toy_main None (lit "in.txt") sample_lines) in
  filter is_calcSN (calls l) = [] /\
  rows Rejectfile l = [lit "nowhere.fits,obs,N/A" ++ [newline]] /\
  length (rows Outfile l) = 3.
Proof.
  split; [|split; reflexivity].
  exact (proj1
    (@no_floor_no_quality_reject Z_numeric toy_spectrum
       (toy_options None (lit "in.txt")) (toy_env (lit "in.txt") sample_lines) toy_start
       (run_result (toy_main None (lit "in.txt") sample_lines))
       (run_state (toy_main None (lit "in.txt") sample_lines))
       (run_log (toy_main None (lit "in.txt") sample_lines))
       eq_refl eq_refl)).
Defined.

Lemma all_rejected_skips_review_witness :
  let l := run_log (toy_main (Some 5%Z) (lit "temp_input_1.txt") bad_lines) in
  In (EvNotify false all_bad) l /\ ~ In EvEyecheck l /\
  (firstn 11 (basename (lit "temp_input_1.txt")) = lit "temp_input_" ->
   In (EvRemove (lit "temp_input_1.txt")) l).
Proof.
  assert (NE : bad_lines <> []) by discriminate.
  exact (proj1 (proj2
    (@all_rejected_skips_review Z_numeric toy_spectrum Z_str_one_line
       (toy_options (Some 5%Z) (lit "temp_input_1.txt"))
       (toy_env (lit "temp_input_1.txt") bad_lines) toy_start bad_lines
       (run_result (toy_main (Some 5%Z) (lit "temp_input_1.txt") bad_lines))
       (run_state (toy_main (Some 5%Z) (lit "temp_input_1.txt") bad_lines))
       (run_log (toy_main (Some 5%Z) (lit "temp_input_1.txt") bad_lines))
       eq_refl eq_refl NE eq_refl eq_refl)) eq_refl).
Defined.

Lemma short_line_aborts_witness :
  exists s' l,
    toy_main (Some 5%Z) (lit "in.txt") broken_lines = (Raise ValueError, s', l) /\
    length (rows Outfile l) + length (rows Rejectfile l) < length broken_lines /\
    is_open Outfile false l = true /\
    is_open Rejectfile false l = true /\
    ~ In EvEyecheck l.
Proof.
  assert (T : length (tokens (lit "star002.fits" ++ [newline])) < 2) by (vm_compute; lia).
  exact (@short_line_aborts Z_numeric toy_spectrum
           (toy_options (Some 5%Z) (lit "in.txt")) (toy_env (lit "in.txt") broken_lines)
           toy_start broken_lines (lit "star002.fits" ++ [newline])
           eq_refl eq_refl (or_intror (or_introl eq_refl)) T).
Defined.

(** C2, as stated, at the empty manifest: the reject rows are as many as
    the lines, none of either, and the review is started all the same. *)
Lemma empty_manifest_is_reviewed :
  let l := run_log (toy_main (Some 5%Z) (lit "in.txt") []) in
  ~ (length (rows Rejectfile l) = length (@nil str) -> ~ In EvEyecheck l).
Proof.
  intros l H. apply H; [reflexivity|].
  unfold l. apply eyecheck_in. reflexivity.
Qed.

(** C5, as the code has it.  A comma is turned into a blank only when the
    first comma of the stripped line is not its first character: a line
    that begins with a comma keeps its commas, so [<path>,<formatTag>]
    and [<path> <formatTag>] part ways for a path that begins with a
    comma. *)
Theorem leading_comma_kept :
  find comma (strip (lit ",star001.fits,obs")) = 0%Z /\
  parse_line (lit ",star001.fits,obs") = Raise ValueError /\
  parse_line (lit ",star001.fits obs") = Ok (lit ",star001.fits", lit "obs") /\
  parse_line (lit "star001.fits,obs") = Ok (lit "star001.fits", lit "obs").
Proof. repeat split; reflexivity. Qed.

(** ** Further facts about the parser *)

Lemma lstrip_blank_prefix a s : blank a -> lstrip (a ++ s) = lstrip s.
Proof.
  induction 1 as [|c a Hc _ IH]; simpl; [reflexivity|]. rewrite Hc. exact IH.
Qed.

Lemma lstrip_all_blank b : blank b -> lstrip b = [].
Proof.
  intros H. rewrite <- (app_nil_r b). rewrite lstrip_blank_prefix by exact H. reflexivity.
Qed.

Lemma rstrip_blank_suffix s b : blank b -> rstrip (s ++ b) = rstrip s.
Proof.
  intros H. unfold rstrip. rewrite rev_app_distr.
  rewrite lstrip_blank_prefix by (apply Forall_rev; exact H). reflexivity.
Qed.

Lemma lstrip_blank_suffix s b :
  blank b -> lstrip (s ++ b) = lstrip s ++ b \/ (lstrip s = [] /\ lstrip (s ++ b) = []).
Proof.
  intros H. induction s as [|c s IH]; simpl.
  - right. split; [reflexivity|apply lstrip_all_blank; exact H].
  - destruct (isspace c); [exact IH|left; reflexivity].
Qed.

Lemma strip_padding a s b : blank a -> blank b -> strip (a ++ s ++ b) = strip s.
Proof.
  intros Ha Hb. unfold strip. rewrite lstrip_blank_prefix by exact Ha.
  destruct (lstrip_blank_suffix s b Hb) as [E|[E1 E2]].
  - rewrite E. apply rstrip_blank_suffix. exact Hb.
  - rewrite E1, E2. reflexivity.
Qed.

Lemma parse_line_padded a line b :
  blank a -> blank b -> parse_line (a ++ line ++ b) = parse_line line.
Proof.
  intros Ha Hb. unfold parse_line. rewrite strip_padding by assumption. reflexivity.
Qed.

(** X2.  Whitespace around a manifest line, the line break at its end
    included, does not change what the line parses to. *)
Theorem parse_line_padding a line b :
  blank a -> blank b -> parse_line (a ++ line ++ b) = parse_line line.
Proof. apply parse_line_padded. Qed.

(** X1.  A line [<path>,<formatTag>] parses as [<path> <formatTag>]
    does whenever the first non-blank character of the line is not a
    comma, whatever blanks and further commas the path holds. *)
Theorem comma_separator_as_blank p t :
  (find comma (strip (p ++ comma :: t)) > 0)%Z ->
  parse_line (p ++ comma :: t) = parse_line (p ++ space :: t).
Proof. apply comma_line_as_blank_line. Qed.

Lemma well_spaced_token t rest p :
  no_space t -> t <> [] -> well_spaced p (t ++ rest) = well_spaced false rest.
Proof.
  intros Ht. revert p. induction Ht as [|c t Hc Ht IH]; intros p Hn; [congruence|].
  simpl. rewrite Hc. destruct t as [|d t]; [reflexivity|].
  apply IH. discriminate.
Qed.

Lemma well_spaced_join ts p :
  ts <> [] -> Forall (fun t => no_space t /\ t <> []) ts ->
  well_spaced p (join [space] ts) = true.
Proof.
  intros Hn F. revert p. induction F as [|t ts [Ht Hne] F IH]; intros p; [congruence|].
  destruct ts as [|u ts].
  - simpl. rewrite <- (app_nil_r t). rewrite well_spaced_token by assumption. reflexivity.
  - change (join [space] (t :: u :: ts)) with (t ++ [space] ++ join [space] (u :: ts)).
    rewrite well_spaced_token by assumption.
    simpl. apply IH. discriminate.
Qed.

Lemma parse_line_ftype_word line fname ftype :
  parse_line line = Ok (fname, ftype) -> no_space ftype.
Proof.
  intros H. apply parse_line_inv in H. destruct H as [ts [_ [E _]]].
  pose proof (split_tokens (normalize_commas (strip line))) as F.
  fold (tokens line) in F. rewrite E in F. apply Forall_app in F. destruct F as [_ F2].
  inversion F2 as [|? ? [Hf _] _]. exact Hf.
Qed.

(** X3.  What a line parses to: the format tag is a non-empty word
    without whitespace; the path is not empty, does not begin or end with
    whitespace, and the only whitespace inside it is single blanks (runs of
    whitespace in the line are collapsed). *)
Theorem parsed_fields_shape line fname ftype :
  parse_line line = Ok (fname, ftype) ->
  ftype <> [] /\ no_space ftype /\ well_spaced true fname = true.
Proof.
  intros H. apply parse_line_inv in H. destruct H as [ts [Hts [E ->]]].
  pose proof (split_tokens (normalize_commas (strip line))) as F.
  fold (tokens line) in F. rewrite E in F. apply Forall_app in F. destruct F as [F1 F2].
  inversion F2 as [|? ? [Hf Hn] _]; subst.
  split; [exact Hn|]. split; [exact Hf|].
  apply well_spaced_join; assumption.
Qed.

Lemma split_from_chars s : forall cur t c,
  In t (split_from cur s) -> In c t -> In c cur \/ In c s.
Proof.
  induction s as [|x s IH]; intros cur t c Ht Hc; simpl in Ht.
  - destruct cur as [|y cur]; simpl in Ht; [contradiction|].
    destruct Ht as [<-|[]]. left.
    change (rev cur ++ [y]) with (rev (y :: cur)) in Hc. apply in_rev. exact Hc.
  - destruct (isspace x).
    + destruct cur as [|y cur]; simpl in Ht.
      * destruct (IH _ _ _ Ht Hc) as [[]|H]. right. right. exact H.
      * destruct Ht as [<-|Ht].
        -- left. change (rev cur ++ [y]) with (rev (y :: cur)) in Hc.
           apply in_rev. exact Hc.
        -- destruct (IH _ _ _ Ht Hc) as [[]|H]. right. right. exact H.
    + destruct (IH _ _ _ Ht Hc) as [[<-|H]|H].
      * right. left. reflexivity.
      * left. exact H.
      * right. right. exact H.
Qed.

Lemma replace_no_comma s : ~ In comma (replace comma space s).
Proof.
  unfold replace. intros H. apply in_map_iff in H. destruct H as [x [E _]].
  destruct (Ascii.eqb x comma) eqn:Q; [discriminate E|].
  apply Ascii.eqb_neq in Q. congruence.
Qed.

Lemma join_in c sep ts : In c (join sep ts) -> In c sep \/ exists t, In t ts /\ In c t.
Proof.
  induction ts as [|t ts IH]; simpl; [contradiction|].
  destruct ts as [|u ts].
  - intros H. right. exists t. auto.
  - rewrite !in_app_iff. intros [H|[H|H]].
    + right. exists t. auto.
    + left. exact H.
    + destruct (IH H) as [H'|[t' [H1 H2]]]; [left; exact H'|].
      right. exists t'. split; [right; exact H1|exact H2].
Qed.

(** X4.  When the first non-blank character of a line is not a comma,
    neither the path nor the format tag it parses to holds a comma, so
    the file name stays one field of the rows written for it. *)
Theorem parsed_fields_comma_free line fname ftype :
  find comma (strip line) <> 0%Z ->
  parse_line line = Ok (fname, ftype) ->
  ~ In comma fname /\ ~ In comma ftype.
Proof.
  intros Hc H. apply parse_line_inv in H. destruct H as [ts [_ [E ->]]].
  rewrite (tokens_replace _ Hc) in E.
  assert (T : forall t, In t (ts ++ [ftype]) -> ~ In comma t).
  { intros t Ht Hin. rewrite <- E in Ht. unfold split in Ht.
    destruct (split_from_chars _ _ _ _ Ht Hin) as [[]|H].
    exact (replace_no_comma _ H). }
  split.
  - intros H. apply join_in in H. destruct H as [[H|[]]|[t [H1 H2]]].
    + discriminate H.
    + apply (T t); [apply in_or_app; left; exact H1|exact H2].
  - apply T. apply in_or_app. right. left. reflexivity.
Qed.

(** ** Further facts about a run of [main] *)

Section Further.

Context {N : Numeric} {S : Spectrum}.

Ltac same :=
  repeat match goal with
  | H1 : ?x = _, H2 : ?x = _ |- _ => rewrite H1 in H2; inversion H2; subst; clear H2
  end.

Lemma late_cleanup opts : forallb is_late (cleanup_log opts) = true.
Proof. unfold cleanup_log. destruct (str_eqb _ _); reflexivity. Qed.

Lemma quiet_not_late (l : list Event) :
  forallb quiet l = true -> forallb (fun e => negb (is_late e)) l = true.
Proof.
  induction l as [|e l IH]; intros H; [reflexivity|].
  simpl in H. apply andb_true_iff in H. destruct H as [He Hl].
  simpl. rewrite (IH Hl). destruct e; try reflexivity; discriminate He.
Qed.

(** The log of a run that opened the manifest: the opening, the events of
    the loop, and then either nothing (an exception left the loop) or the
    closing followed by events of the end of a run. *)
Lemma main_shape opts env s r s' l lines :
  eyecheck opts = false ->
  open_r env (infile opts) = inr lines ->
  main opts env s = (r, s', l) ->
  exists r0 ll tail,
    loop opts 0 lines [] None s = (r0, s', ll) /\
    l = opening opts ++ ll ++ tail /\
    ((exists e, r0 = Raise e /\ r = Raise e /\ tail = []) \/
     (exists v late, r0 = Ok v /\ tail = closing ++ late /\
                     forallb is_late late = true)).
Proof.
  intros Ey Op H. pose proof (main_finish opts env s) as F. rewrite H in F.
  inversion F; subst; try congruence; same.
  - eexists; eexists; exists []. split; [eassumption|].
    split; [rewrite app_nil_r; reflexivity|].
    left. eexists. auto.
  - eexists; exists ll; eexists. split; [eassumption|]. split; [reflexivity|].
    right. do 2 eexists. split; [reflexivity|]. split; [reflexivity|].
    simpl. apply late_cleanup.
  - eexists; exists ll; eexists. split; [eassumption|]. split; [reflexivity|].
    right. do 2 eexists. split; [reflexivity|]. split; [reflexivity|]. reflexivity.
  - eexists; exists ll; eexists. split; [eassumption|]. split; [reflexivity|].
    right. do 2 eexists. split; [reflexivity|]. split; [reflexivity|].
    simpl. apply late_cleanup.
  - eexists; exists ll; eexists. split; [eassumption|]. split; [reflexivity|].
    right. do 2 eexists. split; [reflexivity|]. split; [reflexivity|].
    simpl. apply late_cleanup.
Qed.

Lemma late_calls (l : list Event) : forallb is_late l = true -> calls l = [].
Proof.
  induction l as [|e l IH]; intros H; [reflexivity|].
  simpl in H. apply andb_true_iff in H. destruct H as [He Hl].
  destruct e; try discriminate He; simpl; exact (IH Hl).
Qed.

Lemma late_written h (l : list Event) : forallb is_late l = true -> written h l = [].
Proof.
  induction l as [|e l IH]; intros H; [reflexivity|].
  simpl in H. apply andb_true_iff in H. destruct H as [He Hl].
  destruct e; try discriminate He; simpl; exact (IH Hl).
Qed.

(** X5.  In every run of [main] the events fall into two stretches: first
    the opens, writes, progress lines, method calls and closes, then the
    notices to the user, the review and the removal of the manifest.  No
    notice is given, and the review is not started, while spectra are
    still being processed. *)
Theorem notices_come_last opts env s r s' l :
  main opts env s = (r, s', l) ->
  exists work late,
    l = work ++ late /\
    forallb (fun e => negb (is_late e)) work = true /\
    forallb is_late late = true.
Proof.
  intros H. destruct (eyecheck opts) eqn:Ey.
  - pose proof (main_finish opts env s) as F. rewrite H in F.
    inversion F; subst; try congruence.
    + exists [], (EvEyecheck :: cleanup_log opts). split; [reflexivity|].
      split; [reflexivity|]. simpl. apply late_cleanup.
    + exists [], [EvEyecheck]. split; [reflexivity|]. split; reflexivity.
  - destruct (open_r env (infile opts)) as [e|lines] eqn:Op.
    + pose proof (main_finish opts env s) as F. rewrite H in F.
      inversion F; subst; try congruence; same.
      exists []. eexists. split; [reflexivity|]. split; reflexivity.
    + destruct (main_shape _ _ _ _ _ _ _ Ey Op H) as [r0 [ll [tail [Lp [-> T]]]]].
      pose proof (quiet_not_late _ (loop_quiet _ _ _ _ _ _ _ _ _ Lp)) as Q.
      destruct T as [[e [_ [_ ->]]]|[v [late [_ [-> Hl]]]]].
      * exists (opening opts ++ ll), []. split; [rewrite !app_nil_r; reflexivity|].
        split; [|reflexivity]. rewrite forallb_app, Q. reflexivity.
      * exists (opening opts ++ ll ++ closing), late.
        split; [rewrite <- !app_assoc; reflexivity|]. split; [|exact Hl].
        rewrite !forallb_app, Q. reflexivity.
Qed.

Lemma turn_readFile opts i line msg s r s' l :
  turn opts i line msg s (r, s', l) ->
  filter is_readFile (calls l) = match r with Ok _ => descriptor opts line | Raise _ => [] end.
Proof.
  intros T. unfold descriptor. inversion T; subst;
    match goal with H : parse_line _ = _ |- _ => rewrite ?H end; reflexivity.
Qed.

Lemma loop_readFile opts lines : forall i msg last s r s' l,
  loop opts i lines msg last s = (r, s', l) ->
  filter is_readFile (calls l) = flat_map (descriptor opts) (parsed_prefix lines).
Proof.
  induction lines as [|line rest IH]; intros i msg last s r s' l H.
  - inversion H. reflexivity.
  - rewrite loop_cons in H.
    pose proof (process_line_turn opts i line msg s) as T.
    destruct (process_line opts i line msg s) as [[[m|e] s1] l1].
    + destruct (loop opts (Datatypes.S i) rest m (Some i) s1) as [[r2 s2] l2] eqn:E.
      inversion H; subst. apply IH in E.
      rewrite calls_app, filter_app, E, (turn_readFile _ _ _ _ _ _ _ _ T).
      apply turn_ok in T. destruct T as [P _]. simpl. rewrite P. reflexivity.
    + inversion H; subst. rewrite (turn_readFile _ _ _ _ _ _ _ _ T).
      apply turn_raise in T. destruct T as [_ [P _]]. simpl. rewrite P. reflexivity.
Qed.

Lemma readFile_calls opts env s r s' l lines :
  eyecheck opts = false ->
  open_r env (infile opts) = inr lines ->
  main opts env s = (r, s', l) ->
  filter is_readFile (calls l) = flat_map (descriptor opts) (parsed_prefix lines).
Proof.
  intros Ey Op H.
  destruct (main_shape _ _ _ _ _ _ _ Ey Op H) as [r0 [ll [tail [Lp [-> T]]]]].
  rewrite !calls_app, !filter_app, (loop_readFile _ _ _ _ _ _ _ _ _ Lp).
  replace (calls tail) with (@nil Call); [simpl; rewrite app_nil_r; reflexivity|].
  destruct T as [[e [_ [_ ->]]]|[v [late [_ [-> Hl]]]]]; [reflexivity|].
  rewrite calls_app, (late_calls _ Hl). reflexivity.
Qed.

(** X6.  The spectra are loaded once each and in the order of the
    manifest: the [readFile] calls of a run are, one for one, the parsed
    lines of the manifest, each with the spectra path put before its
    file name. *)
Theorem each_line_loaded_once opts env s r s' l lines :
  eyecheck opts = false ->
  open_r env (infile opts) = inr lines ->
  main opts env s = (r, s', l) ->
  filter is_readFile (calls l) = flat_map (descriptor opts) (parsed_prefix lines).
Proof. apply readFile_calls. Qed.

Lemma remove_in_cleanup opts p :
  In (EvRemove p) (cleanup_log opts) <->
  p = infile opts /\ firstn 11 (basename (infile opts)) = lit "temp_input_".
Proof.
  unfold cleanup_log.
  destruct (str_eqb (firstn 11 (basename (infile opts))) (lit "temp_input_")) eqn:E.
  - apply str_eqb_eq in E. simpl. split.
    + intros [H|[]]. inversion H. auto.
    + intros [-> _]. left. reflexivity.
  - split; [intros []|]. intros [_ H]. apply str_eqb_eq in H. congruence.
Qed.

Lemma remove_not_quiet (l : list Event) p :
  forallb quiet l = true -> ~ In (EvRemove p) l.
Proof.
  intros H Hin. rewrite forallb_forall in H. specialize (H _ Hin). discriminate H.
Qed.

Lemma removed_iff opts env s r s' l p :
  main opts env s = (r, s', l) ->
  (In (EvRemove p) l <->
   p = infile opts /\
   firstn 11 (basename (infile opts)) = lit "temp_input_" /\
   r = Ok tt /\
   (eyecheck opts = true \/ exists lines, open_r env (infile opts) = inr lines)).
Proof.
  intros H. pose proof (main_finish opts env s) as F. rewrite H in F.
  assert (R : forall ll mid, forallb quiet ll = true ->
            (forall q, ~ In (EvRemove q) mid) ->
            (In (EvRemove p) (opening opts ++ ll ++ closing ++ mid ++ cleanup_log opts)
             <-> In (EvRemove p) (cleanup_log opts))).
  { intros ll mid Hq Hm. rewrite !in_app_iff. split; [|tauto].
    intros [I|[I|[I|[I|I]]]]; [| | | |exact I]; exfalso.
    - simpl in I. repeat destruct I as [I|I]; try discriminate I; exact I.
    - exact (remove_not_quiet _ _ Hq I).
    - simpl in I. repeat destruct I as [I|I]; try discriminate I; exact I.
    - exact (Hm _ I). }
  assert (NQ : forall ll, forallb quiet ll = true ->
            ~ In (EvRemove p) (opening opts ++ ll)).
  { intros ll Hq I. apply in_app_or in I. destruct I as [I|I].
    - simpl in I. repeat destruct I as [I|I]; try discriminate I; exact I.
    - exact (remove_not_quiet _ _ Hq I). }
  assert (K : In (EvRemove p) (cleanup_log opts) <->
              p = infile opts /\
              firstn 11 (basename (infile opts)) = lit "temp_input_")
    by apply remove_in_cleanup.
  inversion F; subst;
    try match goal with L : loop _ _ _ _ _ _ = _ |- _ =>
      pose proof (loop_quiet _ _ _ _ _ _ _ _ _ L) as Hq end.
  - (* skip *)
    split.
    + intros [I|I]; [discriminate I|]. apply K in I. tauto.
    + intros [E [T _]]. right. apply K. auto.
  - (* skip, the manifest cannot be removed *)
    split.
    + intros [I|[]]. discriminate I.
    + intros [_ [_ [E _]]]. discriminate E.
  - (* no manifest *)
    split.
    + intros [I|[]]. discriminate I.
    + intros [_ [_ [_ [E|[lines E]]]]]; congruence.
  - (* exception *)
    split.
    + intros I. exfalso. exact (NQ ll Hq I).
    + intros [_ [_ [E _]]]. discriminate E.
  - (* nothing rejected *)
    etransitivity; [refine (R ll [EvEyecheck] Hq _)|].
    + intros q [I|[]]. discriminate I.
    + rewrite K. split; [intros [? ?]|tauto]. repeat split; eauto.
  - (* [i] unbound *)
    split.
    + intros I. exfalso.
      assert (I' : In (EvRemove p)
                     ((opening opts ++ ll) ++ closing
                      ++ [EvNotify (useGUI opts) (preamble ++ m)])).
      { rewrite <- app_assoc. exact I. }
      apply in_app_or in I'. destruct I' as [I'|I']; [exact (NQ ll Hq I')|].
      simpl in I'. repeat destruct I' as [I'|I']; try discriminate I'; exact I'.
    + intros [_ [_ [E _]]]. discriminate E.
  - (* everything rejected *)
    etransitivity;
      [refine (R ll [EvNotify (useGUI opts) (preamble ++ m);
                     EvNotify (useGUI opts) all_bad] Hq _)|].
    + intros q [I|[I|[]]]; discriminate I.
    + rewrite K. split; [intros [? ?]|tauto]. repeat split; eauto.
  - (* some accepted *)
    etransitivity;
      [refine (R ll [EvNotify (useGUI opts) (preamble ++ m); EvEyecheck] Hq _)|].
    + intros q [I|[I|[]]]; discriminate I.
    + rewrite K. split; [intros [? ?]|tauto]. repeat split; eauto.
Qed.

(** X7.  [main] removes a file only at the end of a run that returns, the
    file is the manifest, and it is removed exactly when its base name
    begins with [temp_input_] and the run was a skip to the review or
    opened the manifest.  Nothing is removed when the manifest could not
    be opened or when an exception left the loop. *)
Theorem manifest_removed_iff opts env s r s' l p :
  main opts env s = (r, s', l) ->
  (In (EvRemove p) l <->
   p = infile opts /\
   firstn 11 (basename (infile opts)) = lit "temp_input_" /\
   r = Ok tt /\
   (eyecheck opts = true \/ exists lines, open_r env (infile opts) = inr lines)).
Proof. apply removed_iff. Qed.

(** X8.  A spectrum that does not load gets the reject row
    [fname,ftype,N/A] and one entry in the reject message, which is one
    line whatever line breaks the message of [readFile] holds; no other
    method is called and the result file is not written. *)
Theorem load_failure_rejected opts i line msg s fname ftype message s1 :
  parse_line line = Ok (fname, ftype) ->
  readFile (spectraPath opts ++ fname) ftype s = ((false, message), s1) ->
  let entry := lit "FILE: " ++ fname ++ lit "  REASON: "
               ++ remove_all newline message ++ [newline] in
  process_line opts i line msg s =
    (Ok (msg ++ entry), s1,
     [EvPrint (str_of_Z (Z.of_nat i + 1) ++ lit ") Processing " ++ basename fname);
      EvCall (ReadFile (spectraPath opts ++ fname) ftype);
      EvWrite Rejectfile (fname ++ [comma] ++ ftype ++ [comma] ++ lit "N/A" ++ [newline])])
  /\ count newline entry = 1.
Proof.
  intros P R entry. split.
  - pose proof (process_line_turn opts i line msg s) as T.
    inversion T; subst; same; try congruence. reflexivity.
  - apply count_load_reason. exact (parse_line_fname_one_line _ _ _ P).
Qed.

(** X9.  A skip to the review does nothing but start the review and
    clean up.  The manifest is not opened, no output file is opened or
    written, no method of the Spectrum object is called, and the object
    is handed to the review as it was.  [main] then returns, unless the
    name of the manifest begins with [temp_input_] and the file cannot
    be removed (it need not be there: nothing has opened it): then
    [os.remove] raises after the review, and nothing is removed. *)
Theorem skip_goes_to_review opts env s r s' l :
  eyecheck opts = true ->
  main opts env s = (r, s', l) ->
  s' = s /\
  hd_error l = Some EvEyecheck /\
  calls l = [] /\
  written Outfile l = [] /\
  written Rejectfile l = [] /\
  (forall h p, ~ In (EvOpen h p) l) /\
  (r = Ok tt <-> (temp_named opts = true -> can_remove env (infile opts) = true)) /\
  (r = Raise OSError <->
   temp_named opts = true /\ can_remove env (infile opts) = false) /\
  (r = Raise OSError -> l = [EvEyecheck]).
Proof.
  intros Ey H. pose proof (main_finish opts env s) as F. rewrite H in F.
  assert (NO : forall h p, ~ In (EvOpen h p) (cleanup_log opts)).
  { intros h p. unfold cleanup_log. destruct (str_eqb _ _); simpl; [|tauto].
    intros [X|[]]. discriminate X. }
  inversion F; subst; try congruence.
  - (* the review, then the clean-up *)
    split; [reflexivity|]. split; [reflexivity|].
    split; [simpl; apply calls_cleanup|].
    split; [simpl; apply written_cleanup|].
    split; [simpl; apply written_cleanup|].
    split; [intros h p [X|X]; [discriminate X|exact (NO h p X)]|].
    split; [split; [intros _; assumption|reflexivity]|].
    split; [|discriminate]. split; [discriminate|].
    intros [T C]. match goal with K : _ -> can_remove _ _ = true |- _ =>
      rewrite (K T) in C end. discriminate C.
  - (* the manifest cannot be removed *)
    split; [reflexivity|]. split; [reflexivity|].
    split; [reflexivity|]. split; [reflexivity|]. split; [reflexivity|].
    split; [intros h p [X|[]]; discriminate X|].
    split; [split; [discriminate|]|].
    + intros K. match goal with C : can_remove _ _ = false |- _ =>
        rewrite K in C; [discriminate C|assumption] end.
    + split; [|reflexivity]. split; [intros _; split; assumption|reflexivity].
Qed.

Lemma letterSpt_one_line (g : Guess) : ~ In newline (letterSpt g).
Proof.
  unfold letterSpt. destruct (specType g); simpl; intros [H|[]]; discriminate H.
Qed.

Lemma turn_one_line opts i line msg s r s' l :
  str_one_line -> format_one_line ->
  turn opts i line msg s (r, s', l) ->
  forall h, Forall (fun d => count newline d = 1) (written h l).
Proof.
  intros SL FL T h.
  assert (RR : forall fname ftype v, parse_line line = Ok (fname, ftype) ->
            ~ In newline v -> count newline (reject_row fname ftype v) = 1).
  { intros fname ftype v P Hv. unfold reject_row. rewrite !count_app.
    rewrite (count_not_in _ _ (parse_line_fname_one_line _ _ _ P)), (count_not_in _ _ Hv).
    pose proof (parse_line_ftype_word _ _ _ P) as Hf.
    rewrite (count_not_in _ ftype); [reflexivity|].
    apply no_space_not_in; [reflexivity|exact Hf]. }
  assert (OR : forall fname ftype shift g, parse_line line = Ok (fname, ftype) ->
            count newline (out_row fname shift g) = 1).
  { intros fname ftype shift g P. unfold out_row. rewrite !count_app.
    rewrite (count_not_in _ _ (parse_line_fname_one_line _ _ _ P)).
    rewrite !(count_not_in _ _ (SL _)), (count_not_in _ _ (FL _)).
    rewrite (count_not_in _ _ (letterSpt_one_line g)). reflexivity. }
  inversion T; subst; destruct h; simpl; repeat constructor;
    first [eapply RR; [eassumption|] | eapply OR; eassumption];
    first [apply SL | intros [H|[H|[H|[]]]]; discriminate H].
Qed.

Lemma loop_one_line opts lines : str_one_line -> format_one_line ->
  forall i msg last s r s' l,
  loop opts i lines msg last s = (r, s', l) ->
  forall h, Forall (fun d => count newline d = 1) (written h l).
Proof.
  intros SL FL. induction lines as [|line rest IH]; intros i msg last s r s' l H h.
  - inversion H. constructor.
  - rewrite loop_cons in H.
    pose proof (process_line_turn opts i line msg s) as T.
    destruct (process_line opts i line msg s) as [[[m|e] s1] l1].
    + destruct (loop opts (Datatypes.S i) rest m (Some i) s1) as [[r2 s2] l2] eqn:E.
      inversion H; subst. rewrite written_app. apply Forall_app. split.
      * exact (turn_one_line _ _ _ _ _ _ _ _ SL FL T h).
      * exact (IH _ _ _ _ _ _ _ E h).
    + inversion H; subst. exact (turn_one_line _ _ _ _ _ _ _ _ SL FL T h).
Qed.

Lemma main_one_line (SL : str_one_line) (FL : format_one_line)
    opts env s r s' l :
  main opts env s = (r, s', l) ->
  Forall (fun d => count newline d = 1) (written Outfile l) /\
  Forall (fun d => count newline d = 1) (written Rejectfile l).
Proof.
  intros H.
  assert (G : forall h, h <> Infile -> Forall (fun d => count newline d = 1) (written h l)).
  { intros h Hh. destruct (eyecheck opts) eqn:Ey.
    - pose proof (main_finish opts env s) as F. rewrite H in F.
      inversion F; subst; try congruence; [|constructor].
      simpl. rewrite written_cleanup. constructor.
    - destruct (open_r env (infile opts)) as [e|lines] eqn:Op.
      + pose proof (main_finish opts env s) as F. rewrite H in F.
        inversion F; subst; try congruence. constructor.
      + destruct (main_shape _ _ _ _ _ _ _ Ey Op H) as [r0 [ll [tail [Lp [-> T]]]]].
        rewrite !written_app. apply Forall_app. split; [|apply Forall_app; split].
        * destruct h; [congruence| |]; repeat constructor.
        * exact (loop_one_line _ _ SL FL _ _ _ _ _ _ _ Lp h).
        * destruct T as [[e [_ [_ ->]]]|[v [late [_ [-> Hl]]]]]; [constructor|].
          rewrite written_app, (late_written _ _ Hl).
          destruct h; constructor. }
  split; apply G; discriminate.
Qed.

(** X10.  Every string [main] writes to the result file or to the reject
    file, header or row, is one line: it holds one line break, so each
    file has as many lines as it had writes.  This rests on the text of
    a number holding no line break. *)
Theorem one_line_per_write (SL : str_one_line) (FL : format_one_line)
    opts env s r s' l :
  main opts env s = (r, s', l) ->
  Forall (fun d => count newline d = 1) (written Outfile l) /\
  Forall (fun d => count newline d = 1) (written Rejectfile l).
Proof. apply main_one_line; assumption. Qed.

Lemma loop_bound_i opts lines m s s1 ll :
  loop opts 0 lines [] None s = (Ok (m, None), s1, ll) -> m = [].
Proof.
  intros Lp.
  destruct (loop_ok _ _ _ _ _ _ _ _ _ _ Lp) as [_ [La [tail [-> [Z _]]]]].
  destruct lines; [|discriminate La].
  inversion Lp; subst. reflexivity.
Qed.

Lemma main_result opts env s lines :
  eyecheck opts = false ->
  open_r env (infile opts) = inr lines ->
  (run_result (main opts env s) = Ok tt <-> forallb parses lines = true) /\
  (run_result (main opts env s) = Ok tt \/
   run_result (main opts env s) = Raise ValueError).
Proof.
  intros Ey Op. pose proof (main_finish opts env s) as F.
  destruct (main opts env s) as [[r s'] l] eqn:H. unfold run_result. simpl.
  split.
  - split.
    + intros ->. inversion F; subst; try congruence; same;
        match goal with L : loop _ _ _ _ _ _ = _ |- _ =>
          destruct (loop_ok _ _ _ _ _ _ _ _ _ _ L) as [PP _] end;
        apply parsed_prefix_all_inv; exact PP.
    + intros A. inversion F; subst; try congruence; same; try reflexivity; exfalso.
      * match goal with L : loop _ _ _ _ _ _ = _ |- _ =>
          destruct (loop_raise _ _ _ _ _ _ _ _ _ L) as [_ Lt] end.
        rewrite (parsed_prefix_all _ A) in Lt. lia.
      * match goal with L : loop _ _ _ _ _ _ = _ |- _ => apply loop_bound_i in L end.
        congruence.
  - inversion F; subst; try congruence; auto.
    + match goal with L : loop _ _ _ _ _ _ = _ |- _ =>
        destruct (loop_raise _ _ _ _ _ _ _ _ _ L) as [-> _] end. auto.
    + exfalso. match goal with L : loop _ _ _ _ _ _ = _ |- _ => apply loop_bound_i in L end.
      congruence.
Qed.


End Further.

(** ** The further facts on sample runs *)

Lemma comma_separator_as_blank_witness :
  parse_line (lit "dir one/star001.fits" ++ comma :: lit "obs")
  = parse_line (lit "dir one/star001.fits" ++ space :: lit "obs").
Proof.
  exact (comma_separator_as_blank (lit "dir one/star001.fits") (lit "obs")
           ltac:(vm_compute; reflexivity)).
Defined.

Lemma parse_line_padding_witness :
  parse_line ([chr 9; space] ++ lit "star001.fits obs" ++ [chr 13; newline])
  = parse_line (lit "star001.fits obs").
Proof.
  exact (parse_line_padding [chr 9; space] (lit "star001.fits obs") [chr 13; newline]
           ltac:(repeat constructor) ltac:(repeat constructor)).
Defined.

Lemma parsed_fields_shape_witness :
  lit "sdss" <> [] /\ no_space (lit "sdss") /\
  well_spaced true (lit "my dir/star 1.fits") = true.
Proof.
  exact (parsed_fields_shape (lit "  my  dir/star 1.fits   sdss")
           (lit "my dir/star 1.fits") (lit "sdss") eq_refl).
Defined.

Lemma parsed_fields_comma_free_witness :
  ~ In comma (lit "a b") /\ ~ In comma (lit "obs").
Proof.
  exact (parsed_fields_comma_free (lit "a,b,obs") (lit "a b") (lit "obs")
           ltac:(vm_compute; discriminate) eq_refl).
Defined.

Lemma notices_come_last_witness :
  exists work late,
    run_log (toy_main (Some 5%Z) (lit "in.txt") sample_lines) = work ++ late /\
    forallb (fun e => negb (is_late e)) work = true /\
    forallb is_late late = true.
Proof.
  exact (@notices_come_last Z_numeric toy_spectrum
           (toy_options (Some 5%Z) (lit "in.txt")) (toy_env (lit "in.txt") sample_lines)
           toy_start
           (run_result (toy_main (Some 5%Z) (lit "in.txt") sample_lines))
           (run_state (toy_main (Some 5%Z) (lit "in.txt") sample_lines))
           (run_log (toy_main (Some 5%Z) (lit "in.txt") sample_lines))
           eq_refl).
Defined.

Lemma each_line_loaded_once_witness :
  filter is_readFile (calls (run_log (toy_main (Some 5%Z) (lit "in.txt") broken_lines)))
  = [@ReadFile Z_numeric (lit "star001.fits") (lit "obs")].
Proof.
  exact (@each_line_loaded_once Z_numeric toy_spectrum
           (toy_options (Some 5%Z) (lit "in.txt")) (toy_env (lit "in.txt") broken_lines)
           toy_start
           (run_result (toy_main (Some 5%Z) (lit "in.txt") broken_lines))
           (run_state (toy_main (Some 5%Z) (lit "in.txt") broken_lines))
           (run_log (toy_main (Some 5%Z) (lit "in.txt") broken_lines))
           broken_lines eq_refl eq_refl eq_refl).
Defined.

Lemma manifest_removed_iff_witness :
  In (EvRemove (lit "temp_input_1.txt"))
     (run_log (toy_main None (lit "temp_input_1.txt") sample_lines)).
Proof.
  apply (proj2 (@manifest_removed_iff Z_numeric toy_spectrum
           (toy_options None (lit "temp_input_1.txt"))
           (toy_env (lit "temp_input_1.txt") sample_lines) toy_start
           (run_result (toy_main None (lit "temp_input_1.txt") sample_lines))
           (run_state (toy_main None (lit "temp_input_1.txt") sample_lines))
           (run_log (toy_main None (lit "temp_input_1.txt") sample_lines))
           (lit "temp_input_1.txt") eq_refl)).
  split; [reflexivity|]. split; [reflexivity|]. split; [reflexivity|].
  right. exists sample_lines. reflexivity.
Defined.

Lemma load_failure_rejected_witness :
  @process_line Z_numeric toy_spectrum (toy_options (Some 5%Z) (lit "in.txt")) 2
    (lit "nowhere.fits obs" ++ [newline]) [] toy_start
  = (Ok (lit "FILE: nowhere.fits  REASON: No such file:nowhere.fits" ++ [newline]),
     toy_start,
     [EvPrint (lit "3) Processing nowhere.fits");
      EvCall (ReadFile (lit "nowhere.fits") (lit "obs"));
      EvWrite Rejectfile (lit "nowhere.fits,obs,N/A" ++ [newline])])
  /\ count newline (lit "FILE: nowhere.fits  REASON: No such file:nowhere.fits" ++ [newline]) = 1.
Proof.
  exact (@load_failure_rejected Z_numeric toy_spectrum
           (toy_options (Some 5%Z) (lit "in.txt")) 2
           (lit "nowhere.fits obs" ++ [newline]) [] toy_start
           (lit "nowhere.fits") (lit "obs")
           (lit "No such file:" ++ [newline] ++ lit "nowhere.fits" ++ [newline])
           toy_start eq_refl eq_refl).
Defined.

Lemma skip_goes_to_review_witness :
  run_result (@main Z_numeric toy_spectrum skip_options
                (toy_env (lit "in.txt") sample_lines) toy_start)
  = Raise OSError /\
  run_log (@main Z_numeric toy_spectrum skip_options
             (toy_env (lit "in.txt") sample_lines) toy_start)
  = [EvEyecheck].
Proof.
  pose proof (@skip_goes_to_review Z_numeric toy_spectrum skip_options
                (toy_env (lit "in.txt") sample_lines) toy_start
                _ _ _ eq_refl eq_refl)
    as [_ [_ [_ [_ [_ [_ [_ [H1 H2]]]]]]]].
  split; [apply H1; split; reflexivity|apply H2, H1; split; reflexivity].
Defined.

Lemma Z_format_one_line : @format_one_line Z_numeric.
Proof.
  intros z. simpl. unfold Z_format. rewrite !in_app_iff. intros [H|[H|H]].
  - destruct (z <? 0)%Z; destruct H as [H|[]]; discriminate H.
  - exact (Z_str_one_line _ H).
  - destruct H as [H|[H|[]]]; discriminate H.
Qed.

Lemma one_line_per_write_witness :
  let l := run_log (toy_main (Some 5%Z) (lit "in.txt") sample_lines) in
  Forall (fun d => count newline d = 1) (written Outfile l) /\
  Forall (fun d => count newline d = 1) (written Rejectfile l).
Proof.
  exact (@one_line_per_write Z_numeric toy_spectrum Z_str_one_line Z_format_one_line
           (toy_options (Some 5%Z) (lit "in.txt")) (toy_env (lit "in.txt") sample_lines)
           toy_start
           (run_result (toy_main (Some 5%Z) (lit "in.txt") sample_lines))
           (run_state (toy_main (Some 5%Z) (lit "in.txt") sample_lines))
           (run_log (toy_main (Some 5%Z) (lit "in.txt") sample_lines))
           eq_refl).
Defined.

(** ** From a path and a format tag to a manifest line and back *)

Lemma join_cons_more sep t ts :
  ts <> [] -> join sep (t :: ts) = t ++ sep ++ join sep ts.
Proof. destruct ts; [congruence|reflexivity]. Qed.

Lemma join_split_from s : forall cur,
  well_spaced (match cur with [] => true | _ :: _ => false end) s = true ->
  split_from cur s <> [] /\ join [space] (split_from cur s) = rev cur ++ s.
Proof.
  induction s as [|c r IH]; intros cur H; simpl in *.
  - destruct cur as [|x cur]; [discriminate H|]. simpl.
    split; [discriminate|]. rewrite app_nil_r. reflexivity.
  - destruct (isspace c) eqn:Hc.
    + destruct cur as [|x cur]; [discriminate H|]. simpl in H.
      destruct (Ascii.eqb c space) eqn:Es; [|discriminate H]. simpl in H.
      apply Ascii.eqb_eq in Es. subst c.
      destruct (IH [] H) as [Hn E]. simpl flush.
      split; [discriminate|].
      rewrite join_cons_more by exact Hn. rewrite E. reflexivity.
    + destruct (IH (c :: cur)) as [Hn E].
      * destruct cur; exact H.
      * split; [exact Hn|]. rewrite E. simpl. rewrite <- app_assoc. reflexivity.
Qed.

Lemma split_from_word t : forall cur,
  no_space t -> split_from cur t = flush (rev t ++ cur) [].
Proof.
  induction t as [|c t IH]; intros cur H; [reflexivity|].
  inversion H; subst. simpl. rewrite H2. rewrite IH by assumption.
  rewrite <- app_assoc. reflexivity.
Qed.

Lemma split_from_snoc_word s t : no_space t -> t <> [] ->
  forall cur, split_from cur (s ++ space :: t) = split_from cur s ++ [t].
Proof.
  intros Ht Hn. induction s as [|c s IH]; intros cur; simpl.
  - rewrite split_from_word by exact Ht. rewrite app_nil_r.
    assert (E : flush (rev t) [] = [t]).
    { destruct (rev t) eqn:R.
      - apply (f_equal (@rev ascii)) in R. rewrite rev_involutive in R. contradiction.
      - apply (f_equal (@rev ascii)) in R. rewrite rev_involutive in R.
        subst t. reflexivity. }
    rewrite E. destruct cur; reflexivity.
  - destruct (isspace c).
    + rewrite IH. destruct cur; reflexivity.
    + apply IH.
Qed.

Lemma find_not_in c s : find c s = (-1)%Z <-> ~ In c s.
Proof.
  induction s as [|x s IH]; simpl; [tauto|].
  destruct (Ascii.eqb x c) eqn:E.
  - apply Ascii.eqb_eq in E. split; [discriminate|]. intros H. exfalso. apply H. auto.
  - apply Ascii.eqb_neq in E. destruct (Z.ltb_spec (find c s) 0) as [L|L].
    + split; [|reflexivity]. intros _ [H|H]; [congruence|].
      destruct (find_range c s) as [F|F]; [|lia]. apply IH in F. contradiction.
    + split; [lia|]. intros H. exfalso.
      assert (Hs : ~ In c s) by tauto. apply IH in Hs. lia.
Qed.

Lemma strip_in c s : In c (strip s) -> In c s.
Proof.
  intros H. destruct (strip_blank s) as [a [b [_ [_ E]]]]. rewrite E.
  apply in_or_app. right. apply in_or_app. left. exact H.
Qed.

Lemma strip_keeps c s : isspace c = false -> In c s -> In c (strip s).
Proof.
  intros Hc H. destruct (strip_blank s) as [a [b [Ha [Hb E]]]]. rewrite E in H.
  apply in_app_or in H. destruct H as [H|H].
  - exfalso. unfold blank in Ha. rewrite Forall_forall in Ha. specialize (Ha _ H). congruence.
  - apply in_app_or in H. destruct H as [H|H]; [exact H|].
    exfalso. unfold blank in Hb. rewrite Forall_forall in Hb. specialize (Hb _ H). congruence.
Qed.

Lemma well_spaced_head fname :
  well_spaced true fname = true ->
  exists c r, fname = c :: r /\ isspace c = false.
Proof.
  destruct fname as [|c r]; simpl; [discriminate|].
  destruct (isspace c) eqn:Hc; [discriminate|]. eauto.
Qed.

(** X12.  The parser undoes the writing of a manifest line: a path that
    is single-spaced and a format tag that is one word, neither holding a
    comma, put together with a blank or with a comma between them, parse
    to that very path and tag. *)
Theorem parse_line_round_trip fname ftype :
  well_spaced true fname = true -> ~ In comma fname ->
  no_space ftype -> ftype <> [] -> ~ In comma ftype ->
  parse_line (fname ++ space :: ftype) = Ok (fname, ftype) /\
  parse_line (fname ++ comma :: ftype) = Ok (fname, ftype).
Proof.
  intros W Cf Wt Nt Ct.
  assert (B : parse_line (fname ++ space :: ftype) = Ok (fname, ftype)).
  { destruct (join_split_from fname [] W) as [Hn J]. simpl in J.
    rewrite <- J at 2. apply parse_line_ok; [|exact Hn].
    rewrite tokens_replace.
    - rewrite find_none.
      + unfold split. apply split_from_snoc_word; assumption.
      + apply find_not_in. intros H. apply in_app_or in H.
        destruct H as [H|[H|H]]; [tauto|discriminate H|tauto].
    - intros Z. apply find_zero in Z.
      assert (I : In comma (strip (fname ++ space :: ftype))).
      { destruct (strip (fname ++ space :: ftype)); [discriminate Z|].
        inversion Z. left. reflexivity. }
      apply strip_in in I. apply in_app_or in I.
      destruct I as [H|[H|H]]; [tauto|discriminate H|tauto]. }
  split; [exact B|]. rewrite <- B. apply comma_line_as_blank_line.
  destruct (well_spaced_head _ W) as [c [r [E Hc]]].
  destruct (find_range comma (strip (fname ++ comma :: ftype))) as [F|F].
  - exfalso. apply find_not_in in F. apply F. apply strip_keeps; [reflexivity|].
    apply in_or_app. right. left. reflexivity.
  - assert (Z : find comma (strip (fname ++ comma :: ftype)) <> 0%Z); [|lia].
    intros Z. apply find_zero in Z. rewrite strip_head in Z.
    rewrite E in Z. simpl in Z. rewrite Hc in Z. inversion Z. subst c.
    apply Cf. rewrite E. left. reflexivity.
Qed.

Lemma parse_line_round_trip_witness :
  parse_line (lit "my dir/star 1.fits" ++ space :: lit "sdss")
    = Ok (lit "my dir/star 1.fits", lit "sdss") /\
  parse_line (lit "my dir/star 1.fits" ++ comma :: lit "sdss")
    = Ok (lit "my dir/star 1.fits", lit "sdss").
Proof.
  exact (parse_line_round_trip (lit "my dir/star 1.fits") (lit "sdss") eq_refl
           ltac:(vm_compute; intuition discriminate)
           ltac:(repeat constructor) ltac:(discriminate)
           ltac:(vm_compute; intuition discriminate)).
Defined.

(** ** The settings window: where the user can get to *)

Section GuiFacts.

Context {N : Numeric}.

Lemma gui_init_inv options : gui_inv (gui_init options).
Proof.
  unfold gui_inv, gui_init, Gui.updateGUI. simpl.
  repeat split; lia.
Qed.

Lemma panel_full_path (cur : Z) (p yes : bool) :
  Gui.is_shown (if yes then Gui.FullPathYes else Gui.FullPathNo) (Gui.panel cur p) = true ->
  cur = 3%Z.
Proof.
  unfold Gui.panel.
  destruct (Z.eqb_spec cur 0); [destruct yes, p; discriminate|].
  destruct (Z.eqb_spec cur 1); [destruct yes; discriminate|].
  destruct (Z.eqb_spec cur 2); [destruct yes; discriminate|].
  destruct (Z.eqb_spec cur 3); [auto|].
  destruct (Z.eqb_spec cur 4); [destruct yes; discriminate|].
  destruct (Z.eqb_spec cur 5); [destruct yes; discriminate|].
  destruct (Z.eqb_spec cur 6); destruct yes; discriminate.
Qed.

Lemma panel_eyecheck (cur : Z) (p yes : bool) :
  Gui.is_shown (if yes then Gui.EyecheckYes else Gui.EyecheckNo) (Gui.panel cur p) = true ->
  cur = 5%Z.
Proof.
  unfold Gui.panel.
  destruct (Z.eqb_spec cur 0); [destruct yes, p; discriminate|].
  destruct (Z.eqb_spec cur 1); [destruct yes; discriminate|].
  destruct (Z.eqb_spec cur 2); [destruct yes; discriminate|].
  destruct (Z.eqb_spec cur 3); [destruct yes; discriminate|].
  destruct (Z.eqb_spec cur 4); [destruct yes; discriminate|].
  destruct (Z.eqb_spec cur 5); [auto|].
  destruct (Z.eqb_spec cur 6); destruct yes; discriminate.
Qed.

Lemma updateGUI_inv (g : Gui.State) :
  Gui.firstSetting g = 0%Z ->
  (Gui.lastSetting g = 5 \/ Gui.lastSetting g = 6)%Z ->
  (Gui.fullPath g = 1%Z -> Gui.curSetting g <> 4%Z) ->
  (Gui.eyecheck g = 1%Z -> Gui.curSetting g < 6 \/ Gui.lastSetting g = 5)%Z ->
  gui_inv (Gui.updateGUI g).
Proof.
  intros F L P E. unfold gui_inv, Gui.updateGUI. simpl. rewrite F.
  repeat split; lia.
Qed.

Lemma gui_step_inv (g : Gui.State) (a : Gui.Action) :
  gui_inv g -> Gui.enabled g a = true -> gui_inv (Gui.act g a).
Proof.
  intros [F [R [L [P [E [B V]]]]]] En. destruct a; simpl in *.
  - (* Next *)
    unfold Gui.nextOption. apply updateGUI_inv; simpl; try assumption.
    + destruct ((_ >=? 5)%Z && _); auto.
    + intros H. rewrite H. simpl. rewrite andb_true_r.
      destruct (Z.eqb_spec (Gui.curSetting g + 1) 4); lia.
    + intros H. rewrite H. simpl. rewrite andb_true_r.
      destruct (Z.geb_spec
                  (if ((Gui.curSetting g + 1 =? 4) && (Gui.fullPath g =? 1))%Z
                   then (Gui.curSetting g + 1 + 1)%Z else (Gui.curSetting g + 1)%Z) 5);
        [right; reflexivity|left; lia].
  - (* Prev *)
    unfold Gui.prevOption. apply updateGUI_inv; simpl; try assumption.
    + intros H. rewrite H. simpl. rewrite andb_true_r.
      destruct (Z.eqb_spec (Gui.curSetting g - 1) 4); lia.
    + intros H. left.
      destruct ((Gui.curSetting g - 1 =? 4) && (Gui.fullPath g =? 1))%Z; lia.
  - (* Create *)
    unfold Gui.createInputFile. apply updateGUI_inv; simpl; try assumption.
    intros H. specialize (E H). left. lia.
  - (* full path *)
    rewrite V in En. apply panel_full_path in En.
    unfold gui_inv. simpl. repeat split; try assumption; try lia.
  - (* eyecheck *)
    rewrite V in En. apply panel_eyecheck in En.
    unfold gui_inv. simpl. repeat split; try assumption; try lia.
  - unfold gui_inv. simpl. repeat split; assumption || lia.
  - unfold gui_inv. simpl. repeat split; assumption || lia.
  - unfold Gui.applyType. destruct (str_eqb (Gui.dataType g) []);
      unfold gui_inv; simpl; repeat split; assumption || lia.
  - unfold gui_inv. simpl. repeat split; assumption || lia.
Qed.

Lemma gui_run_inv (acts : list Gui.Action) : forall g g',
  gui_inv g -> Gui.run g acts = Some g' -> gui_inv g'.
Proof.
  induction acts as [|a acts IH]; intros g g' I H; simpl in H.
  - inversion H; subst. exact I.
  - destruct (Gui.enabled g a) eqn:En; [|discriminate H].
    exact (IH _ _ (gui_step_inv _ _ I En) H).
Qed.

(** X13.  Whatever the user does in the settings window, the setting on
    display is one of the seven, none beyond the last one allowed, the
    frame shows the widgets of that setting and no others, and the
    Previous button is disabled exactly on the first setting. *)
Theorem settings_in_range options g :
  gui_reachable options g ->
  (0 <= Gui.curSetting g <= Gui.lastSetting g)%Z /\
  (Gui.lastSetting g <= 6)%Z /\
  Gui.shown g = Gui.panel (Gui.curSetting g) (Gui.createPressed g) /\
  Gui.prevEnabled g = negb (Gui.curSetting g =? 0)%Z.
Proof.
  intros [acts H].
  destruct (gui_run_inv _ _ _ (gui_init_inv options) H) as [F [R [L [P [E [B V]]]]]].
  repeat split; try assumption; lia.
Qed.

(** X14.  The window never asks for what the other answers make
    pointless: the path to the spectra is not on display while the user
    has said the manifest gives full paths, and the S/N cut is not on
    display while the user has chosen to skip to the eyecheck. *)
Theorem settings_skipped options g :
  gui_reachable options g ->
  (Gui.fullPath g = 1%Z -> Gui.curSetting g <> 4%Z) /\
  (Gui.eyecheck g = 1%Z -> Gui.curSetting g <> 6%Z).
Proof.
  intros [acts H].
  destruct (gui_run_inv _ _ _ (gui_init_inv options) H) as [F [R [L [P [E [B V]]]]]].
  split; assumption.
Qed.

End GuiFacts.

(** ** From the settings window to [main] *)

Lemma last4_nonempty (s : str) : s <> [] -> last4 s <> [].
Proof.
  intros H E. unfold last4 in E.
  assert (L : length (skipn (length s - 4) s) = 0) by (rewrite E; reflexivity).
  rewrite length_skipn in L. destruct s; [congruence|]. simpl length in L. lia.
Qed.

Lemma ends_with_extension (name : str) :
  ends_with (lit ".csv") (with_extension name (lit ".csv")) = true.
Proof.
  unfold with_extension, ends_with. change (length (lit ".csv")) with 4.
  destruct (str_eqb (last4 name) (lit ".csv")) eqn:E; unfold times; simpl negb; cbv iota.
  - rewrite app_nil_r. change (skipn (length name - 4) name) with (last4 name).
    rewrite E. apply str_eqb_eq in E.
    assert (L : length (last4 name) = 4) by (rewrite E; reflexivity).
    unfold last4 in L. rewrite length_skipn in L.
    assert (Hl : (4 <=? length name) = true) by (apply Nat.leb_le; lia).
    rewrite Hl. reflexivity.
  - rewrite length_app. change (length (lit ".csv")) with 4.
    replace (length name + 4 - 4) with (length name + 0) by lia.
    rewrite skipn_app, Nat.add_0_r, skipn_all.
    replace (length name - length name) with 0 by lia.
    change (skipn 0 (lit ".csv")) with (lit ".csv"). rewrite app_nil_l.
    replace (str_eqb (lit ".csv") (lit ".csv")) with true by reflexivity.
    assert (Hl : (4 <=? length name + 4) = true) by (apply Nat.leb_le; lia).
    rewrite Hl. reflexivity.
Qed.

Lemma with_slash_ends (path out : str) :
  with_slash path = Done out ->
  ends_with [backslash] out = true \/ ends_with [slash] out = true.
Proof.
  unfold with_slash, last_char. destruct (rev path) as [|c r] eqn:R; [discriminate|].
  simpl. intros H. inversion H; subst. clear H.
  assert (P : path = rev r ++ [c]).
  { apply (f_equal (@rev ascii)) in R. rewrite rev_involutive in R. exact R. }
  assert (K : forall (p : str) (x : ascii), ends_with [x] (p ++ [x]) = true).
  { intros p x. unfold ends_with. rewrite length_app.
    change (length [x]) with 1.
    assert (Hl : (1 <=? length p + 1) = true) by (apply Nat.leb_le; lia).
    rewrite Hl. replace (length p + 1 - 1) with (length p + 0) by lia.
    rewrite skipn_app, Nat.add_0_r, skipn_all.
    replace (length p - length p) with 0 by lia.
    change (skipn 0 [x]) with [x]. rewrite app_nil_l.
    unfold str_eqb. destruct (list_eq_dec ascii_dec [x] [x]); [reflexivity|congruence]. }
  destruct (Ascii.eqb c backslash) eqn:B; simpl.
  - apply Ascii.eqb_eq in B. subst c. left. rewrite P. apply K.
  - destruct (Ascii.eqb c slash) eqn:Sl.
    + apply Ascii.eqb_eq in Sl. subst c. right. rewrite P. apply K.
    + left. apply K.
Qed.

Lemma with_slash_total (path : str) : path <> [] -> exists out, with_slash path = Done out.
Proof.
  intros H. unfold with_slash, last_char. destruct (rev path) eqn:R.
  - apply (f_equal (@rev ascii)) in R. rewrite rev_involutive in R. contradiction.
  - simpl. eauto.
Qed.

Lemma string_of_uint_no_slash d :
  ~ In slash (String.list_ascii_of_string (NilEmpty.string_of_uint d)).
Proof.
  induction d; simpl; try tauto;
    intros [H|H]; try discriminate H; exact (IHd H).
Qed.

Lemma str_of_Z_no_slash z : ~ In slash (str_of_Z z).
Proof.
  unfold str_of_Z. destruct (Z.to_int z) as [d|d]; simpl.
  - apply string_of_uint_no_slash.
  - intros [H|H]; [discriminate H|]. exact (string_of_uint_no_slash d H).
Qed.

Lemma temp_name_prefix sys :
  firstn 11 (basename (temp_name sys)) = lit "temp_input_".
Proof.
  unfold basename. rewrite rpartition_none; [reflexivity|].
  unfold temp_name. rewrite !in_app_iff. intros [H|[H|H]].
  - simpl in H. repeat destruct H as [H|H]; try discriminate H; exact H.
  - exact (str_of_Z_no_slash _ H).
  - simpl in H. repeat destruct H as [H|H]; try discriminate H; exact H.
Qed.

Lemma file_lines_blank_line body : forall cur,
  In [newline] (file_lines_from cur (body ++ [newline; newline])).
Proof.
  induction body as [|c body IH]; intros cur; simpl.
  - right. left. reflexivity.
  - destruct (Ascii.eqb c newline); [right|]; apply IH.
Qed.

Section GoToMainFacts.

Context {N : Numeric} {S : Spectrum} {F : FloatReader}.

Lemma check_csv_total (name empty wrong : str) :
  exists m, check_csv name empty wrong = Done m.
Proof.
  unfold check_csv. destruct (str_eqb name []) eqn:E; [eauto|].
  unfold wrong_extension, first_char.
  destruct (last4 name) eqn:L; [|simpl; eauto].
  exfalso. apply (last4_nonempty name); [|exact L].
  intros H. subst name. discriminate E.
Qed.

Lemma gui_run_flags (acts : list Gui.Action) : forall g g',
  gui_flags g -> Gui.run g acts = Some g' -> gui_flags g'.
Proof.
  induction acts as [|a acts IH]; intros g g' I H; simpl in H.
  - inversion H; subst. exact I.
  - destruct (Gui.enabled g a); [|discriminate H].
    apply (IH _ _) in H; [exact H|]. destruct I as [I1 I2].
    destruct a; simpl; unfold gui_flags; simpl; auto.
    + destruct yes; auto.
    + destruct yes; auto.
    + unfold Gui.applyType. destruct (str_eqb _ _); simpl; auto.
Qed.

Lemma gui_reachable_flags options g : gui_reachable options g -> gui_flags g.
Proof.
  intros [acts H]. apply (gui_run_flags _ _ _) in H; [exact H|].
  unfold gui_flags, gui_init. simpl.
  destruct (raw_fullPath options) as [[|]|], (raw_eyecheck options) as [[|]|]; auto.
Qed.


Lemma check_infile_ok sys g :
  check_infile sys g = [] ->
  if Gui.createPressed g
  then Gui.text_of (Gui.createWindow g) <> [newline]
  else Gui.infile g <> [] /\ isfile sys (Gui.infile g) = true.
Proof.
  unfold check_infile. destruct (Gui.createPressed g); simpl.
  - destruct (str_eqb _ [newline]) eqn:E; [discriminate|]. intros _ H.
    apply str_eqb_eq in H. congruence.
  - destruct (str_eqb (Gui.infile g) []) eqn:E; [discriminate|].
    destruct (isfile sys (Gui.infile g)); [|discriminate]. intros _.
    split; [|reflexivity]. intros H. apply str_eqb_eq in H. congruence.
Qed.

Lemma check_spectraPath_ok sys g :
  check_spectraPath sys g = [] -> Gui.fullPath g = 0%Z ->
  Gui.spectraPath g <> [] /\ isdir sys (Gui.spectraPath g) = true.
Proof.
  unfold check_spectraPath. intros H Z. rewrite Z in H. simpl in H.
  destruct (str_eqb (Gui.spectraPath g) []) eqn:E; [discriminate|].
  destruct (isdir sys (Gui.spectraPath g)); [|discriminate].
  split; [|reflexivity]. intros K. apply str_eqb_eq in K. congruence.
Qed.

Lemma check_eyecheck_ok sys g :
  check_eyecheck sys g = [] -> Gui.eyecheck g = 1%Z -> isfile sys (Gui.outfile g) = true.
Proof.
  unfold check_eyecheck. intros H Z. rewrite Z in H. simpl in H.
  destruct (isfile sys (Gui.outfile g)); [reflexivity|discriminate].
Qed.

Lemma check_sncut_ok g v :
  check_sncut g = [] -> Gui.eyecheck g = 0%Z -> Gui.sncut g <> [] ->
  float_of_str (Gui.sncut g) = Some v -> num_ltb v num_zero = false.
Proof.
  unfold check_sncut. intros H Z Ne Fv. rewrite Z, Fv in H. simpl in H.
  destruct (str_eqb (Gui.sncut g) []) eqn:E.
  - apply str_eqb_eq in E. contradiction.
  - simpl in H. destruct (num_ltb v num_zero); [discriminate|reflexivity].
Qed.

(** X16.  What [main] gets from the settings window.  When [goToMain]
    starts [main], the result file and the reject file are the names of
    the entries, with [.csv] put after a name that does not end in it,
    so both end in [.csv]; the skip to the eyecheck is as the radio
    button says; the spectra path is empty when the manifest gives full
    paths, and otherwise it is the path of the entry, an existing
    directory, with a backslash put after it unless it ends in a slash
    or backslash already; the S/N cut is absent on a skip to the
    eyecheck, and otherwise is the number read from the entry, not below
    zero; the manifest is the file of the entry, which exists, or the
    file just written from the text box, which is not empty. *)
Theorem started_options_valid options sys u g created opts :
  gui_reachable options g ->
  goToMain sys u g = Done (Start created opts) ->
  ends_with (lit ".csv") (outfile opts) = true /\
  ends_with (lit ".csv") (rejectfile opts) = true /\
  outfile opts = with_extension (Gui.outfile g) (lit ".csv") /\
  rejectfile opts = with_extension (Gui.rejectfile g) (lit ".csv") /\
  eyecheck opts = (Gui.eyecheck g =? 1)%Z /\
  (Gui.fullPath g = 1%Z -> spectraPath opts = []) /\
  (Gui.fullPath g = 0%Z ->
   isdir sys (Gui.spectraPath g) = true /\
   with_slash (Gui.spectraPath g) = Done (spectraPath opts) /\
   (ends_with [backslash] (spectraPath opts) = true \/
    ends_with [slash] (spectraPath opts) = true)) /\
  (eyecheck opts = true -> sncut opts = None /\ isfile sys (Gui.outfile g) = true) /\
  (forall v, sncut opts = Some v ->
     float_of_str (Gui.sncut g) = Some v /\ num_ltb v num_zero = false) /\
  match created with
  | None => infile opts = Gui.infile g /\ isfile sys (infile opts) = true
  | Some (name, text) =>
      infile opts = name /\ name = temp_name sys /\
      text = Gui.text_of (Gui.createWindow g) /\ text <> [newline]
  end.
Proof.
  intros R H. destruct (gui_reachable_flags _ _ R) as [Ff Fe].
  unfold goToMain in H.
  destruct (check_csv_total (Gui.outfile g) (msg_line "- An output filename was not provided.")
              (msg_line "- The output file must be a csv file.")) as [m1 E1].
  destruct (check_csv_total (Gui.rejectfile g) (msg_line "- A reject filename was not provided.")
              (msg_line "- The reject file must be a csv file.")) as [m2 E2].
  rewrite E1, E2 in H. cbn [and_then] in H.
  destruct (str_eqb _ []) eqn:M; cbn [negb] in H; [|discriminate H].
  apply str_eqb_eq in M.
  apply app_eq_nil in M. destruct M as [M Msn].
  apply app_eq_nil in M. destruct M as [M Mey].
  apply app_eq_nil in M. destruct M as [M Msp].
  apply app_eq_nil in M. destruct M as [M _].
  apply app_eq_nil in M. destruct M as [Min _].
  apply check_infile_ok in Min.
  destruct (if negb (str_eqb (times (Gui.spectraPath g) (negb (Gui.fullPath g =? 1)%Z)) [])
            then with_slash (times (Gui.spectraPath g) (negb (Gui.fullPath g =? 1)%Z))
            else Done (times (Gui.spectraPath g) (negb (Gui.fullPath g =? 1)%Z)))
    as [path|] eqn:P; cbn [and_then] in H; [|discriminate H].
  destruct (if (Gui.eyecheck g =? 1)%Z || str_eqb (Gui.sncut g) []
            then Done None
            else match float_of_str (Gui.sncut g) with
                 | Some v => Done (Some v)
                 | None => Fails BadFloat
                 end) as [cut|] eqn:Q; cbn [and_then] in H; [|discriminate H].
  inversion H; subst created opts. clear H. cbn [infile outfile rejectfile spectraPath eyecheck sncut].
  split; [apply ends_with_extension|]. split; [apply ends_with_extension|].
  split; [reflexivity|]. split; [reflexivity|]. split; [reflexivity|].
  split; [|split; [|split; [|split]]].
  - intros Z. rewrite Z in P. simpl in P. inversion P. reflexivity.
  - intros Z. destruct (check_spectraPath_ok _ _ Msp Z) as [Ne Dir].
    split; [exact Dir|]. rewrite Z in P. simpl in P.
    destruct (str_eqb (Gui.spectraPath g) []) eqn:E.
    + apply str_eqb_eq in E. contradiction.
    + simpl in P. split; [exact P|]. apply with_slash_ends in P. exact P.
  - intros Ey. rewrite Ey in Q. simpl in Q. inversion Q.
    split; [reflexivity|]. apply Z.eqb_eq in Ey.
    exact (check_eyecheck_ok _ _ Mey Ey).
  - intros v Hv. subst cut.
    destruct ((Gui.eyecheck g =? 1)%Z || str_eqb (Gui.sncut g) []) eqn:O; [discriminate Q|].
    apply orb_false_iff in O. destruct O as [O1 O2].
    destruct (float_of_str (Gui.sncut g)) as [w|] eqn:Fw; [|discriminate Q].
    inversion Q; subst w. split; [reflexivity|].
    apply Z.eqb_neq in O1.
    apply (check_sncut_ok g v Msn); [lia| |exact Fw].
    intros E. rewrite E in O2. discriminate O2.
  - destruct (Gui.createPressed g); simpl.
    + repeat split; try reflexivity. exact Min.
    + destruct Min as [_ Min]. split; [reflexivity|exact Min].
Qed.

Lemma with_file_opens env name text :
  open_r (with_file env name text) name = inr (file_lines text).
Proof.
  simpl. unfold str_eqb. destruct (list_eq_dec ascii_dec name name); [reflexivity|congruence].
Qed.

Lemma goToMain_created sys u g name text opts :
  goToMain sys u g = Done (Start (Some (name, text)) opts) ->
  infile opts = name /\ name = temp_name sys /\
  text = Gui.text_of (Gui.createWindow g).
Proof.
  intros H. unfold goToMain in H.
  destruct (check_csv (Gui.outfile g) _ _); cbn [and_then] in H; [|discriminate H].
  destruct (check_csv (Gui.rejectfile g) _ _); cbn [and_then] in H; [|discriminate H].
  destruct (negb (str_eqb _ [])); [discriminate H|].
  destruct (if negb (str_eqb _ []) then _ else _); cbn [and_then] in H; [|discriminate H].
  destruct (if (_ || _) then _ else _); cbn [and_then] in H; [|discriminate H].
  destruct (Gui.createPressed g); simpl in H; inversion H; subst. auto.
Qed.

(** X17.  A manifest typed in the text box is written to a file whose
    name begins with [temp_input_], and [main] removes that file exactly
    when it returns: when [main] is left by an exception, the file
    stays. *)
Theorem typed_manifest_removed sys u g name text opts env s r s' l :
  goToMain sys u g = Done (Start (Some (name, text)) opts) ->
  main opts (with_file env name text) s = (r, s', l) ->
  infile opts = name /\
  firstn 11 (basename name) = lit "temp_input_" /\
  (In (EvRemove name) l <-> r = Ok tt).
Proof.
  intros H M.
  destruct (goToMain_created _ _ _ _ _ _ H) as [Ei [En _]]. split; [exact Ei|].
  assert (T : firstn 11 (basename name) = lit "temp_input_").
  { rewrite En. apply temp_name_prefix. }
  split; [exact T|].
  rewrite (removed_iff opts (with_file env name text) s r s' l name M).
  rewrite Ei. split; [tauto|]. intros Hr. repeat split; try assumption.
  right. exists (file_lines text). apply with_file_opens.
Qed.

(** X18.  A text box that ends with an empty line makes the run fail:
    the manifest written from it ends with a blank line, which does not
    parse, so [main] leaves with a ValueError and the manifest is not
    removed. *)
Theorem typed_manifest_blank_end_fails sys u g name text opts env s ls l0 :
  goToMain sys u g = Done (Start (Some (name, text)) opts) ->
  eyecheck opts = false ->
  Gui.createWindow g = ls ++ [l0; []] ->
  exists s' l,
    main opts (with_file env name text) s = (Raise ValueError, s', l) /\
    ~ In (EvRemove name) l.
Proof.
  intros H Ey W.
  destruct (goToMain_created _ _ _ _ _ _ H) as [Ei [_ Et]].
  assert (B : In [newline] (file_lines text)).
  { rewrite Et, W. unfold Gui.text_of. rewrite flat_map_app.
    replace (flat_map (fun l1 => l1 ++ [newline]) [l0; []])
      with (l0 ++ [newline; newline])
      by (simpl; rewrite <- app_assoc; reflexivity).
    rewrite app_assoc. apply file_lines_blank_line. }
  assert (Op : open_r (with_file env name text) (infile opts) = inr (file_lines text)).
  { rewrite Ei. apply with_file_opens. }
  assert (A : forallb parses (file_lines text) = false).
  { destruct (forallb parses (file_lines text)) eqn:A; [|reflexivity].
    rewrite forallb_forall in A. specialize (A _ B). discriminate A. }
  destruct (main opts (with_file env name text) s) as [[r s'] l] eqn:M.
  destruct (main_result opts (with_file env name text) s _ Ey Op) as [K2 K1].
  rewrite M in K1, K2. unfold run_result in K1, K2. simpl in K1, K2.
  destruct K1 as [K1|K1].
  - apply K2 in K1. congruence.
  - subst r. exists s', l. split; [reflexivity|].
    intros I. apply (removed_iff opts (with_file env name text) s _ s' l name M) in I.
    destruct I as [_ [_ [I _]]]. discriminate I.
Qed.

End GoToMainFacts.

(** ** The settings window on sample sessions *)

Lemma walk_reachable :
  @gui_reachable Z_numeric sample_raw (after walk_full_paths).
Proof. exists walk_full_paths. vm_compute. reflexivity. Qed.

Lemma typed_reachable lines :
  Gui.run (@gui_init Z_numeric sample_raw) (typed_run lines) = Some (after (typed_run lines)) ->
  @gui_reachable Z_numeric sample_raw (after (typed_run lines)).
Proof. intros H. exists (typed_run lines). exact H. Qed.

Lemma settings_in_range_witness :
  (0 <= Gui.curSetting (after walk_full_paths)
     <= Gui.lastSetting (after walk_full_paths))%Z /\
  (Gui.lastSetting (after walk_full_paths) <= 6)%Z /\
  Gui.shown (after walk_full_paths)
  = Gui.panel (Gui.curSetting (after walk_full_paths))
              (Gui.createPressed (after walk_full_paths)) /\
  Gui.prevEnabled (after walk_full_paths)
  = negb (Gui.curSetting (after walk_full_paths) =? 0)%Z.
Proof.
  exact (@settings_in_range Z_numeric sample_raw (after walk_full_paths) walk_reachable).
Defined.

Lemma settings_skipped_witness :
  (Gui.fullPath (after walk_full_paths) = 1%Z ->
   Gui.curSetting (after walk_full_paths) <> 4%Z) /\
  (Gui.eyecheck (after walk_full_paths) = 1%Z ->
   Gui.curSetting (after walk_full_paths) <> 6%Z).
Proof.
  exact (@settings_skipped Z_numeric sample_raw (after walk_full_paths) walk_reachable).
Defined.

Example walk_skips_spectra_path :
  Gui.curSetting (after walk_full_paths) = 5%Z /\
  Gui.shown (after walk_full_paths) = [Gui.EyecheckYes; Gui.EyecheckNo; Gui.HelpButton].
Proof. split; vm_compute; reflexivity. Qed.

Lemma typed_launch :
  @goToMain Z_numeric Z_reader sample_sys (Some true) (after (typed_run typed_lines))
  = Done (Start (Some (lit "temp_input_1700000000.txt",
                       lit "star001.fits obs" ++ [newline]
                       ++ lit "star002.fits,obs" ++ [newline]))
                (typed_options (lit "temp_input_1700000000.txt"))).
Proof. vm_compute. reflexivity. Qed.


Lemma started_options_valid_witness :
  ends_with (lit ".csv") (lit "PyHammerResults.csv") = true /\
  ends_with (lit ".csv") (lit "RejectSpectra.csv") = true /\
  with_slash (lit "C:/spectra") = Done (lit "C:/spectra" ++ [backslash]).
Proof.
  pose proof (@started_options_valid Z_numeric Z_reader sample_raw sample_sys (Some true)
                (after (typed_run typed_lines)) _ _
                (typed_reachable typed_lines ltac:(vm_compute; reflexivity)) typed_launch)
    as [H1 [H2 [_ [_ [_ [_ [H7 _]]]]]]].
  split; [exact H1|]. split; [exact H2|].
  destruct (H7 ltac:(vm_compute; reflexivity)) as [_ [W _]].
  vm_compute in W. vm_compute. exact W.
Defined.

Lemma typed_manifest_removed_witness :
  In (EvRemove (lit "temp_input_1700000000.txt"))
     (run_log (@main Z_numeric toy_spectrum (typed_options (lit "temp_input_1700000000.txt"))
                 (with_file nowhere (lit "temp_input_1700000000.txt")
                    (lit "star001.fits obs" ++ [newline]
                     ++ lit "star002.fits,obs" ++ [newline]))
                 toy_start)).
Proof.
  refine (proj2 (proj2 (proj2
    (@typed_manifest_removed Z_numeric toy_spectrum Z_reader sample_sys (Some true)
       (after (typed_run typed_lines)) _ _ _ nowhere toy_start
       (Ok tt) _ _ typed_launch eq_refl))) eq_refl).
Defined.

Lemma typed_launch_blank_end :
  @goToMain Z_numeric Z_reader sample_sys (Some true)
     (after (typed_run [lit "star001.fits obs"; []]))
  = Done (Start (Some (lit "temp_input_1700000000.txt",
                       lit "star001.fits obs" ++ [newline; newline]))
                (typed_options (lit "temp_input_1700000000.txt"))).
Proof. vm_compute. reflexivity. Qed.

Lemma typed_manifest_blank_end_fails_witness :
  exists s' l,
    @main Z_numeric toy_spectrum (typed_options (lit "temp_input_1700000000.txt"))
      (with_file nowhere (lit "temp_input_1700000000.txt")
         (lit "star001.fits obs" ++ [newline; newline]))
      toy_start
    = (Raise ValueError, s', l) /\
    ~ In (EvRemove (lit "temp_input_1700000000.txt")) l.
Proof.
  exact (@typed_manifest_blank_end_fails Z_numeric toy_spectrum Z_reader sample_sys
           (Some true) (after (typed_run [lit "star001.fits obs"; []])) _ _ _
           nowhere toy_start [] (lit "star001.fits obs")
           typed_launch_blank_end eq_refl eq_refl).
Defined.

(** ** The text box: data types and generated manifests *)

Lemma find_app_comma (x rest : str) :
  ~ In comma x -> find comma (x ++ comma :: rest) = Z.of_nat (length x).
Proof.
  induction x as [|c x IH]; intros H; [reflexivity|].
  simpl app. cbn [find]. destruct (Ascii.eqb c comma) eqn:E.
  - apply Ascii.eqb_eq in E. exfalso. apply H. left. exact E.
  - rewrite IH by (intro; apply H; right; assumption).
    destruct (Z.ltb_spec (Z.of_nat (length x)) 0); [lia|].
    simpl length. lia.
Qed.

Lemma cut_at_comma_free (l : str) : ~ In comma (Gui.cut_at_comma l).
Proof.
  unfold Gui.cut_at_comma.
  destruct (Z.geb_spec (find comma l) 0) as [G|G].
  - induction l as [|c l IH]; [simpl; tauto|].
    cbn [find] in *. destruct (Ascii.eqb c comma) eqn:E; [simpl; tauto|].
    apply Ascii.eqb_neq in E.
    destruct (Z.ltb_spec (find comma l) 0) as [L|L]; [lia|].
    replace (Z.to_nat (find comma l + 1)) with (Datatypes.S (Z.to_nat (find comma l))) by lia.
    simpl. intros [H|H]; [congruence|]. apply IH; [lia|exact H].
  - apply find_not_in. destruct (find_range comma l); lia.
Qed.

Lemma cut_at_comma_again (l rest : str) :
  Gui.cut_at_comma (Gui.cut_at_comma l ++ comma :: rest) = Gui.cut_at_comma l.
Proof.
  pose proof (cut_at_comma_free l) as H.
  unfold Gui.cut_at_comma at 1. rewrite find_app_comma by exact H.
  destruct (Z.geb_spec (Z.of_nat (length (Gui.cut_at_comma l))) 0); [|lia].
  rewrite Nat2Z.id, firstn_app, firstn_all, Nat.sub_diag. simpl. apply app_nil_r.
Qed.

Lemma split_lines_from_plain (t : str) : ~ In newline t ->
  forall cur, Gui.split_lines_from cur t = [rev cur ++ t].
Proof.
  induction t as [|c t IH]; intros H cur; simpl.
  - rewrite app_nil_r. reflexivity.
  - destruct (Ascii.eqb c newline) eqn:E.
    + apply Ascii.eqb_eq in E. exfalso. apply H. left. exact E.
    + rewrite IH by (intro; apply H; right; assumption).
      simpl. rewrite <- app_assoc. reflexivity.
Qed.

Lemma split_lines_plain (t : str) : ~ In newline t -> Gui.split_lines t = [t].
Proof. intros H. exact (split_lines_from_plain t H []). Qed.

Lemma split_lines_from_break (a t : str) : ~ In newline a ->
  forall cur, Gui.split_lines_from cur (a ++ newline :: t)
              = (rev cur ++ a) :: Gui.split_lines_from [] t.
Proof.
  induction a as [|c a IH]; intros H cur; simpl.
  - rewrite app_nil_r. reflexivity.
  - destruct (Ascii.eqb c newline) eqn:E.
    + apply Ascii.eqb_eq in E. exfalso. apply H. left. exact E.
    + rewrite IH by (intro; apply H; right; assumption).
      simpl. rewrite <- app_assoc. reflexivity.
Qed.

Lemma cut_at_comma_in (l : str) (c : ascii) : In c (Gui.cut_at_comma l) -> In c l.
Proof.
  unfold Gui.cut_at_comma. destruct (find comma l >=? 0)%Z; [|tauto].
  intros H. rewrite <- (firstn_skipn (Z.to_nat (find comma l)) l).
  apply in_or_app. left. exact H.
Qed.

Lemma tagged_plain (dt l : str) :
  ~ In newline dt -> ~ In newline l -> ~ In newline (tagged dt l).
Proof.
  intros Hd Hl. unfold tagged. rewrite !in_app_iff. intros [I|[I|I]].
  - exact (Hl (cut_at_comma_in _ _ I)).
  - simpl in I. destruct I as [I|[I|[]]]; discriminate I.
  - exact (Hd I).
Qed.

(** With a data type of one line, on lines without line breaks, the
    loop of [applyType] does to each line what its body says. *)
Lemma apply_lines_plain (dt : str) : ~ In newline dt ->
  forall (rest pre : list str),
  Forall (fun l => ~ In newline l) rest ->
  Gui.apply_lines dt (length rest) (length pre) (pre ++ rest)
  = pre ++ map (tagged dt) rest.
Proof.
  intros Hd. induction rest as [|c rest IH]; intros pre Hr.
  - reflexivity.
  - inversion Hr; subst. cbn [length Gui.apply_lines map].
    rewrite nth_middle.
    rewrite firstn_app, firstn_all, Nat.sub_diag. cbn [firstn]. rewrite app_nil_r.
    replace (skipn (Datatypes.S (length pre)) (pre ++ c :: rest)) with rest.
    + fold (tagged dt c).
      rewrite (split_lines_plain _ (tagged_plain _ _ Hd H1)).
      replace (Datatypes.S (length pre)) with (length (pre ++ [tagged dt c]))
        by (rewrite length_app; simpl; lia).
      replace (pre ++ [tagged dt c] ++ rest) with ((pre ++ [tagged dt c]) ++ rest)
        by (rewrite <- app_assoc; reflexivity).
      rewrite (IH _ H2). rewrite <- app_assoc. reflexivity.
    + replace (pre ++ c :: rest) with ((pre ++ [c]) ++ rest)
        by (rewrite <- app_assoc; reflexivity).
      replace (Datatypes.S (length pre)) with (length (pre ++ [c]))
        by (rewrite length_app; simpl; lia).
      rewrite skipn_app, skipn_all, Nat.sub_diag. reflexivity.
Qed.

Lemma applyType_plain (g : Gui.State) (dt : str) :
  dt <> [] -> ~ In newline dt ->
  Forall (fun l => ~ In newline l) (Gui.createWindow g) ->
  Gui.createWindow (Gui.applyType (Gui.set_text g Gui.FDataType dt))
  = map (tagged dt) (Gui.createWindow g).
Proof.
  intros Ne Hd Hl. unfold Gui.applyType. simpl Gui.dataType.
  destruct (str_eqb dt []) eqn:E; [apply str_eqb_eq in E; contradiction|].
  simpl. exact (apply_lines_plain dt Hd (Gui.createWindow g) [] Hl).
Qed.

(** X19.  Applying a data type replaces the one applied before.  For a
    text box whose lines hold no line break, as every content of the
    box is kept, and data types of one line: after two uses of Apply
    Data Type the text box is as if only the second had been used. *)
Theorem applyType_replaces (g : Gui.State) (d1 d2 : str) :
  d2 <> [] -> ~ In newline d1 -> ~ In newline d2 ->
  Forall (fun l => ~ In newline l) (Gui.createWindow g) ->
  Gui.createWindow
    (Gui.applyType (Gui.set_text (Gui.applyType (Gui.set_text g Gui.FDataType d1))
                      Gui.FDataType d2))
  = Gui.createWindow (Gui.applyType (Gui.set_text g Gui.FDataType d2)).
Proof.
  intros H2 N1 N2 L.
  rewrite (applyType_plain g d2 H2 N2 L).
  destruct (str_eqb d1 []) eqn:E1.
  - apply str_eqb_eq in E1. subst d1.
    change (Gui.applyType (Gui.set_text g Gui.FDataType []))
      with (Gui.set_text g Gui.FDataType []).
    exact (applyType_plain (Gui.set_text g Gui.FDataType []) d2 H2 N2 L).
  - assert (Ne1 : d1 <> []) by (intros ->; discriminate E1).
    rewrite applyType_plain; [|exact H2|exact N2|].
    + rewrite (applyType_plain g d1 Ne1 N1 L), map_map. apply map_ext. intros l.
      unfold tagged at 1 2.
      change (Gui.cut_at_comma l ++ lit ", " ++ d1)
        with (Gui.cut_at_comma l ++ comma :: (space :: d1)).
      rewrite cut_at_comma_again. reflexivity.
    + rewrite (applyType_plain g d1 Ne1 N1 L). apply Forall_forall.
      intros x Hx. apply in_map_iff in Hx. destruct Hx as [l [<- Hl]].
      rewrite Forall_forall in L. exact (tagged_plain _ _ N1 (L _ Hl)).
Qed.

Lemma applyType_replaces_witness :
  Gui.createWindow
    (Gui.applyType (Gui.set_text
       (Gui.applyType (Gui.set_text (after (typed_run typed_lines)) Gui.FDataType (lit "sdss")))
       Gui.FDataType (lit "fits")))
  = Gui.createWindow
      (Gui.applyType (Gui.set_text (after (typed_run typed_lines)) Gui.FDataType (lit "fits"))).
Proof.
  refine (applyType_replaces (after (typed_run typed_lines)) (lit "sdss") (lit "fits")
            ltac:(discriminate) _ _ _).
  - simpl. intuition discriminate.
  - simpl. intuition discriminate.
  - vm_compute. repeat constructor; intuition discriminate.
Defined.

Example applyType_ex :
  Gui.createWindow
    (Gui.applyType (Gui.set_text (after (typed_run typed_lines)) Gui.FDataType (lit "fits")))
  = [lit "star001.fits obs, fits"; lit "star002.fits, fits"].
Proof. vm_compute. reflexivity. Qed.

(** A data type that holds a line break: the first line becomes two, the
    second turn works on the new line, and the line that was second is
    left as it was. *)
Example applyType_line_break :
  Gui.apply_lines (lit "x" ++ [newline] ++ lit "y") 2 0 [lit "a"; lit "b"]
  = [lit "a, x"; lit "y, x"; lit "y"; lit "b"].
Proof. vm_compute. reflexivity. Qed.

Lemma insert_files_cons (lines : list str) (f : str) (rest : list str) :
  Gui.insert_files lines (f :: rest)
  = Gui.insert_files
      (removelast lines
       ++ Gui.split_lines
            (last lines [] ++ f ++ match rest with [] => [] | _ :: _ => [newline] end))
      rest.
Proof. reflexivity. Qed.

Lemma insert_files_end (rest : list str) : forall (pre : list str) (l f : str),
  ~ In newline l -> Forall (fun x => ~ In newline x) (f :: rest) ->
  Gui.insert_files (pre ++ [l]) (f :: rest) = pre ++ [l ++ f] ++ rest.
Proof.
  induction rest as [|f2 rest IH]; intros pre l f Hl Hf; inversion Hf; subst;
    rewrite insert_files_cons, removelast_last, last_last.
  - rewrite app_nil_r, split_lines_plain; [reflexivity|].
    rewrite in_app_iff. tauto.
  - replace (l ++ f ++ [newline]) with ((l ++ f) ++ newline :: [])
      by (rewrite <- app_assoc; reflexivity).
    unfold Gui.split_lines.
    rewrite split_lines_from_break by (rewrite in_app_iff; tauto).
    cbn [rev app Gui.split_lines_from].
    replace (pre ++ [l ++ f; []]) with ((pre ++ [l ++ f]) ++ [[]])
      by (rewrite <- app_assoc; reflexivity).
    etransitivity; [exact (IH (pre ++ [l ++ f]) [] f2 (fun x => x) H2)|].
    rewrite <- app_assoc. reflexivity.
Qed.

Lemma insert_files_empty_box (files : list str) :
  files <> [] -> Forall (fun x => ~ In newline x) files ->
  Gui.insert_files [[]] files = files.
Proof.
  destruct files as [|f rest]; [congruence|]. intros _ H.
  exact (insert_files_end rest [] [] f (fun x => x) H).
Qed.

Lemma file_lines_from_line (l : str) (text : str) : ~ In newline l ->
  forall cur, file_lines_from cur (l ++ newline :: text)
              = (rev cur ++ l ++ [newline]) :: file_lines_from [] text.
Proof.
  induction l as [|c l IH]; intros H cur.
  - reflexivity.
  - simpl app. cbn [file_lines_from]. destruct (Ascii.eqb c newline) eqn:E.
    + apply Ascii.eqb_eq in E. exfalso. apply H. left. exact E.
    + rewrite IH by (intro; apply H; right; assumption).
      simpl. rewrite <- app_assoc. reflexivity.
Qed.

Lemma file_lines_text_of (ls : list str) :
  Forall (fun l => ~ In newline l) ls ->
  file_lines (Gui.text_of ls) = map (fun l => l ++ [newline]) ls.
Proof.
  unfold file_lines. induction 1 as [|l ls Hl _ IH]; [reflexivity|].
  simpl. rewrite <- app_assoc. simpl.
  rewrite file_lines_from_line by exact Hl. rewrite IH. reflexivity.
Qed.

Lemma split_from_gap (s ws t : str) :
  blank ws -> ws <> [] -> no_space t -> t <> [] ->
  forall cur, split_from cur (s ++ ws ++ t) = split_from cur s ++ [t].
Proof.
  intros Hw Hn Ht Hne.
  assert (T : split t = [t]).
  { unfold split. rewrite split_from_word by exact Ht. rewrite app_nil_r.
    destruct (rev t) eqn:R.
    - apply (f_equal (@rev ascii)) in R. rewrite rev_involutive in R. contradiction.
    - apply (f_equal (@rev ascii)) in R. rewrite rev_involutive in R.
      subst t. reflexivity. }
  induction s as [|c s IH]; intros cur.
  - destruct ws as [|w ws]; [congruence|]. inversion Hw; subst.
    simpl. rewrite H1. fold (split (ws ++ t)).
    rewrite split_blank_prefix by assumption. rewrite T.
    destruct cur; reflexivity.
  - simpl. destruct (isspace c).
    + rewrite IH. destruct cur; reflexivity.
    + apply IH.
Qed.

(** A path and a format tag with any run of blanks and commas between
    them parse to that path and tag. *)
Lemma parse_line_gap (fname gap ftype : str) :
  well_spaced true fname = true -> ~ In comma fname ->
  no_space ftype -> ftype <> [] -> ~ In comma ftype ->
  gap <> [] -> blank (replace comma space gap) ->
  parse_line (fname ++ gap ++ ftype) = Ok (fname, ftype).
Proof.
  intros W Cf Wt Nt Ct Gn Gb.
  destruct (join_split_from fname [] W) as [Hn J]. simpl in J.
  destruct (well_spaced_head _ W) as [c [r [E Hc]]].
  rewrite <- J at 2. apply parse_line_ok; [|exact Hn].
  rewrite tokens_replace.
  - rewrite !replace_app.
    rewrite (find_none comma fname) by (apply find_not_in; exact Cf).
    rewrite (find_none comma ftype) by (apply find_not_in; exact Ct).
    unfold split. apply split_from_gap; try assumption.
    destruct gap; [congruence|discriminate].
  - intros Z. apply find_zero in Z. rewrite strip_head in Z.
    rewrite E in Z. simpl in Z. rewrite Hc in Z. inversion Z. subst c.
    apply Cf. rewrite E. left. reflexivity.
Qed.

Lemma well_spaced_one_line (f : str) : forall b,
  well_spaced b f = true -> ~ In newline f.
Proof.
  induction f as [|c f IH]; intros b H; [simpl; tauto|].
  simpl in H. intros [I|I].
  - subst c. simpl in H. rewrite andb_false_r in H. discriminate H.
  - destruct (isspace c).
    + apply andb_true_iff in H. destruct H as [_ H]. exact (IH _ H I).
    + exact (IH _ H I).
Qed.

Section Generated.

Context {N : Numeric} {S : Spectrum} {F : FloatReader}.

(** X20.  From the file dialog to the Spectrum object.  Starting from an
    empty text box, Generate From Directory with a choice of files, then
    Apply Data Type, then Start: when the names are single-spaced and
    without commas and the data type is one word, [main] returns and has
    called [readFile] once for each chosen file, in the order of the
    choice, with the spectra path before the name and the data type as
    the format. *)
Theorem generated_manifest_loaded
    (g0 g : Gui.State) (files : list str) (dt : str)
    sys u name text opts env s r s' l :
  Gui.createWindow g0 = [[]] ->
  files <> [] -> Forall plain_name files -> plain_word dt ->
  Gui.createWindow g
  = Gui.createWindow
      (Gui.applyType
         (Gui.set_text (Gui.createInputFromDirectory files g0) Gui.FDataType dt)) ->
  goToMain sys u g = Done (Start (Some (name, text)) opts) ->
  eyecheck opts = false ->
  main opts (with_file env name text) s = (r, s', l) ->
  r = Ok tt /\
  filter is_readFile (calls l)
  = map (fun f => ReadFile (spectraPath opts ++ f) dt) files.
Proof.
  intros W0 Fn Pf [Dw [Dn Dc]] Wg H Ey M.
  destruct (goToMain_created _ _ _ _ _ _ H) as [Ei [_ Et]].
  assert (Ls : Gui.createWindow g = map (fun f => f ++ lit ", " ++ dt) files).
  { assert (Nf : Forall (fun x => ~ In newline x) files).
    { apply Forall_forall. intros f Hf. rewrite Forall_forall in Pf.
      destruct (Pf _ Hf) as [Wf _]. exact (well_spaced_one_line _ _ Wf). }
    assert (Nd : ~ In newline dt) by exact (no_space_not_in dt newline eq_refl Dw).
    assert (Bx : Gui.createWindow (Gui.createInputFromDirectory files g0) = files).
    { simpl. rewrite W0. exact (insert_files_empty_box _ Fn Nf). }
    rewrite Wg, applyType_plain; [|exact Dn|exact Nd|rewrite Bx; exact Nf].
    rewrite Bx. apply map_ext_in. intros f Hf. rewrite Forall_forall in Pf.
    destruct (Pf _ Hf) as [_ Cf].
    unfold tagged, Gui.cut_at_comma. apply find_not_in in Cf. rewrite Cf. reflexivity. }
  assert (Fl : file_lines text = map (fun f => f ++ lit ", " ++ dt ++ [newline]) files).
  { rewrite Et, Ls. rewrite file_lines_text_of.
    - rewrite map_map. apply map_ext. intros f. rewrite <- !app_assoc. reflexivity.
    - apply Forall_forall. intros x Hx. apply in_map_iff in Hx.
      destruct Hx as [f [<- Hf]]. rewrite Forall_forall in Pf.
      destruct (Pf _ Hf) as [Wf _]. rewrite !in_app_iff. intros [I|[I|I]].
      + exact (well_spaced_one_line _ _ Wf I).
      + simpl in I. destruct I as [I|[I|[]]]; discriminate I.
      + exact (no_space_not_in dt newline eq_refl Dw I). }
  assert (Pl : forall f, In f files ->
            parse_line (f ++ lit ", " ++ dt ++ [newline]) = Ok (f, dt)).
  { intros f Hf. rewrite Forall_forall in Pf. destruct (Pf _ Hf) as [Wf Cf].
    replace (f ++ lit ", " ++ dt ++ [newline])
      with ([] ++ (f ++ lit ", " ++ dt) ++ [newline])
      by (simpl; rewrite <- !app_assoc; reflexivity).
    rewrite parse_line_padded; [|constructor|repeat constructor].
    apply parse_line_gap; try assumption; [discriminate|repeat constructor]. }
  assert (All : forallb parses (file_lines text) = true).
  { rewrite Fl. apply forallb_forall. intros x Hx. apply in_map_iff in Hx.
    destruct Hx as [f [<- Hf]]. unfold parses. rewrite (Pl _ Hf). reflexivity. }
  assert (Op : open_r (with_file env name text) (infile opts) = inr (file_lines text)).
  { rewrite Ei. apply with_file_opens. }
  split.
  - destruct (main_result opts (with_file env name text) s _ Ey Op) as [K _].
    rewrite M in K. apply K. exact All.
  - rewrite (readFile_calls _ _ _ _ _ _ _ Ey Op M), (parsed_prefix_all _ All), Fl.
    clear - Pl. induction files as [|f files IH]; [reflexivity|].
    cbn [map flat_map]. unfold descriptor at 1.
    rewrite (Pl f) by (left; reflexivity).
    rewrite IH by (intros x Hx; apply Pl; right; exact Hx). reflexivity.
Qed.

End Generated.

Lemma generated_manifest_loaded_witness :
  filter is_readFile
    (calls (run_log
       (@main Z_numeric toy_spectrum (typed_options (lit "temp_input_1700000000.txt"))
          (with_file nowhere (lit "temp_input_1700000000.txt")
             (lit "star001.fits, obs" ++ [newline]
              ++ lit "my star.fits, obs" ++ [newline]))
          toy_start)))
  = [ReadFile (lit "C:/spectra" ++ [backslash] ++ lit "star001.fits") (lit "obs");
     ReadFile (lit "C:/spectra" ++ [backslash] ++ lit "my star.fits") (lit "obs")].
Proof.
  refine (proj2
    (@generated_manifest_loaded Z_numeric toy_spectrum Z_reader
       (after [Gui.PressCreate])
       (after ([Gui.PressCreate;
                Gui.Generate [lit "star001.fits"; lit "my star.fits"];
                Gui.Fill Gui.FDataType (lit "obs"); Gui.ApplyType;
                Gui.Next; Gui.Next; Gui.Next; Gui.Next;
                Gui.Fill Gui.FSpectraPath (lit "C:/spectra");
                Gui.Next; Gui.Next; Gui.Fill Gui.FSncut (lit "5")]))
       [lit "star001.fits"; lit "my star.fits"] (lit "obs")
       sample_sys (Some true) _ _ _ nowhere toy_start _ _ _
       eq_refl _ _ _ ltac:(vm_compute; reflexivity) ltac:(vm_compute; reflexivity)
       eq_refl ltac:(vm_compute; reflexivity))).
  - discriminate.
  - repeat constructor; simpl; intuition discriminate.
  - repeat split; [repeat constructor|discriminate|simpl; intuition discriminate].
Defined.

(** ** The command line *)

Section CommandLineFacts.

Context {N : Numeric}.

Ltac tally rest :=
  repeat match goal with
         | |- context [existsb ?f rest] => destruct (existsb f rest)
         end;
  repeat match goal with
         | |- context [length (filter ?f rest)] =>
             destruct (length (filter f rest)) as [|[|?]]
         end;
  reflexivity.

Lemma read_options_accepted (opts : list Opt) : forall options,
  is_done (read_options options opts) = accepted_from options opts.
Proof.
  induction opts as [|o rest IH]; intros options.
  - unfold accepted_from. simpl.
    destruct (raw_fullPath options), (raw_useGUI options), (raw_sncut options),
      (raw_eyecheck options) as [[|]|]; reflexivity.
  - destruct o; cbn [read_options read_option].
    + reflexivity.
    + cbn [and_then]. rewrite IH. unfold accepted_from. simpl. reflexivity.
    + cbn [and_then]. rewrite IH. unfold accepted_from. simpl. reflexivity.
    + cbn [and_then]. rewrite IH. unfold accepted_from. simpl. reflexivity.
    + destruct (raw_fullPath options) eqn:E1; cbn [is_some and_then].
      * unfold accepted_from. rewrite E1. simpl.
        destruct (raw_useGUI options), (raw_sncut options),
          (raw_eyecheck options) as [[|]|]; simpl; tally rest.
      * rewrite IH. unfold accepted_from. rewrite E1. simpl.
        destruct (raw_useGUI options), (raw_sncut options),
          (raw_eyecheck options) as [[|]|]; simpl; tally rest.
    + destruct (raw_fullPath options) eqn:E1; cbn [is_some and_then].
      * unfold accepted_from. rewrite E1. simpl.
        destruct (raw_useGUI options), (raw_sncut options),
          (raw_eyecheck options) as [[|]|]; simpl; tally rest.
      * destruct arg as [|c r].
        { unfold accepted_from. simpl. rewrite !andb_false_r. reflexivity. }
        destruct (with_slash_total (c :: r)) as [out Eo]; [discriminate|].
        rewrite Eo. cbn [and_then]. rewrite IH. unfold accepted_from. rewrite E1. simpl.
        destruct (raw_useGUI options), (raw_sncut options),
          (raw_eyecheck options) as [[|]|]; simpl; tally rest.
    + destruct (raw_sncut options) eqn:E1; cbn [is_some and_then].
      * unfold accepted_from. rewrite E1. simpl. rewrite !andb_false_r. reflexivity.
      * rewrite IH. unfold accepted_from. rewrite E1. simpl.
        destruct (raw_useGUI options), (raw_fullPath options),
          (raw_eyecheck options) as [[|]|]; simpl; tally rest.
    + destruct (raw_eyecheck options) as [[|]|] eqn:E1; cbn [and_then].
      * unfold accepted_from. rewrite E1. simpl. rewrite !andb_false_r. reflexivity.
      * rewrite IH. unfold accepted_from. rewrite E1. simpl.
        destruct (raw_useGUI options), (raw_fullPath options),
          (raw_sncut options); simpl; tally rest.
      * rewrite IH. unfold accepted_from. rewrite E1. simpl.
        destruct (raw_useGUI options), (raw_fullPath options),
          (raw_sncut options); simpl; tally rest.
    + destruct (raw_useGUI options) eqn:E1; cbn [is_some and_then].
      * unfold accepted_from. rewrite E1. simpl.
        destruct (raw_sncut options), (raw_fullPath options),
          (raw_eyecheck options) as [[|]|]; simpl; tally rest.
      * rewrite IH. unfold accepted_from. rewrite E1. simpl.
        destruct (raw_sncut options), (raw_fullPath options),
          (raw_eyecheck options) as [[|]|]; simpl; tally rest.
    + destruct (raw_useGUI options) eqn:E1; cbn [is_some and_then].
      * unfold accepted_from. rewrite E1. simpl.
        destruct (raw_sncut options), (raw_fullPath options),
          (raw_eyecheck options) as [[|]|]; simpl; tally rest.
      * rewrite IH. unfold accepted_from. rewrite E1. simpl.
        destruct (raw_sncut options), (raw_fullPath options),
          (raw_eyecheck options) as [[|]|]; simpl; tally rest.
Qed.

End CommandLineFacts.

Section CommandLineResults.

Context {N : Numeric}.

Lemma read_option_settled options o options' :
  path_settled options /\ cut_settled options ->
  read_option options o = Done options' ->
  path_settled options' /\ cut_settled options'.
Proof.
  unfold path_settled, cut_settled. intros [P C] H.
  destruct o; cbn [read_option] in H.
  - discriminate H.
  - inversion H; subst. simpl. tauto.
  - inversion H; subst. simpl. tauto.
  - inversion H; subst. simpl. tauto.
  - destruct (raw_fullPath options); cbn [is_some] in H; [discriminate H|].
    inversion H; subst. simpl. tauto.
  - destruct (raw_fullPath options); cbn [is_some] in H; [discriminate H|].
    destruct (with_slash arg) as [p|e] eqn:Ew; cbn [and_then] in H; [|discriminate H].
    inversion H; subst. simpl. split; [|exact C]. exact (with_slash_ends _ _ Ew).
  - destruct (raw_sncut options) eqn:Es; cbn [is_some] in H; [discriminate H|].
    inversion H; subst. simpl. tauto.
  - destruct (raw_eyecheck options) as [[|]|]; [discriminate H| |];
      inversion H; subst; simpl; tauto.
  - destruct (raw_useGUI options); cbn [is_some] in H; [discriminate H|].
    inversion H; subst. simpl. tauto.
  - destruct (raw_useGUI options); cbn [is_some] in H; [discriminate H|].
    inversion H; subst. simpl. tauto.
Qed.

Lemma read_options_settled opts : forall options options',
  path_settled options /\ cut_settled options ->
  read_options options opts = Done options' ->
  path_settled options' /\ cut_settled options'.
Proof.
  induction opts as [|o rest IH]; intros options options' I H.
  - inversion H; subst. exact I.
  - cbn [read_options] in H.
    destruct (read_option options o) as [o1|e] eqn:E; cbn [and_then] in H; [|discriminate H].
    exact (IH _ _ (read_option_settled _ _ _ I E) H).
Qed.

(** The front end: once [-c] or [-g] has been read, no other option of
    the two can follow. *)
Lemma read_options_front_kept opts : forall options options' b,
  raw_useGUI options = Some b ->
  read_options options opts = Done options' ->
  raw_useGUI options' = Some b /\ ~ In OptCmd opts /\ ~ In OptGui opts.
Proof.
  induction opts as [|o rest IH]; intros options options' b U H.
  - inversion H; subst. simpl. tauto.
  - cbn [read_options] in H.
    destruct (read_option options o) as [o1|e] eqn:E; cbn [and_then] in H; [|discriminate H].
    assert (U1 : raw_useGUI o1 = Some b /\ o <> OptCmd /\ o <> OptGui).
    { destruct o; cbn [read_option] in E;
        try (inversion E; subst; simpl; repeat split; [exact U|discriminate|discriminate]).
      - discriminate E.
      - destruct (is_some (raw_fullPath options)); [discriminate E|].
        inversion E; subst. simpl. repeat split; [exact U|discriminate|discriminate].
      - destruct (is_some (raw_fullPath options)); [discriminate E|].
        destruct (with_slash arg); cbn [and_then] in E; [|discriminate E].
        inversion E; subst. simpl. repeat split; [exact U|discriminate|discriminate].
      - destruct (is_some (raw_sncut options)); [discriminate E|].
        inversion E; subst. simpl. repeat split; [exact U|discriminate|discriminate].
      - destruct (raw_eyecheck options) as [[|]|]; [discriminate E| |];
          inversion E; subst; simpl; repeat split; try exact U; discriminate.
      - rewrite U in E. discriminate E.
      - rewrite U in E. discriminate E. }
    destruct U1 as [U1 [Nc Ng]].
    destruct (IH _ _ _ U1 H) as [K [K1 K2]].
    split; [exact K|]. simpl. split; intros [X|X]; auto.
Qed.

Lemma read_options_front opts : forall options options',
  raw_useGUI options = None ->
  read_options options opts = Done options' ->
  match raw_useGUI options' with
  | Some false => In OptCmd opts
  | Some true => In OptGui opts /\ ~ In OptCmd opts
  | None => ~ In OptCmd opts
  end.
Proof.
  induction opts as [|o rest IH]; intros options options' U H.
  - inversion H; subst. rewrite U. simpl. tauto.
  - cbn [read_options] in H.
    destruct (read_option options o) as [o1|e] eqn:E; cbn [and_then] in H; [|discriminate H].
    assert (Step : forall o1', raw_useGUI o1' = None -> o <> OptCmd -> o <> OptGui ->
                   read_options o1' rest = Done options' ->
                   match raw_useGUI options' with
                   | Some false => In OptCmd (o :: rest)
                   | Some true => In OptGui (o :: rest) /\ ~ In OptCmd (o :: rest)
                   | None => ~ In OptCmd (o :: rest)
                   end).
    { intros o1' U1 Nc Ng H1. pose proof (IH _ _ U1 H1) as K.
      destruct (raw_useGUI options') as [[|]|]; simpl.
      - destruct K as [K1 K2]. split; [right; exact K1|]. intros [X|X]; auto.
      - right. exact K.
      - intros [X|X]; auto. }
    destruct o; cbn [read_option] in E;
      try (inversion E; subst; (eapply Step; [ | | |exact H]; [exact U|discriminate|discriminate])).
    + destruct (is_some (raw_fullPath options)); [discriminate E|].
      inversion E; subst. (eapply Step; [ | | |exact H]; [exact U|discriminate|discriminate]).
    + destruct (is_some (raw_fullPath options)); [discriminate E|].
      destruct (with_slash arg); cbn [and_then] in E; [|discriminate E].
      inversion E; subst. (eapply Step; [ | | |exact H]; [exact U|discriminate|discriminate]).
    + destruct (is_some (raw_sncut options)); [discriminate E|].
      inversion E; subst. (eapply Step; [ | | |exact H]; [exact U|discriminate|discriminate]).
    + destruct (raw_eyecheck options) as [[|]|]; [discriminate E| |];
        inversion E; subst; (eapply Step; [ | | |exact H]; [exact U|discriminate|discriminate]).
    + rewrite U in E. cbn [is_some] in E. inversion E; subst.
      destruct (read_options_front_kept rest (set_useGUI options false) _ false eq_refl H) as [K _].
      rewrite K. left. reflexivity.
    + rewrite U in E. cbn [is_some] in E. inversion E; subst.
      destruct (read_options_front_kept rest (set_useGUI options true) _ true eq_refl H) as [K [K1 _]].
      rewrite K. split; [left; reflexivity|]. intros [X|X]; [discriminate X|auto].
Qed.

(** The S/N cut of the dict is the argument of an [-s] of the command
    line, as it was typed, unless there was none. *)
Lemma read_options_sncut opts : forall options options',
  read_options options opts = Done options' ->
  (existsb is_sncut_option opts = false /\ raw_sncut options' = raw_sncut options) \/
  (exists arg, In (OptSncut arg) opts /\ raw_sncut options' = Some (inl arg)).
Proof.
  induction opts as [|o rest IH]; intros options options' H.
  - inversion H; subst. left. split; reflexivity.
  - cbn [read_options] in H.
    destruct (read_option options o) as [o1|e] eqn:E; cbn [and_then] in H; [|discriminate H].
    assert (Keep : raw_sncut o1 = raw_sncut options -> is_sncut_option o = false ->
                   (existsb is_sncut_option (o :: rest) = false /\
                    raw_sncut options' = raw_sncut options) \/
                   (exists arg, In (OptSncut arg) (o :: rest) /\
                                raw_sncut options' = Some (inl arg))).
    { intros K Ns. destruct (IH _ _ H) as [[X Y]|[arg [X Y]]].
      - left. simpl. rewrite Ns, X, Y, K. split; reflexivity.
      - right. exists arg. split; [right; exact X|exact Y]. }
    destruct o; cbn [read_option] in E;
      try (inversion E; subst; apply Keep; reflexivity).
    + destruct (is_some (raw_fullPath options)); [discriminate E|].
      inversion E; subst. apply Keep; reflexivity.
    + destruct (is_some (raw_fullPath options)); [discriminate E|].
      destruct (with_slash arg); cbn [and_then] in E; [|discriminate E].
      inversion E; subst. apply Keep; reflexivity.
    + destruct (is_some (raw_sncut options)); [discriminate E|].
      inversion E; subst. apply Keep; reflexivity.
    + assert (E1 : o1 = set_cut options false (Some (inl arg))).
      { destruct (raw_eyecheck options) as [[|]|]; [discriminate E| |];
          inversion E; reflexivity. }
      subst o1. right. destruct (IH _ _ H) as [[X Y]|[arg' [X Y]]].
      * exists arg. split; [left; reflexivity|]. rewrite Y. reflexivity.
      * exists arg'. split; [right; exact X|exact Y].
    + destruct (is_some (raw_useGUI options)); [discriminate E|].
      inversion E; subst. apply Keep; reflexivity.
    + destruct (is_some (raw_useGUI options)); [discriminate E|].
      inversion E; subst. apply Keep; reflexivity.
Qed.

Lemma read_options_app pre : forall options post,
  read_options options (pre ++ post)
  = and_then (read_options options pre) (fun options => read_options options post).
Proof.
  induction pre as [|o pre IH]; intros options post; [reflexivity|].
  simpl. destruct (read_option options o); cbn [and_then]; [apply IH|reflexivity].
Qed.

(** X21.  The command lines that reach a front end.  The loop over the
    options comes to its end exactly when there is no help option, at
    most one option among [-f] and [-p], at most one among [-c] and
    [-g], not both an [-e] and an [-s], and no [-p] with an empty
    argument. *)
Theorem accepted_command_lines (opts : list Opt) :
  (exists f, command_line opts = Done f) <->
  (existsb is_help opts = false /\
   length (filter is_path_option opts) <= 1 /\
   length (filter is_front_option opts) <= 1 /\
   existsb is_eyecheck_option opts && existsb is_sncut_option opts = false /\
   existsb is_empty_path opts = false).
Proof.
  pose proof (read_options_accepted opts default_options) as A.
  unfold accepted_from in A. simpl in A. rewrite !Nat.add_0_r, !andb_true_r in A.
  unfold command_line. split.
  - intros [f H].
    destruct (read_options default_options opts) as [o|e]; [|discriminate H].
    simpl in A. symmetry in A. rewrite !andb_true_iff in A.
    destruct A as [[[[A1 A2] A3] A4] A5].
    apply negb_true_iff in A1, A4, A5. apply Nat.leb_le in A2, A3. tauto.
  - intros [H1 [H2 [H3 [H4 H5]]]].
    rewrite H1, H4, H5 in A. apply Nat.leb_le in H2, H3. rewrite H2, H3 in A.
    simpl in A. destruct (read_options default_options opts) as [o|e]; [|discriminate A].
    cbn [and_then]. eauto.
Qed.

(** X22.  The dict a front end gets from the command line.  When the
    loop comes to its end, [fullPath] and [spectraPath] are both unset,
    or the path is empty with [fullPath] true, or ends in a slash or
    backslash with [fullPath] false; and an S/N cut, when there is one,
    is a text and comes with [eyecheck] false. *)
Theorem command_line_options_settled (opts : list Opt) (options : RawOptions) :
  read_options default_options opts = Done options ->
  path_settled options /\ cut_settled options.
Proof.
  apply read_options_settled. unfold path_settled, cut_settled. simpl. tauto.
Qed.

(** X23.  The help option takes effect in its turn, not first: a command
    line with an [-h] exits with status 0 there when the options before
    that [-h] are read to their end, and ends as they end when they are
    not. *)
Theorem help_in_its_turn (pre post : list Opt) :
  command_line (pre ++ OptHelp :: post)
  = and_then (read_options default_options pre)
             (fun _ => Fails (SystemExitCode 0)).
Proof.
  unfold command_line. rewrite read_options_app.
  destruct (read_options default_options pre); reflexivity.
Qed.

(** X24.  The choice of the front end.  The questions on the command
    line are used exactly when [-c] was given; in every other case the
    settings window opens, and the dict says [useGUI] is true even when
    [-g] was not given. *)
Theorem front_end_choice (opts : list Opt) (f : Front) :
  command_line opts = Done f ->
  match f with
  | FrontCmd options => In OptCmd opts /\ raw_useGUI options = Some false
  | FrontGUI options => ~ In OptCmd opts /\ raw_useGUI options = Some true
  end.
Proof.
  unfold command_line. intros H.
  destruct (read_options default_options opts) as [o|e] eqn:E; [|discriminate H].
  cbn [and_then] in H. inversion H; subst. clear H.
  pose proof (read_options_front opts default_options _ eq_refl E) as K.
  unfold choose_front. destruct (raw_useGUI o) as [[|]|] eqn:U.
  - split; [tauto|exact U].
  - split; [exact K|exact U].
  - split; [exact K|reflexivity].
Qed.

End CommandLineResults.

(** ** The questions on the command line *)

Lemma ends_with_ext (name ext : str) :
  length ext = 4 -> ends_with ext (with_extension name ext) = true.
Proof.
  intros L4. unfold with_extension, ends_with. rewrite L4.
  destruct (str_eqb (last4 name) ext) eqn:E; unfold times; simpl negb; cbv iota.
  - rewrite app_nil_r. change (skipn (length name - 4) name) with (last4 name).
    rewrite E. apply str_eqb_eq in E.
    assert (L : length (last4 name) = 4) by (rewrite E; exact L4).
    unfold last4 in L. rewrite length_skipn in L.
    assert (Hl : (4 <=? length name) = true) by (apply Nat.leb_le; lia).
    rewrite Hl. reflexivity.
  - rewrite length_app, L4.
    replace (length name + 4 - 4) with (length name + 0) by lia.
    rewrite skipn_app, Nat.add_0_r, skipn_all.
    replace (length name - length name) with 0 by lia.
    change (skipn 0 ext) with ext. rewrite app_nil_l.
    replace (str_eqb ext ext) with true by (symmetry; apply str_eqb_eq; reflexivity).
    assert (Hl : (4 <=? length name + 4) = true) by (apply Nat.leb_le; lia).
    rewrite Hl. reflexivity.
Qed.

Section ConsoleFacts.

Lemma next_inv {A B : Type} (c : Console.t A) (k : A -> Console.t B) answers r rest said :
  Console.next c k answers = (r, rest, said) ->
  (exists e, c answers = (Fails e, rest, said) /\ r = Fails e) \/
  (exists a rest1 s1 s2,
     c answers = (Done a, rest1, s1) /\ k a rest1 = (r, rest, s2) /\ said = s1 ++ s2).
Proof.
  unfold Console.next. destruct (c answers) as [[[a|e] rest1] s1].
  - destruct (k a rest1) as [[r2 rest2] s2] eqn:K. intros H. inversion H; subst.
    right. exists a, rest1, s1, s2. auto.
  - intros H. inversion H; subst. left. exists e. auto.
Qed.

Lemma next_done {A B : Type} (c : Console.t A) (k : A -> Console.t B) answers b rest said :
  Console.next c k answers = (Done b, rest, said) ->
  exists a rest1 s1 s2,
    c answers = (Done a, rest1, s1) /\ k a rest1 = (Done b, rest, s2) /\ said = s1 ++ s2.
Proof.
  intros H. destruct (next_inv _ _ _ _ _ _ H) as [[e [_ X]]|X]; [discriminate X|exact X].
Qed.

Lemma say_inv {A : Type} (a : A) answers r rest said :
  Console.say a answers = (r, rest, said) -> r = Done a /\ rest = answers /\ said = [].
Proof. unfold Console.say. intros H. inversion H. auto. Qed.

Lemma ask_done {A : Type} prompt (body : str -> Console.round A) answers :
  forall x rest said,
  Console.ask prompt body answers = (Done x, rest, said) ->
  exists a, In a answers /\ body a = Console.Break x.
Proof.
  induction answers as [|a answers IH]; intros x rest said H; simpl in H.
  - discriminate H.
  - destruct (body a) as [y|text|e] eqn:B.
    + inversion H; subst. exists a. split; [left; reflexivity|exact B].
    + destruct (Console.ask prompt body answers) as [[r2 rest2] s2].
      inversion H; subst. destruct (IH _ _ _ eq_refl) as [a' [I B']].
      exists a'. split; [right; exact I|exact B'].
    + discriminate H.
Qed.

Lemma within_say {A : Type} ps (a : A) : within ps (Console.say a).
Proof. intros answers p H. destruct H. Qed.

Lemma within_throw {A : Type} ps e : within ps (@Console.throw A e).
Proof. intros answers p H. destruct H. Qed.

Lemma within_of_outcome {A : Type} ps (x : outcome A) : within ps (Console.of_outcome x).
Proof. destruct x; [apply within_say|apply within_throw]. Qed.

Lemma within_input ps prompt : In prompt ps -> within ps (Console.input prompt).
Proof.
  intros I answers p H. destruct answers; simpl in H;
    destruct H as [H|[]]; inversion H; subst; exact I.
Qed.

Lemma within_ask {A : Type} ps prompt (body : str -> Console.round A) :
  In prompt ps -> within ps (Console.ask prompt body).
Proof.
  intros I answers. induction answers as [|a answers IH]; intros p H; simpl in H.
  - destruct H as [H|[]]. inversion H; subst. exact I.
  - destruct (body a).
    + destruct H as [H|[]]. inversion H; subst. exact I.
    + destruct (Console.ask prompt body answers) as [[r2 rest2] s2].
      simpl in H. destruct H as [H|[H|H]]; [inversion H; subst; exact I|discriminate H|].
      exact (IH p H).
    + destruct H as [H|[]]. inversion H; subst. exact I.
Qed.

Lemma within_next {A B : Type} ps (c : Console.t A) (k : A -> Console.t B) :
  within ps c -> (forall a, within ps (k a)) -> within ps (Console.next c k).
Proof.
  intros Wc Wk answers p H. unfold Console.next in H.
  pose proof (Wc answers) as W1. destruct (c answers) as [[[a|e] rest1] s1].
  - pose proof (Wk a rest1) as W2. destruct (k a rest1) as [[r2 rest2] s2].
    simpl in H, W1, W2. apply in_app_or in H. destruct H as [H|H]; [exact (W1 p H)|exact (W2 p H)].
  - exact (W1 p H).
Qed.

End ConsoleFacts.

Section StartCmdFacts.

Context {N : Numeric} {F : FloatReader}.

Variable sys : Sys.

Ltac stage :=
  repeat first
    [ apply within_next; [|intros ?]
    | apply within_say
    | apply within_throw
    | apply within_of_outcome
    | apply within_input; simpl; tauto
    | apply within_ask; simpl; tauto
    | match goal with |- within _ (if ?b then _ else _) => destruct b end
    | match goal with |- within _ (match ?x with Some _ => _ | None => _ end) =>
        destruct x
      end ].

Lemma within_ask_infile options : within [prompt_infile] (ask_infile sys options).
Proof. unfold ask_infile. stage. Qed.

Lemma within_ask_outfile options :
  within [prompt_change_outfile; prompt_outfile] (ask_outfile options).
Proof. unfold ask_outfile. stage. Qed.

Lemma within_ask_rejectfile options :
  within [prompt_change_rejectfile; prompt_rejectfile] (ask_rejectfile options).
Proof. unfold ask_rejectfile. stage. Qed.

Lemma within_ask_path options :
  within [prompt_fullPath; prompt_spectraPath] (ask_path sys options).
Proof. unfold ask_path. stage. Qed.

Lemma within_ask_eyecheck options : within [prompt_eyecheck] (ask_eyecheck options).
Proof. unfold ask_eyecheck. stage. Qed.

Lemma within_ask_sncut options skip :
  within [prompt_use_sncut; prompt_sncut] (ask_sncut options skip).
Proof.
  unfold ask_sncut. destruct skip as [[|]|]; [apply within_say| |apply within_say].
  stage.
Qed.

(** What each question gives when it is answered. *)
Lemma ask_infile_done options answers f rest said :
  ask_infile sys options answers = (Done f, rest, said) ->
  ends_with (lit ".txt") f = true /\
  (raw_infile options = None -> isfile sys f = true).
Proof.
  unfold ask_infile. intros H.
  destruct (next_done _ _ _ _ _ _ H) as [a [rest1 [s1 [s2 [H1 [H2 _]]]]]].
  apply say_inv in H2. destruct H2 as [H2 _]. inversion H2; subst. clear H2.
  split; [apply ends_with_ext; reflexivity|]. intros E. rewrite E in H1.
  destruct (ask_done _ _ _ _ _ _ H1) as [a' [_ B]]. unfold infile_round in B.
  destruct (wrong_extension a' (lit "txt")) as [[|]|]; try discriminate B.
  destruct (isfile sys (with_extension a' (lit ".txt"))) eqn:I; simpl in B; [|discriminate B].
  inversion B; subst. exact I.
Qed.

Lemma ask_never {A : Type} prompt (body : str -> Console.round A) e0 answers :
  (forall a, body a = Console.Abort e0) ->
  forall r rest said, Console.ask prompt body answers = (r, rest, said) ->
  (r = Fails EOFError \/ r = Fails e0) /\ said = [Asked prompt].
Proof.
  intros B r rest said H. destruct answers as [|a answers]; simpl in H.
  - inversion H; subst. auto.
  - rewrite B in H. inversion H; subst. auto.
Qed.

Lemma ask_outfile_inv options answers r rest said :
  ask_outfile options answers = (r, rest, said) ->
  (r = Done (with_extension (raw_outfile options) (lit ".csv")) /\
   ~ In (Asked prompt_outfile) said) \/
  (r = Fails EOFError \/ r = Fails (UnboundName (lit "outfileExt"))).
Proof.
  unfold ask_outfile. intros H.
  assert (Ne : ~ In (Asked prompt_outfile) [Asked prompt_change_outfile]).
  { intros [X|[]].
    apply (f_equal (fun e => match e with
                             | Asked p => str_eqb p prompt_outfile
                             | Printed _ => false
                             end)) in X.
    vm_compute in X. discriminate X. }
  destruct (str_eqb (raw_outfile options) (lit "PyHammerResults.csv")).
  - unfold Console.next, Console.input in H.
    destruct answers as [|a answers]; [inversion H; subst; right; left; reflexivity|].
    destruct (is_yes a).
    + destruct (Console.ask prompt_outfile outfile_round answers) as [[r2 rest2] s2] eqn:K.
      destruct (ask_never _ _ _ _ (fun _ => eq_refl) _ _ _ K) as [[-> | ->] _];
        inversion H; subst; right; auto.
    + unfold Console.say in H. inversion H; subst. left. split; [reflexivity|].
      exact Ne.
  - unfold Console.next, Console.say in H. inversion H; subst. left.
    split; [reflexivity|]. simpl. tauto.
Qed.

Lemma ask_rejectfile_inv options answers r rest said :
  ask_rejectfile options answers = (r, rest, said) ->
  (r = Done (with_extension (raw_rejectfile options) (lit ".csv")) /\
   ~ In (Asked prompt_rejectfile) said) \/
  (r = Fails EOFError \/ r = Fails (UnboundName (lit "rejectExt"))).
Proof.
  unfold ask_rejectfile. intros H.
  assert (Ne : ~ In (Asked prompt_rejectfile) [Asked prompt_change_rejectfile]).
  { intros [X|[]].
    apply (f_equal (fun e => match e with
                             | Asked p => str_eqb p prompt_rejectfile
                             | Printed _ => false
                             end)) in X.
    vm_compute in X. discriminate X. }
  destruct (str_eqb (raw_rejectfile options) (lit "RejectSpectra.csv")).
  - unfold Console.next, Console.input in H.
    destruct answers as [|a answers]; [inversion H; subst; right; left; reflexivity|].
    destruct (is_yes a).
    + destruct (Console.ask prompt_rejectfile rejectfile_round answers)
        as [[r2 rest2] s2] eqn:K.
      destruct (ask_never _ _ _ _ (fun _ => eq_refl) _ _ _ K) as [[-> | ->] _];
        inversion H; subst; right; auto.
    + unfold Console.say in H. inversion H; subst. left. split; [reflexivity|].
      exact Ne.
  - unfold Console.next, Console.say in H. inversion H; subst. left.
    split; [reflexivity|]. simpl. tauto.
Qed.

Lemma ask_path_done options answers full path rest said :
  ask_path sys options answers = (Done (full, path), rest, said) ->
  match raw_fullPath options with
  | Some b => full = Some b /\ path = raw_spectraPath options
  | None =>
      (full = Some true /\ path = Some []) \/
      (full = Some false /\
       exists a p, In a answers /\ isdir sys a = true /\
                   with_slash a = Done p /\ path = Some p)
  end.
Proof.
  unfold ask_path. intros H. destruct (raw_fullPath options) as [b|].
  - apply say_inv in H. destruct H as [H _]. inversion H. auto.
  - destruct (next_done _ _ _ _ _ _ H) as [ans [rest1 [s1 [s2 [H1 [H2 _]]]]]].
    assert (R1 : exists x, answers = x :: rest1).
    { unfold Console.input in H1. destruct answers; [discriminate H1|].
      inversion H1; subst. eauto. }
    destruct R1 as [x R1].
    destruct (is_yes ans).
    + apply say_inv in H2. destruct H2 as [H2 _]. inversion H2. left. auto.
    + destruct (next_done _ _ _ _ _ _ H2) as [a [rest2 [s3 [s4 [H3 [H4 _]]]]]].
      destruct (next_done _ _ _ _ _ _ H4) as [p [rest3 [s5 [s6 [H5 [H6 _]]]]]].
      apply say_inv in H6. destruct H6 as [H6 _]. inversion H6; subst. clear H6.
      destruct (ask_done _ _ _ _ _ _ H3) as [a' [I B]]. unfold spectraPath_round in B.
      destruct (isdir sys a') eqn:D; simpl in B; [|discriminate B].
      inversion B; subst. right. split; [reflexivity|].
      exists a, p. repeat split; [right; exact I|exact D|].
      destruct (with_slash a); simpl in H5; [|discriminate H5].
      unfold Console.say in H5. inversion H5. reflexivity.
Qed.

Lemma ask_eyecheck_done options answers skip rest said :
  ask_eyecheck options answers = (Done skip, rest, said) ->
  skip <> None /\ (raw_eyecheck options <> None -> skip = raw_eyecheck options).
Proof.
  unfold ask_eyecheck. intros H. destruct (raw_eyecheck options) as [b|].
  - apply say_inv in H. destruct H as [H _]. inversion H. split; [discriminate|reflexivity].
  - destruct (next_done _ _ _ _ _ _ H) as [ans [rest1 [s1 [s2 [_ [H2 _]]]]]].
    apply say_inv in H2. destruct H2 as [H2 _]. inversion H2.
    split; [discriminate|congruence].
Qed.

Lemma ask_sncut_done options skip answers cut rest said :
  ask_sncut options skip answers = (Done cut, rest, said) ->
  match raw_sncut options with
  | Some x => cut = Some x
  | None =>
      cut = None \/
      (skip = Some false /\
       exists a v, In a answers /\ float_of_str a = Some v /\ cut = Some (inr v))
  end.
Proof.
  unfold ask_sncut. intros H.
  destruct (raw_sncut options) as [x|].
  - destruct skip as [[|]|]; apply say_inv in H; destruct H as [H _];
      inversion H; reflexivity.
  - destruct skip as [[|]|];
      try (apply say_inv in H; destruct H as [H _]; inversion H; left; reflexivity).
    destruct (next_done _ _ _ _ _ _ H) as [ans [rest1 [s1 [s2 [H1 [H2 _]]]]]].
    assert (R1 : exists x, answers = x :: rest1).
    { unfold Console.input in H1. destruct answers; [discriminate H1|].
      inversion H1; subst. eauto. }
    destruct R1 as [x R1].
    destruct (is_yes ans).
    + destruct (next_done _ _ _ _ _ _ H2) as [v [rest2 [s3 [s4 [H3 [H4 _]]]]]].
      apply say_inv in H4. destruct H4 as [H4 _]. inversion H4; subst. clear H4.
      destruct (ask_done _ _ _ _ _ _ H3) as [a' [I B]]. unfold sncut_round in B.
      destruct (float_of_str a') as [v'|] eqn:Fl; [|discriminate B].
      inversion B; subst. right. split; [reflexivity|].
      exists a', v. repeat split; [right; exact I|exact Fl].
    + apply say_inv in H2. destruct H2 as [H2 _]. inversion H2. left. reflexivity.
Qed.

(** A run of [startCmd] that comes to its end, question by question. *)
Lemma startCmd_stages options answers o rest said :
  startCmd sys options answers = (Done o, rest, said) ->
  exists inf outf rejf full path skip cut a1 a2 a3 a4 a5 s1 s2 s3 s4 s5 s6,
    ask_infile sys options answers = (Done inf, a1, s1) /\
    ask_outfile options a1 = (Done outf, a2, s2) /\
    ask_rejectfile options a2 = (Done rejf, a3, s3) /\
    ask_path sys options a3 = (Done (full, path), a4, s4) /\
    ask_eyecheck options a4 = (Done skip, a5, s5) /\
    ask_sncut options skip a5 = (Done cut, rest, s6) /\
    said = s1 ++ s2 ++ s3 ++ s4 ++ s5 ++ s6 /\
    o = {| raw_infile := Some inf;
           raw_outfile := outf;
           raw_rejectfile := rejf;
           raw_fullPath := full;
           raw_spectraPath := path;
           raw_eyecheck := skip;
           raw_sncut := cut;
           raw_useGUI := raw_useGUI options |}.
Proof.
  unfold startCmd. intros H.
  destruct (next_done _ _ _ _ _ _ H) as [inf [a1 [s1 [t1 [H1 [K1 ->]]]]]].
  destruct (next_done _ _ _ _ _ _ K1) as [outf [a2 [s2 [t2 [H2 [K2 ->]]]]]].
  destruct (next_done _ _ _ _ _ _ K2) as [rejf [a3 [s3 [t3 [H3 [K3 ->]]]]]].
  destruct (next_done _ _ _ _ _ _ K3) as [[full path] [a4 [s4 [t4 [H4 [K4 ->]]]]]].
  destruct (next_done _ _ _ _ _ _ K4) as [skip [a5 [s5 [t5 [H5 [K5 ->]]]]]].
  destruct (next_done _ _ _ _ _ _ K5) as [cut [a6 [s6 [t6 [H6 [K6 ->]]]]]].
  apply say_inv in K6. destruct K6 as [K6 [-> ->]]. inversion K6; subst. clear K6.
  exists inf, outf, rejf, full, path, skip, cut, a1, a2, a3, a4, a5, s1, s2, s3, s4, s5, s6.
  rewrite app_nil_r. repeat split; assumption.
Qed.

End StartCmdFacts.

Lemma within_weaken {A : Type} (ps qs : list str) (c : Console.t A) :
  incl ps qs -> within ps c -> within qs c.
Proof. intros I W answers p H. apply I. exact (W answers p H). Qed.

(** A question that is not one of [c]'s was put after [c] had come to
    its end. *)
Lemma next_question {A B : Type} ps p (c : Console.t A) (k : A -> Console.t B)
    answers r rest said :
  within ps c -> ~ In p ps ->
  Console.next c k answers = (r, rest, said) ->
  In (Asked p) said ->
  exists a rest1 s2, k a rest1 = (r, rest, s2) /\ In (Asked p) s2.
Proof.
  intros W Np H I. pose proof (W answers) as W1.
  destruct (next_inv _ _ _ _ _ _ H) as [[e [E _]]|[a [rest1 [s1 [s2 [E [K ->]]]]]]];
    rewrite E in W1; simpl in W1.
  - exfalso. exact (Np (W1 p I)).
  - apply in_app_or in I. destruct I as [I|I]; [exfalso; exact (Np (W1 p I))|].
    exists a, rest1, s2. auto.
Qed.

Ltac differ :=
  let X := fresh in
  simpl; intros X;
  repeat match type of X with
         | _ \/ _ => destruct X as [X|X]
         end;
  try contradiction;
  match type of X with
  | ?a = ?b => apply (f_equal (str_eqb a)) in X; vm_compute in X; discriminate X
  end.

Section StartCmdResults.

Context {N : Numeric} {F : FloatReader}.

Variable sys : Sys.

(** X25.  The names of the results file and the reject file cannot be
    changed by the questions: whenever [startCmd] comes to its call of
    [main], the two names are the ones it was given, with [.csv] put
    after a name that does not end in it. *)
Theorem result_names_never_change (options : RawOptions) answers o rest said :
  startCmd sys options answers = (Done o, rest, said) ->
  raw_outfile o = with_extension (raw_outfile options) (lit ".csv") /\
  raw_rejectfile o = with_extension (raw_rejectfile options) (lit ".csv").
Proof.
  intros H. destruct (startCmd_stages sys _ _ _ _ _ H)
    as (inf & outf & rejf & full & path & skip & cut & a1 & a2 & a3 & a4 & a5
        & s1 & s2 & s3 & s4 & s5 & s6 & H1 & H2 & H3 & H4 & H5 & H6 & _ & ->).
  simpl. split.
  - destruct (ask_outfile_inv _ _ _ _ _ H2) as [[X _]|[X|X]];
      [inversion X; reflexivity|discriminate X|discriminate X].
  - destruct (ask_rejectfile_inv _ _ _ _ _ H3) as [[X _]|[X|X]];
      [inversion X; reflexivity|discriminate X|discriminate X].
Qed.

(** X26.  The dict [main] is called with.  Whenever [startCmd] comes to
    its call of [main]: the manifest name ends in [.txt] and, when it
    was asked for, names an existing file; the other two names end in
    [.csv]; [eyecheck] is set, and is the one given when one was given;
    and when the path was asked for, either [fullPath] is true with an
    empty path, or it is false with a path that ends in a slash or
    backslash and was typed as the name of a directory. *)
Theorem startCmd_options_ready (options : RawOptions) answers o rest said :
  startCmd sys options answers = (Done o, rest, said) ->
  (exists f, raw_infile o = Some f /\ ends_with (lit ".txt") f = true /\
             (raw_infile options = None -> isfile sys f = true)) /\
  ends_with (lit ".csv") (raw_outfile o) = true /\
  ends_with (lit ".csv") (raw_rejectfile o) = true /\
  raw_eyecheck o <> None /\
  (raw_eyecheck options <> None -> raw_eyecheck o = raw_eyecheck options) /\
  (raw_fullPath options = None ->
   (raw_fullPath o = Some true /\ raw_spectraPath o = Some []) \/
   (raw_fullPath o = Some false /\
    exists a p, In a answers /\ isdir sys a = true /\ with_slash a = Done p /\
                raw_spectraPath o = Some p /\
                (ends_with [backslash] p = true \/ ends_with [slash] p = true))).
Proof.
  intros H. destruct (startCmd_stages sys _ _ _ _ _ H)
    as (inf & outf & rejf & full & path & skip & cut & a1 & a2 & a3 & a4 & a5
        & s1 & s2 & s3 & s4 & s5 & s6 & H1 & H2 & H3 & H4 & H5 & H6 & _ & ->).
  simpl.
  destruct (ask_infile_done sys _ _ _ _ _ H1) as [T1 T2].
  destruct (ask_eyecheck_done _ _ _ _ _ H5) as [Y1 Y2].
  split; [exists inf; auto|].
  split.
  { destruct (ask_outfile_inv _ _ _ _ _ H2) as [[X _]|[X|X]];
      [inversion X; apply ends_with_ext; reflexivity|discriminate X|discriminate X]. }
  split.
  { destruct (ask_rejectfile_inv _ _ _ _ _ H3) as [[X _]|[X|X]];
      [inversion X; apply ends_with_ext; reflexivity|discriminate X|discriminate X]. }
  split; [exact Y1|]. split; [exact Y2|].
  intros Fp. pose proof (ask_path_done sys _ _ _ _ _ _ H4) as P. rewrite Fp in P.
  destruct P as [P|[P [a [p [I [D [W E]]]]]]]; [left; exact P|].
  right. split; [exact P|]. exists a, p.
  assert (Ia : In a answers).
  { assert (Suffix : forall {A : Type} prompt (body : str -> Console.round A) ans x r s,
              Console.ask prompt body ans = (x, r, s) -> forall y, In y r -> In y ans).
    { intros A prompt body ans. induction ans as [|z ans IH]; intros x r s K y Iy;
        simpl in K.
      - inversion K; subst. destruct Iy.
      - destruct (body z).
        + inversion K; subst. right. exact Iy.
        + destruct (Console.ask prompt body ans) as [[x2 r2] said2].
          inversion K; subst. right. exact (IH _ _ _ eq_refl y Iy).
        + inversion K; subst. right. exact Iy. }
    assert (In1 : forall y, In y a1 -> In y answers).
    { unfold ask_infile, Console.next in H1.
      destruct (raw_infile options).
      - unfold Console.say in H1. inversion H1; subst. auto.
      - destruct (Console.ask prompt_infile (infile_round sys) answers)
          as [[[x|e] r] s] eqn:K; [|discriminate H1].
        unfold Console.say in H1. inversion H1; subst.
        exact (Suffix _ _ _ _ _ _ _ K). }
    assert (In2 : forall y, In y a2 -> In y a1).
    { unfold ask_outfile, Console.next, Console.input in H2.
      destruct (str_eqb (raw_outfile options) (lit "PyHammerResults.csv")).
      - destruct a1 as [|z a1]; [discriminate H2|].
        destruct (is_yes z).
        + destruct (Console.ask prompt_outfile outfile_round a1) as [[[x|e] r] s] eqn:K;
            [|discriminate H2].
          unfold Console.say in H2. inversion H2; subst.
          intros y Iy. right. exact (Suffix _ _ _ _ _ _ _ K y Iy).
        + unfold Console.say in H2. inversion H2; subst. intros y Iy. right. exact Iy.
      - unfold Console.say in H2. inversion H2; subst. auto. }
    assert (In3 : forall y, In y a3 -> In y a2).
    { unfold ask_rejectfile, Console.next, Console.input in H3.
      destruct (str_eqb (raw_rejectfile options) (lit "RejectSpectra.csv")).
      - destruct a2 as [|z a2]; [discriminate H3|].
        destruct (is_yes z).
        + destruct (Console.ask prompt_rejectfile rejectfile_round a2)
            as [[[x|e] r] s] eqn:K; [|discriminate H3].
          unfold Console.say in H3. inversion H3; subst.
          intros y Iy. right. exact (Suffix _ _ _ _ _ _ _ K y Iy).
        + unfold Console.say in H3. inversion H3; subst. intros y Iy. right. exact Iy.
      - unfold Console.say in H3. inversion H3; subst. auto. }
    auto. }
  repeat split; try assumption. exact (with_slash_ends _ _ W).
Qed.

(** X27.  An S/N cut given on the command line reaches [main] as the
    text that was typed.  When the options are accepted, an [-s] is
    among them and [startCmd] comes to its call of [main], the [sncut]
    of the dict is the argument of an [-s], a string: neither the loop
    over the options nor [startCmd] turns it into a number. *)
Theorem command_line_cut_stays_text (opts : list Opt) (options : RawOptions)
    answers o rest said :
  read_options default_options opts = Done options ->
  existsb is_sncut_option opts = true ->
  startCmd sys options answers = (Done o, rest, said) ->
  exists arg, In (OptSncut arg) opts /\ raw_sncut o = Some (inl arg).
Proof.
  intros R Sn H.
  destruct (read_options_sncut opts _ _ R) as [[X _]|[arg [I E]]]; [congruence|].
  exists arg. split; [exact I|].
  destruct (startCmd_stages sys _ _ _ _ _ H)
    as (inf & outf & rejf & full & path & skip & cut & a1 & a2 & a3 & a4 & a5
        & s1 & s2 & s3 & s4 & s5 & s6 & H1 & H2 & H3 & H4 & H5 & H6 & _ & ->).
  simpl. pose proof (ask_sncut_done _ _ _ _ _ _ H6) as K. rewrite E in K. exact K.
Qed.

(** X28.  Asking for a new name ends the run.  In every run of
    [startCmd] in which the user is asked for the name of the results
    file, or of the reject file, [main] is not called: the run ends in
    EOFError when no answer is left, and in the error of an unbound name
    once the answer is read. *)
Theorem new_name_question_fails (options : RawOptions) answers r rest said :
  startCmd sys options answers = (r, rest, said) ->
  (In (Asked prompt_outfile) said ->
   r = Fails EOFError \/ r = Fails (UnboundName (lit "outfileExt"))) /\
  (In (Asked prompt_rejectfile) said ->
   r = Fails EOFError \/ r = Fails (UnboundName (lit "rejectExt"))).
Proof.
  unfold startCmd. intros H. split; intros I.
  - destruct (next_question _ prompt_outfile _ _ _ _ _ _
                (within_ask_infile sys options) ltac:(differ) H I)
      as [inf [a1 [t1 [K1 I1]]]].
    destruct (next_inv _ _ _ _ _ _ K1) as [[e [E ->]]|[outf [a2 [s2 [t2 [E [K2 ->]]]]]]].
    + destruct (ask_outfile_inv _ _ _ _ _ E) as [[X _]|[X|X]]; [discriminate X| |];
        inversion X; subst; [left|right]; reflexivity.
    + exfalso. destruct (ask_outfile_inv _ _ _ _ _ E) as [[_ X]|[X|X]];
        [|discriminate X|discriminate X].
      apply in_app_or in I1. destruct I1 as [I1|I1]; [exact (X I1)|].
      assert (W : within [prompt_change_rejectfile; prompt_rejectfile; prompt_fullPath;
                          prompt_spectraPath; prompt_eyecheck; prompt_use_sncut;
                          prompt_sncut]
                    (Console.next (ask_rejectfile options) (fun rejf =>
                     Console.next (ask_path sys options) (fun path =>
                     Console.next (ask_eyecheck options) (fun skip =>
                     Console.next (ask_sncut options skip) (fun cut =>
                     Console.say
                       {| raw_infile := Some inf;
                          raw_outfile := outf;
                          raw_rejectfile := rejf;
                          raw_fullPath := fst path;
                          raw_spectraPath := snd path;
                          raw_eyecheck := skip;
                          raw_sncut := cut;
                          raw_useGUI := raw_useGUI options |})))))).
      { apply within_next; [|intros ?].
        { eapply within_weaken; [|apply within_ask_rejectfile]. intros x; simpl; tauto. }
        apply within_next; [|intros ?].
        { eapply within_weaken; [|apply within_ask_path]. intros x; simpl; tauto. }
        apply within_next; [|intros ?].
        { eapply within_weaken; [|apply within_ask_eyecheck]. intros x; simpl; tauto. }
        apply within_next; [|intros ?; apply within_say].
        eapply within_weaken; [|apply within_ask_sncut]. intros x; simpl; tauto. }
      pose proof (W a2 prompt_outfile) as W2. rewrite K2 in W2.
      specialize (W2 I1). revert W2. differ.
  - destruct (next_question _ prompt_rejectfile _ _ _ _ _ _
                (within_ask_infile sys options) ltac:(differ) H I)
      as [inf [a1 [t1 [K1 I1]]]].
    destruct (next_question _ prompt_rejectfile _ _ _ _ _ _
                (within_ask_outfile options) ltac:(differ) K1 I1)
      as [outf [a2 [t2 [K2 I2]]]].
    destruct (next_inv _ _ _ _ _ _ K2) as [[e [E ->]]|[rejf [a3 [s3 [t3 [E [K3 ->]]]]]]].
    + destruct (ask_rejectfile_inv _ _ _ _ _ E) as [[X _]|[X|X]]; [discriminate X| |];
        inversion X; subst; [left|right]; reflexivity.
    + exfalso. destruct (ask_rejectfile_inv _ _ _ _ _ E) as [[_ X]|[X|X]];
        [|discriminate X|discriminate X].
      apply in_app_or in I2. destruct I2 as [I2|I2]; [exact (X I2)|].
      assert (W : within [prompt_fullPath; prompt_spectraPath; prompt_eyecheck;
                          prompt_use_sncut; prompt_sncut]
                    (Console.next (ask_path sys options) (fun path =>
                     Console.next (ask_eyecheck options) (fun skip =>
                     Console.next (ask_sncut options skip) (fun cut =>
                     Console.say
                       {| raw_infile := Some inf;
                          raw_outfile := outf;
                          raw_rejectfile := rejf;
                          raw_fullPath := fst path;
                          raw_spectraPath := snd path;
                          raw_eyecheck := skip;
                          raw_sncut := cut;
                          raw_useGUI := raw_useGUI options |}))))).
      { apply within_next; [|intros ?].
        { eapply within_weaken; [|apply within_ask_path]. intros x; simpl; tauto. }
        apply within_next; [|intros ?].
        { eapply within_weaken; [|apply within_ask_eyecheck]. intros x; simpl; tauto. }
        apply within_next; [|intros ?; apply within_say].
        eapply within_weaken; [|apply within_ask_sncut]. intros x; simpl; tauto. }
      pose proof (W a3 prompt_rejectfile) as W3. rewrite K3 in W3.
      specialize (W3 I2). revert W3. differ.
Qed.

End StartCmdResults.

Lemma forwards_say {A : Type} (a : A) : forwards (Console.say a).
Proof. intros answers y H. exact H. Qed.

Lemma forwards_throw {A : Type} e : forwards (@Console.throw A e).
Proof. intros answers y H. exact H. Qed.

Lemma forwards_of_outcome {A : Type} (x : outcome A) : forwards (Console.of_outcome x).
Proof. destruct x; [apply forwards_say|apply forwards_throw]. Qed.

Lemma forwards_input prompt : forwards (Console.input prompt).
Proof. intros [|a answers] y H; simpl in H; [destruct H|right; exact H]. Qed.

Lemma forwards_ask {A : Type} prompt (body : str -> Console.round A) :
  forwards (Console.ask prompt body).
Proof.
  intros answers. induction answers as [|a answers IH]; intros y H; simpl in H.
  - destruct H.
  - destruct (body a).
    + right. exact H.
    + destruct (Console.ask prompt body answers) as [[r2 rest2] said2].
      right. exact (IH y H).
    + right. exact H.
Qed.

Lemma forwards_next {A B : Type} (c : Console.t A) (k : A -> Console.t B) :
  forwards c -> (forall a, forwards (k a)) -> forwards (Console.next c k).
Proof.
  intros Fc Fk answers y H. unfold Console.next in H.
  pose proof (Fc answers) as F1. destruct (c answers) as [[[a|e] rest1] s1].
  - pose proof (Fk a rest1) as F2. destruct (k a rest1) as [[r2 rest2] s2].
    simpl in H, F1, F2. exact (F1 y (F2 y H)).
  - exact (F1 y H).
Qed.

Ltac forwarding :=
  repeat first
    [ apply forwards_next; [|intros ?]
    | apply forwards_say
    | apply forwards_throw
    | apply forwards_of_outcome
    | apply forwards_input
    | apply forwards_ask
    | match goal with |- forwards (if ?b then _ else _) => destruct b end
    | match goal with |- forwards (match ?x with Some _ => _ | None => _ end) =>
        destruct x
      end ].

Lemma not_asked ps p said :
  prompts_within ps said -> ~ In p ps -> filter (is_prompt p) said = [].
Proof.
  intros W Np. induction said as [|e said IH]; [reflexivity|].
  simpl. destruct e as [q|t]; simpl.
  - destruct (str_eqb q p) eqn:E.
    + apply str_eqb_eq in E. subst q. exfalso. apply Np. apply W. left. reflexivity.
    + apply IH. intros x Hx. apply W. right. exact Hx.
  - apply IH. intros x Hx. apply W. right. exact Hx.
Qed.

Lemma next_question_from {A B : Type} ps p (c : Console.t A) (k : A -> Console.t B)
    answers r rest said :
  within ps c -> forwards c -> ~ In p ps ->
  Console.next c k answers = (r, rest, said) ->
  In (Asked p) said ->
  exists a rest1 s2,
    k a rest1 = (r, rest, s2) /\ In (Asked p) s2 /\
    (forall y, In y rest1 -> In y answers) /\
    times_asked p said = times_asked p s2.
Proof.
  intros W Fw Np H I. pose proof (W answers) as W1. pose proof (Fw answers) as F1.
  destruct (next_inv _ _ _ _ _ _ H) as [[e [E _]]|[a [rest1 [s1 [s2 [E [K ->]]]]]]];
    rewrite E in W1, F1; simpl in W1, F1.
  - exfalso. exact (Np (W1 p I)).
  - apply in_app_or in I. destruct I as [I|I]; [exfalso; exact (Np (W1 p I))|].
    exists a, rest1, s2. repeat split; try assumption.
    unfold times_asked. rewrite filter_app, length_app.
    rewrite (not_asked ps p s1 W1 Np). reflexivity.
Qed.

Section CutoffQuestion.

Context {N : Numeric} {F : FloatReader}.

Variable sys : Sys.

Lemma forwards_ask_infile (options : RawOptions) : forwards (ask_infile sys options).
Proof. unfold ask_infile. forwarding. Qed.

Lemma forwards_ask_outfile (options : RawOptions) : forwards (ask_outfile options).
Proof. unfold ask_outfile. forwarding. Qed.

Lemma forwards_ask_rejectfile (options : RawOptions) : forwards (ask_rejectfile options).
Proof. unfold ask_rejectfile. forwarding. Qed.

Lemma forwards_ask_path (options : RawOptions) : forwards (ask_path sys options).
Proof. unfold ask_path. forwarding. Qed.

Lemma forwards_ask_eyecheck (options : RawOptions) : forwards (ask_eyecheck options).
Proof. unfold ask_eyecheck. forwarding. Qed.

Lemma ask_sncut_asked (options : RawOptions) skip answers r rest said :
  ask_sncut options skip answers = (r, rest, said) ->
  In (Asked prompt_sncut) said ->
  times_asked prompt_sncut said = 1 /\
  (r = Fails EOFError \/ r = Fails (UnboundName (lit "Error")) \/
   exists a v, In a answers /\ float_of_str a = Some v /\ r = Done (Some (inr v))).
Proof.
  unfold ask_sncut. intros H I.
  assert (Ne : ~ In (Asked prompt_sncut) [Asked prompt_use_sncut]).
  { intros [X|[]].
    apply (f_equal (fun e => match e with
                             | Asked p => str_eqb p prompt_sncut
                             | Printed _ => false
                             end)) in X.
    vm_compute in X. discriminate X. }
  assert (Quiet : forall cut : option (str + num),
            Console.say cut answers = (r, rest, said) -> False).
  { intros cut K. apply say_inv in K. destruct K as [_ [_ ->]]. destruct I. }
  destruct skip as [[|]|]; try (exfalso; exact (Quiet _ H)).
  destruct (raw_sncut options); [exfalso; exact (Quiet _ H)|].
  unfold Console.next, Console.input in H.
  destruct answers as [|ans answers].
  { inversion H; subst. contradiction. }
  destruct (is_yes ans).
  - destruct answers as [|a answers]; simpl in H.
    + inversion H; subst. split; [vm_compute; reflexivity|]. left. reflexivity.
    + unfold sncut_round in H. destruct (float_of_str a) as [v|] eqn:Fl.
      * unfold Console.say in H. inversion H; subst.
        split; [vm_compute; reflexivity|]. right. right.
        exists a, v. repeat split; [right; left; reflexivity|exact Fl].
      * inversion H; subst. split; [vm_compute; reflexivity|]. right. left. reflexivity.
  - unfold Console.say in H. inversion H; subst. contradiction.
Qed.

(** X29.  The S/N cutoff is asked for once, whatever the answer.  In
    every run of [startCmd] in which the cutoff is asked for, the
    question is put exactly once, and the run ends in one of three ways:
    in EOFError, in the error of the unbound name [Error], or in the
    call of [main] with an [sncut] that [float] read from one of the
    answers.  So an answer that is not a number is not asked for
    again. *)
Theorem cutoff_question_outcomes (options : RawOptions) answers r rest said :
  startCmd sys options answers = (r, rest, said) ->
  In (Asked prompt_sncut) said ->
  times_asked prompt_sncut said = 1 /\
  (r = Fails EOFError \/ r = Fails (UnboundName (lit "Error")) \/
   exists o a v, r = Done o /\ In a answers /\ float_of_str a = Some v /\
                 raw_sncut o = Some (inr v)).
Proof.
  unfold startCmd. intros H I.
  destruct (next_question_from _ prompt_sncut _ _ _ _ _ _
              (within_ask_infile sys options) (forwards_ask_infile options)
              ltac:(differ) H I)
    as [inf [a1 [t1 [K1 [I1 [T1 C1]]]]]].
  destruct (next_question_from _ prompt_sncut _ _ _ _ _ _
              (within_ask_outfile options) (forwards_ask_outfile options)
              ltac:(differ) K1 I1)
    as [outf [a2 [t2 [K2 [I2 [T2 C2]]]]]].
  destruct (next_question_from _ prompt_sncut _ _ _ _ _ _
              (within_ask_rejectfile options) (forwards_ask_rejectfile options)
              ltac:(differ) K2 I2)
    as [rejf [a3 [t3 [K3 [I3 [T3 C3]]]]]].
  destruct (next_question_from _ prompt_sncut _ _ _ _ _ _
              (within_ask_path sys options) (forwards_ask_path options)
              ltac:(differ) K3 I3)
    as [path [a4 [t4 [K4 [I4 [T4 C4]]]]]].
  destruct (next_question_from _ prompt_sncut _ _ _ _ _ _
              (within_ask_eyecheck options) (forwards_ask_eyecheck options)
              ltac:(differ) K4 I4)
    as [skip [a5 [t5 [K5 [I5 [T5 C5]]]]]].
  assert (Tail : forall y, In y a5 -> In y answers).
  { intros y Hy. apply T1, T2, T3, T4, T5. exact Hy. }
  rewrite C1, C2, C3, C4, C5.
  destruct (next_inv _ _ _ _ _ _ K5) as [[e [E ->]]|[cut [a6 [s6 [t6 [E [K6 ->]]]]]]].
  - destruct (ask_sncut_asked _ _ _ _ _ _ E I5) as [Once [X|[X|[a [v [_ [_ X]]]]]]];
      (split; [exact Once|]);
      [inversion X; auto|inversion X; auto|discriminate X].
  - apply say_inv in K6. destruct K6 as [-> [_ ->]]. rewrite app_nil_r in I5 |- *.
    destruct (ask_sncut_asked _ _ _ _ _ _ E I5) as [Once [X|[X|[a [v [Ia [Fl X]]]]]]];
      [discriminate X|discriminate X|].
    split; [exact Once|].
    inversion X; subst. right. right.
    eexists. exists a, v. repeat split; [apply Tail; exact Ia|exact Fl].
Qed.

End CutoffQuestion.

(** ** The front ends on the sample command line *)

Example command_line_ex :
  @command_line Z_numeric cmd_opts = Done (FrontCmd cmd_options).
Proof. vm_compute. reflexivity. Qed.

Example startCmd_all_asked :
  @startCmd Z_numeric Z_reader cmd_sys (@default_options Z_numeric) all_answers
  = (Done asked_options, [],
     [Asked prompt_infile; Asked prompt_change_outfile; Asked prompt_change_rejectfile;
      Asked prompt_fullPath; Asked prompt_spectraPath; Asked prompt_eyecheck;
      Asked prompt_use_sncut; Asked prompt_sncut]).
Proof. vm_compute. reflexivity. Qed.

Example startCmd_asks_again :
  fst (@startCmd Z_numeric Z_reader cmd_sys (@default_options Z_numeric)
         (lit "list.csv" :: lit "missing" :: all_answers))
  = (Done asked_options, []).
Proof. vm_compute. reflexivity. Qed.

Lemma command_line_options_settled_witness :
  path_settled cmd_options /\ cut_settled cmd_options.
Proof.
  exact (@command_line_options_settled Z_numeric cmd_opts cmd_options
           ltac:(vm_compute; reflexivity)).
Defined.

Lemma front_end_choice_witness :
  In OptCmd cmd_opts /\ raw_useGUI cmd_options = Some false.
Proof.
  exact (@front_end_choice Z_numeric cmd_opts (FrontCmd cmd_options)
           ltac:(vm_compute; reflexivity)).
Defined.

Lemma result_names_never_change_witness :
  raw_outfile asked_options = lit "PyHammerResults.csv" /\
  raw_rejectfile asked_options = lit "RejectSpectra.csv".
Proof.
  exact (@result_names_never_change Z_numeric Z_reader cmd_sys
           (@default_options Z_numeric) all_answers asked_options _ _
           ltac:(vm_compute; reflexivity)).
Defined.

Lemma startCmd_options_ready_witness :
  ends_with (lit ".csv") (raw_outfile asked_options) = true /\
  raw_eyecheck asked_options <> None.
Proof.
  pose proof (@startCmd_options_ready Z_numeric Z_reader cmd_sys
                (@default_options Z_numeric) all_answers asked_options _ _
                ltac:(vm_compute; reflexivity)) as [_ [H1 [_ [H2 _]]]].
  split; [exact H1|exact H2].
Defined.

Lemma command_line_cut_stays_text_witness :
  exists arg, In (OptSncut arg) cmd_opts /\
    raw_sncut
      (match fst (fst (@startCmd Z_numeric Z_reader cmd_sys cmd_options
                         [lit "n"; lit "n"])) with
       | Done o => o
       | Fails _ => cmd_options
       end) = Some (inl arg).
Proof.
  exact (@command_line_cut_stays_text Z_numeric Z_reader cmd_sys cmd_opts cmd_options
           [lit "n"; lit "n"] _ _ _
           ltac:(vm_compute; reflexivity) ltac:(vm_compute; reflexivity)
           ltac:(vm_compute; reflexivity)).
Defined.

Lemma new_name_question_fails_witness :
  fst (fst (@startCmd Z_numeric Z_reader cmd_sys cmd_options [lit "y"; lit "new.csv"]))
  = Fails EOFError \/
  fst (fst (@startCmd Z_numeric Z_reader cmd_sys cmd_options [lit "y"; lit "new.csv"]))
  = Fails (UnboundName (lit "outfileExt")).
Proof.
  refine (proj1 (@new_name_question_fails Z_numeric Z_reader cmd_sys cmd_options
                   [lit "y"; lit "new.csv"] _ _ _ _) _).
  - vm_compute. reflexivity.
  - vm_compute. right. left. reflexivity.
Defined.

Lemma cutoff_question_outcomes_witness :
  times_asked prompt_sncut
    (snd (@startCmd Z_numeric Z_reader cmd_sys cut_options [lit "y"; lit "five"])) = 1 /\
  (fst (fst (@startCmd Z_numeric Z_reader cmd_sys cut_options [lit "y"; lit "five"]))
  = Fails EOFError \/
  fst (fst (@startCmd Z_numeric Z_reader cmd_sys cut_options [lit "y"; lit "five"]))
  = Fails (UnboundName (lit "Error")) \/
  exists o a v,
    fst (fst (@startCmd Z_numeric Z_reader cmd_sys cut_options [lit "y"; lit "five"]))
    = Done o /\ In a [lit "y"; lit "five"] /\ Z_float a = Some v /\
    raw_sncut o = Some (inr v)).
Proof.
  refine (@cutoff_question_outcomes Z_numeric Z_reader cmd_sys cut_options
            [lit "y"; lit "five"] _ _ _ _ _).
  - vm_compute. reflexivity.
  - vm_compute. right. left. reflexivity.
Defined.

(** ** The rows on disk *)

Section RowsOnDisk.

Context {N : Numeric} {S : Spectrum}.

Lemma ends_line_break : ends_line [newline].
Proof. exists []. reflexivity. Qed.

Lemma ends_line_app (a x : str) : ends_line x -> ends_line (a ++ x).
Proof. intros [b ->]. exists (a ++ b). rewrite app_assoc. reflexivity. Qed.

Lemma ends_line_cons (c : ascii) (x : str) : ends_line x -> ends_line (c :: x).
Proof. intros [b ->]. exists (c :: b). reflexivity. Qed.

Ltac to_the_end :=
  repeat first [exact ends_line_break | apply ends_line_app | apply ends_line_cons].

Lemma turn_ends_line opts i line msg s r s' l :
  turn opts i line msg s (r, s', l) ->
  forall h, Forall ends_line (written h l).
Proof.
  intros T h.
  inversion T; subst; destruct h; simpl; repeat constructor;
    unfold reject_row, out_row; to_the_end.
Qed.

Lemma loop_ends_line opts lines : forall i msg last s r s' l,
  loop opts i lines msg last s = (r, s', l) ->
  forall h, Forall ends_line (written h l).
Proof.
  induction lines as [|line rest IH]; intros i msg last s r s' l H h.
  - inversion H. constructor.
  - rewrite loop_cons in H.
    pose proof (process_line_turn opts i line msg s) as T.
    destruct (process_line opts i line msg s) as [[[m|e] s1] l1].
    + destruct (loop opts (Datatypes.S i) rest m (Some i) s1) as [[r2 s2] l2] eqn:E.
      inversion H; subst. rewrite written_app. apply Forall_app. split.
      * exact (turn_ends_line _ _ _ _ _ _ _ _ T h).
      * exact (IH _ _ _ _ _ _ _ E h).
    + inversion H; subst. exact (turn_ends_line _ _ _ _ _ _ _ _ T h).
Qed.

Lemma main_ends_line opts env s r s' l lines :
  eyecheck opts = false ->
  open_r env (infile opts) = inr lines ->
  main opts env s = (r, s', l) ->
  forall h, Forall ends_line (written h l).
Proof.
  intros Ey Op H h.
  destruct (main_shape _ _ _ _ _ _ _ Ey Op H) as [r0 [ll [tail [Lp [-> T]]]]].
  rewrite !written_app. apply Forall_app. split; [|apply Forall_app; split].
  - destruct h; simpl; repeat constructor; unfold header_out, header_reject; to_the_end.
  - exact (loop_ends_line _ _ _ _ _ _ _ _ _ Lp h).
  - destruct T as [[e [_ [_ ->]]]|[v [late [_ [-> Hl]]]]]; [constructor|].
    rewrite written_app, (late_written _ _ Hl).
    destruct h; constructor.
Qed.

Lemma count_zero c (b : str) : count c b = 0 -> ~ In c b.
Proof.
  unfold count. induction b as [|x b IH]; simpl; [tauto|].
  destruct (Ascii.eqb x c) eqn:E; [discriminate|].
  apply Ascii.eqb_neq in E. intros H [I|I]; [congruence|exact (IH H I)].
Qed.

(** Strings of one line each, written one after the other, are the lines
    of the file. *)
Lemma lines_on_disk (ws : list str) :
  Forall (fun d => count newline d = 1) ws -> Forall ends_line ws ->
  file_lines (concat ws) = ws.
Proof.
  unfold file_lines. induction ws as [|d ws IH]; intros C E; [reflexivity|].
  inversion C; subst. inversion E; subst.
  match goal with X : ends_line d |- _ => destruct X as [b ->] end.
  assert (Nb : ~ In newline b).
  { apply count_zero. match goal with X : count _ _ = 1 |- _ =>
      rewrite count_app in X; simpl in X end.
    unfold count in *. simpl in *. lia. }
  simpl. rewrite <- app_assoc. simpl.
  rewrite (file_lines_from_line b (concat ws) Nb []). simpl.
  rewrite IH by assumption. reflexivity.
Qed.

Lemma parsed_prefix_whole (lines : list str) :
  length (parsed_prefix lines) = length lines <-> forallb parses lines = true.
Proof.
  induction lines as [|line rest IH]; simpl; [tauto|].
  destruct (parses line); simpl.
  - rewrite <- IH. split; [intros H; injection H; auto|intros ->; reflexivity].
  - split; discriminate.
Qed.

(** C1.  The rows of the two files, read back from what was written.  In
    a run that is not a skip to the review and opens the manifest, the
    lines of the result file and of the reject file after their headers
    are the strings written after the headers, and together they are as
    many as the manifest lines before the first one that does not
    parse.  So there are as many rows as manifest lines exactly when
    every line parses, and fewer when one does not: its line and the
    ones after it get no row.  Each line that is processed leaves one
    row, which begins with its file name and a comma: in the reject file
    and none in the result file when the spectrum does not load or its
    signal-to-noise is below the floor, in the result file and none in
    the reject file otherwise. *)
Theorem rows_partition_lines (SL : str_one_line) (FL : format_one_line)
    opts env s r s' l lines :
  eyecheck opts = false ->
  open_r env (infile opts) = inr lines ->
  main opts env s = (r, s', l) ->
  file_rows Outfile l = rows Outfile l /\
  file_rows Rejectfile l = rows Rejectfile l /\
  length (file_rows Outfile l) + length (file_rows Rejectfile l)
  = length (parsed_prefix lines) /\
  (length (file_rows Outfile l) + length (file_rows Rejectfile l) = length lines
   <-> forallb parses lines = true) /\
  forall i line msg s0 fname ftype success message s1,
    parse_line line = Ok (fname, ftype) ->
    readFile (spectraPath opts ++ fname) ftype s0 = ((success, message), s1) ->
    let below := match sncut opts with
                 | Some cut => num_ltb (fst (calcSN s1)) cut
                 | None => false
                 end in
    match process_line opts i line msg s0 with
    | (_, _, l0) =>
        if negb success || below
        then (exists rest, written Rejectfile l0 = [fname ++ comma :: rest]) /\
             written Outfile l0 = []
        else (exists rest, written Outfile l0 = [fname ++ comma :: rest]) /\
             written Rejectfile l0 = []
    end.
Proof.
  intros Ey Op H.
  destruct (main_one_line SL FL _ _ _ _ _ _ H) as [CO CR].
  pose proof (main_ends_line _ _ _ _ _ _ _ Ey Op H) as EL.
  assert (FO : file_rows Outfile l = rows Outfile l).
  { unfold file_rows, file_content, rows.
    rewrite (lines_on_disk _ CO (EL Outfile)). reflexivity. }
  assert (FR : file_rows Rejectfile l = rows Rejectfile l).
  { unfold file_rows, file_content, rows.
    rewrite (lines_on_disk _ CR (EL Rejectfile)). reflexivity. }
  destruct (main_rows _ _ _ _ _ _ _ Ey Op H) as [r0 [ll [L [RO RR]]]].
  pose proof (loop_rows _ _ _ _ _ _ _ _ _ L) as C.
  split; [exact FO|]. split; [exact FR|]. rewrite FO, FR, RO, RR.
  split; [exact C|]. split.
  - rewrite C. apply parsed_prefix_whole.
  - intros i line msg s0 fname ftype success message s1 P R.
    exact (turn_row opts i line msg s0 fname ftype success message s1 P R).
Qed.

End RowsOnDisk.

Lemma rows_partition_lines_witness :
  let l := run_log (toy_main (Some 5%Z) (lit "in.txt") broken_lines) in
  length broken_lines = 3 /\
  length (file_rows Outfile l) + length (file_rows Rejectfile l) = 1.
Proof.
  split; [reflexivity|].
  exact (proj1 (proj2 (proj2
    (@rows_partition_lines Z_numeric toy_spectrum Z_str_one_line Z_format_one_line
       (toy_options (Some 5%Z) (lit "in.txt")) (toy_env (lit "in.txt") broken_lines)
       toy_start
       (run_result (toy_main (Some 5%Z) (lit "in.txt") broken_lines))
       (run_state (toy_main (Some 5%Z) (lit "in.txt") broken_lines))
       (run_log (toy_main (Some 5%Z) (lit "in.txt") broken_lines))
       broken_lines eq_refl eq_refl eq_refl)))).
Defined.

(** ** The files when [main] is left *)

Section FilesAtExit.

Context {N : Numeric} {S : Spectrum}.

(** C6.  The two output files, from their opening to the end of [main].
    In a run that is not a skip to the review: once the manifest is
    open, the result file and the reject file are opened, and the first
    thing written to each is its header; whenever the review is started
    both files are closed; and when [main] returns both files are
    closed.  But when a line of the manifest does not parse, [main] is
    left by the ValueError of that line with both files still open:
    nothing closes them on that way out. *)
Theorem files_opened_headed_closed opts env s r s' l :
  eyecheck opts = false ->
  main opts env s = (r, s', l) ->
  (forall lines, open_r env (infile opts) = inr lines ->
     exists rest,
       l = [EvOpen Infile (infile opts);
            EvOpen Outfile (outfile opts);
            EvOpen Rejectfile (rejectfile opts);
            EvWrite Outfile
              (lit "#Filename,Radial Velocity (km/s),Guessed Spectral Type,Guessed Metallicity,User Spectral Type,User Metallicity"
               ++ [newline]);
            EvWrite Rejectfile (lit "#Filename,File Type,Spectra S/N" ++ [newline])]
           ++ rest) /\
  (forall l1 l2, l = l1 ++ EvEyecheck :: l2 ->
     is_open Outfile false l1 = false /\ is_open Rejectfile false l1 = false) /\
  (r = Ok tt ->
     is_open Outfile false l = false /\ is_open Rejectfile false l = false) /\
  (forall lines, open_r env (infile opts) = inr lines ->
     forallb parses lines = false ->
     r = Raise ValueError /\
     is_open Outfile false l = true /\ is_open Rejectfile false l = true).
Proof.
  intros Ey H.
  destruct (files_closed_on_return opts env s r s' l Ey H) as [A [B C]].
  split; [exact A|]. split; [exact B|]. split; [exact C|].
  intros lines Op Bad.
  destruct (main_shape _ _ _ _ _ _ _ Ey Op H) as [r0 [ll [tail [Lp [-> T]]]]].
  destruct T as [[e [-> [-> ->]]]|[[m last] [late [-> _]]]].
  - destruct (loop_raise _ _ _ _ _ _ _ _ _ Lp) as [-> _].
    pose proof (loop_quiet _ _ _ _ _ _ _ _ _ Lp) as Hq.
    split; [reflexivity|].
    rewrite app_nil_r, !is_open_app, !(is_open_quiet _ _ _ Hq).
    split; reflexivity.
  - exfalso. destruct (loop_ok _ _ _ _ _ _ _ _ _ _ Lp) as [PP _].
    apply parsed_prefix_all_inv in PP. congruence.
Qed.

End FilesAtExit.

Lemma files_opened_headed_closed_witness :
  let x := toy_main (Some 5%Z) (lit "in.txt") broken_lines in
  run_result x = Raise ValueError /\
  is_open Outfile false (run_log x) = true /\
  is_open Rejectfile false (run_log x) = true.
Proof.
  exact (proj2 (proj2 (proj2
    (@files_opened_headed_closed Z_numeric toy_spectrum
       (toy_options (Some 5%Z) (lit "in.txt"))
       (toy_env (lit "in.txt") broken_lines) toy_start
       (run_result (toy_main (Some 5%Z) (lit "in.txt") broken_lines))
       (run_state (toy_main (Some 5%Z) (lit "in.txt") broken_lines))
       (run_log (toy_main (Some 5%Z) (lit "in.txt") broken_lines))
       eq_refl eq_refl))) broken_lines eq_refl eq_refl).
Defined.
